(** * server_lookup.py: a shallow embedding and its specification

    The program loads a JSON array of server records, indexes the records by
    lowercased hostname and either lists the hostnames or prints one record.

    The embedding follows the source function by function ([load_index],
    [lookup], [main]).  The parts of the Python runtime the program calls are
    modelled next to it: strings as lists of code points, the values
    [json.load] builds, the text [json.dumps] writes and the value
    [json.loads] reads, [repr] and [str], exceptions, and a small
    state-and-exception monad over the file system, the standard output and
    the dictionaries the program allocates.

    Four functions of the interpreter are taken as they are, as variables of
    the section: [float.__repr__], [float] on the text of a number,
    [str.lower] and [str.isprintable]; a fifth variable says which code
    points the encoding of the standard output can write.

    Outside the model: the recursion limit and the limit on the digits of an
    integer (both make [json.load] or [json.dumps] raise on extreme input),
    the bytes the standard output encodes its text to, the standard error,
    and the parsing of the command line by [argparse] ([main] starts from
    the parsed arguments). *)

From Stdlib Require Import ZArith NArith Floats Lia.
From Stdlib Require Import Decimal DecimalZ DecimalPos DecimalFacts.
From stdpp Require Import gmap list sorting strings.

Local Open Scope N_scope.

(** ** Python strings *)

(** A Python [str] is a sequence of code points. *)
Abbreviation pystr := (list N).

(** The [str] written as an ASCII literal. *)
Definition u (s : string) : pystr :=
  Ascii.N_of_ascii <$> String.list_ascii_of_string s.

(** [a < b] on [str]: lexicographic order of the code points, a proper prefix
    first. *)
Fixpoint str_ltb (a b : pystr) : bool :=
  match a, b with
  | _, [] => false
  | [], _ :: _ => true
  | x :: a', y :: b' => (x <? y) || ((x =? y) && str_ltb a' b')
  end.

Definition str_le (a b : pystr) : Prop := str_ltb b a = false.

(** [s.startswith(p)], with what follows the prefix. *)
Fixpoint strip_prefix (p s : pystr) : option pystr :=
  match p, s with
  | [], _ => Some s
  | _ :: _, [] => None
  | x :: p', y :: s' => if x =? y then strip_prefix p' s' else None
  end.

(** [p in s] for two strings: [p] occurs in [s] as a substring. *)
Definition substring (p s : pystr) : Prop := ∃ a b, s = a ++ p ++ b.

(** A JSON text written with single quotes in place of the double quotes. *)
Definition uq (s : string) : pystr :=
  (λ c, if c =? 39 then 34 else c) <$> u s.

(** The ASCII part of [str.lower()]: [A]..[Z] go to [a]..[z], every other
    code point stays. *)
Definition ascii_lower_cp (c : N) : N :=
  if (65 <=? c) && (c <=? 90) then c + 32 else c.

Definition ascii_lower (s : pystr) : pystr := ascii_lower_cp <$> s.

(** ** The values of [json.load] *)

(** What [json.load] builds: [None], [bool], [int], [float], [str], [list] and
    [dict] with [str] keys.  A [dict] keeps its items in insertion order. *)
#[local] Set Warnings "-register-all".
Inductive json : Type :=
| JNull
| JBool (b : bool)
| JInt (n : Z)
| JFloat (f : float)
| JStr (s : pystr)
| JArr (items : list json)
| JObj (fields : list (pystr * json)).

(** [bool(v)]: the truth value Python gives [v] in [if not v]. *)
Definition truthy (v : json) : bool :=
  match v with
  | JNull => false
  | JBool b => b
  | JInt n => negb (n =? 0)%Z
  | JFloat f => negb (PrimFloat.eqb f 0%float)
  | JStr s => match s with [] => false | _ => true end
  | JArr l => match l with [] => false | _ => true end
  | JObj l => match l with [] => false | _ => true end
  end.

(** [d.get(k)] on the items of a [dict]: the value of the item with key [k]. *)
Fixpoint dict_get (k : pystr) (d : list (pystr * json)) : option json :=
  match d with
  | [] => None
  | (k', v) :: d' => if decide (k' = k) then Some v else dict_get k d'
  end.

(** [d[k] = v] on the items of a [dict]: an existing key keeps its place and
    takes the new value, a new key goes to the end. *)
Fixpoint dict_set (k : pystr) (v : json) (d : list (pystr * json))
  : list (pystr * json) :=
  match d with
  | [] => [(k, v)]
  | (k', v') :: d' =>
      if decide (k' = k) then (k, v) :: d' else (k', v') :: dict_set k v d'
  end.

(** [dict(pairs)]. *)
Definition dict_of_pairs (pairs : list (pystr * json)) : list (pystr * json) :=
  foldl (λ d kv, dict_set kv.1 kv.2 d) [] pairs.

(** ** [json.dumps]: the text of a value *)

(** [int.__repr__]: decimal digits, a minus sign before a negative number. *)
Fixpoint uint_chars (d : Decimal.uint) : pystr :=
  match d with
  | Nil => []
  | D0 d => 48 :: uint_chars d
  | D1 d => 49 :: uint_chars d
  | D2 d => 50 :: uint_chars d
  | D3 d => 51 :: uint_chars d
  | D4 d => 52 :: uint_chars d
  | D5 d => 53 :: uint_chars d
  | D6 d => 54 :: uint_chars d
  | D7 d => 55 :: uint_chars d
  | D8 d => 56 :: uint_chars d
  | D9 d => 57 :: uint_chars d
  end.

Definition int_repr (n : Z) : pystr :=
  match Z.to_int n with
  | Decimal.Pos d => uint_chars d
  | Decimal.Neg d => 45 :: uint_chars d
  end.

(** One hexadecimal digit, lower case, as ['{:x}'] writes it. *)
Definition hex_digit (n : N) : N := if n <? 10 then 48 + n else 87 + n.

(** ['\\u{0:04x}'.format(n)] for [n < 0x10000]. *)
Definition escape_u (n : N) : pystr :=
  [92; 117; hex_digit (n / 4096 mod 16); hex_digit (n / 256 mod 16);
   hex_digit (n / 16 mod 16); hex_digit (n mod 16)].

(** The replacement [encode_basestring_ascii] makes for one code point:
    printable ASCII other than the quote and the backslash stays, the short
    escapes of [ESCAPE_DCT], [\uXXXX] below 0x10000 and a surrogate pair from
    there on. *)
Definition escape_cp (c : N) : pystr :=
  if c =? 34 then [92; 34]
  else if c =? 92 then [92; 92]
  else if (32 <=? c) && (c <=? 126) then [c]
  else if c =? 8 then [92; 98]
  else if c =? 12 then [92; 102]
  else if c =? 10 then [92; 110]
  else if c =? 13 then [92; 114]
  else if c =? 9 then [92; 116]
  else if c <? 65536 then escape_u c
  else
    let n := c - 65536 in
    escape_u (N.lor 55296 (N.land (N.shiftr n 10) 1023))
    ++ escape_u (N.lor 56320 (N.land n 1023)).

(** [encode_basestring_ascii(s)]: the JSON string literal of [s]. *)
Definition encode_basestring_ascii (s : pystr) : pystr :=
  34 :: (s ≫= escape_cp) ++ [34].

(** ['\n' + ' ' * (indent * level)]. *)
Definition newline_indent (indent level : nat) : pystr :=
  10 :: replicate (indent * level) 32.

(** [sep.join(chunks)]. *)
Fixpoint join (sep : pystr) (chunks : list pystr) : pystr :=
  match chunks with
  | [] => []
  | [c] => c
  | c :: cs => c ++ sep ++ join sep cs
  end.

(** ** [json.loads]: the value of a text *)

(** [WHITESPACE]: space, tab, line feed, carriage return. *)
Definition is_ws (c : N) : bool :=
  (c =? 32) || (c =? 9) || (c =? 10) || (c =? 13).

Fixpoint skip_ws (s : pystr) : pystr :=
  match s with
  | c :: r => if is_ws c then skip_ws r else s
  | [] => []
  end.

Definition is_digit (c : N) : bool := (48 <=? c) && (c <=? 57).

(** The longest run of digits [s] starts with, and what follows it. *)
Fixpoint span_digits (s : pystr) : pystr * pystr :=
  match s with
  | c :: r =>
      if is_digit c then let '(d, r') := span_digits r in (c :: d, r')
      else ([], s)
  | [] => ([], [])
  end.

(** The three groups of [NUMBER_RE], matched at the start of [s], and the
    rest of [s]: an integer (an optional minus sign, then a single zero or a
    run of digits that starts with a nonzero one), an optional fraction (a
    dot and at least one digit) and an optional exponent (e or E, an optional
    sign and at least one digit). *)
Definition match_integer (s : pystr) : option (pystr * pystr) :=
  let '(sign, s1) := match s with
                     | c :: r => if c =? 45 then ([45], r) else ([], s)
                     | [] => ([], s)
                     end in
  match s1 with
  | c :: r =>
      if c =? 48 then Some (sign ++ [48], r)
      else if is_digit c then
        let '(d, r') := span_digits r in Some (sign ++ c :: d, r')
      else None
  | [] => None
  end.

Definition match_frac (s : pystr) : pystr * pystr :=
  match s with
  | c :: r =>
      if c =? 46 then
        match span_digits r with
        | ([], _) => ([], s)
        | (d, r') => (46 :: d, r')
        end
      else ([], s)
  | [] => ([], s)
  end.

Definition match_exp (s : pystr) : pystr * pystr :=
  match s with
  | c :: r =>
      if (c =? 101) || (c =? 69) then
        let '(sign, r1) := match r with
                           | c1 :: r1 =>
                               if (c1 =? 45) || (c1 =? 43) then ([c1], r1)
                               else ([], r)
                           | [] => ([], r)
                           end in
        match span_digits r1 with
        | ([], _) => ([], s)
        | (d, r2) => (c :: sign ++ d, r2)
        end
      else ([], s)
  | [] => ([], s)
  end.

Definition match_number (s : pystr)
  : option (pystr * pystr * pystr * pystr) :=
  match match_integer s with
  | None => None
  | Some (i, r) =>
      let '(f, r1) := match_frac r in
      let '(e, r2) := match_exp r1 in
      Some (i, f, e, r2)
  end.

(** [int(text)] on the integer group of a number. *)
Definition digit_cons (c : N) (d : Decimal.uint) : Decimal.uint :=
  if c =? 48 then D0 d else if c =? 49 then D1 d else if c =? 50 then D2 d
  else if c =? 51 then D3 d else if c =? 52 then D4 d else if c =? 53 then D5 d
  else if c =? 54 then D6 d else if c =? 55 then D7 d else if c =? 56 then D8 d
  else D9 d.

Definition chars_uint (s : pystr) : Decimal.uint := foldr digit_cons Nil s.

Definition parse_int (s : pystr) : Z :=
  match s with
  | c :: r =>
      if c =? 45 then Z.of_int (Decimal.Neg (chars_uint r))
      else Z.of_int (Decimal.Pos (chars_uint s))
  | [] => 0%Z
  end.

(** The value of one hexadecimal digit, either case. *)
Definition hex_val (c : N) : option N :=
  if (48 <=? c) && (c <=? 57) then Some (c - 48)
  else if (97 <=? c) && (c <=? 102) then Some (c - 87)
  else if (65 <=? c) && (c <=? 70) then Some (c - 55)
  else None.

(** The four hexadecimal digits of a [\uXXXX] escape. *)
Definition hex4 (a b c d : N) : option N :=
  match hex_val a, hex_val b, hex_val c, hex_val d with
  | Some a, Some b, Some c, Some d => Some (((a * 16 + b) * 16 + c) * 16 + d)
  | _, _, _, _ => None
  end.

Definition is_high_surrogate (c : N) : bool := (55296 <=? c) && (c <=? 56319).
Definition is_low_surrogate (c : N) : bool := (56320 <=? c) && (c <=? 57343).

(** [BACKSLASH]: the one-letter escapes. *)
Definition backslash (c : N) : option N :=
  if c =? 34 then Some 34
  else if c =? 92 then Some 92
  else if c =? 47 then Some 47
  else if c =? 98 then Some 8
  else if c =? 102 then Some 12
  else if c =? 110 then Some 10
  else if c =? 114 then Some 13
  else if c =? 116 then Some 9
  else None.

(** One more code point in front of the string a scan returned. *)
Definition scanned (c : N) (r : option (pystr * pystr)) : option (pystr * pystr) :=
  match r with
  | Some (str, rest) => Some (c :: str, rest)
  | None => None
  end.

(** [scanstring(s, end, strict=True)], from behind the opening quote: the
    string and what follows its closing quote.  An unescaped control
    character, an unknown escape, a [\u] without four hexadecimal digits and
    a missing closing quote are errors; a high surrogate escape followed by a
    low surrogate escape is one code point. *)
Fixpoint scanstring (s : pystr) : option (pystr * pystr) :=
  match s with
  | [] => None
  | c :: r =>
      if c =? 34 then Some ([], r)
      else if c =? 92 then
        match r with
        | [] => None
        | e :: r1 =>
            if e =? 117 then
              match r1 with
              | h1 :: h2 :: h3 :: h4 :: r2 =>
                  match hex4 h1 h2 h3 h4 with
                  | None => None
                  | Some uni =>
                      if is_high_surrogate uni then
                        match r2 with
                        | b1 :: r3 =>
                            if b1 =? 92 then
                              match r3 with
                              | u1 :: r4 =>
                                  if u1 =? 117 then
                                    match r4 with
                                    | l1 :: l2 :: l3 :: l4 :: r5 =>
                                        match hex4 l1 l2 l3 l4 with
                                        | None => None
                                        | Some uni2 =>
                                            if is_low_surrogate uni2 then
                                              scanned
                                                (65536 + N.lor (N.shiftl (uni - 55296) 10)
                                                           (uni2 - 56320))
                                                (scanstring r5)
                                            else scanned uni (scanstring r2)
                                        end
                                    | _ => None
                                    end
                                  else scanned uni (scanstring r2)
                              | [] => None
                              end
                            else scanned uni (scanstring r2)
                        | [] => None
                        end
                      else scanned uni (scanstring r2)
                  end
              | _ => None
              end
            else
              match backslash e with
              | Some c' => scanned c' (scanstring r1)
              | None => None
              end
        end
      else if c <=? 31 then None
      else scanned c (scanstring r)
  end.

(** ** Exceptions, the world and the monad of a run *)

(** The exceptions the program can end with.  [JSONDecodeError],
    [UnicodeDecodeError] and [UnicodeEncodeError] are subclasses of
    [ValueError]. *)
Inductive exn : Type :=
| FileNotFoundError (msg : pystr)
| IsADirectoryError
| UnicodeDecodeError
| UnicodeEncodeError
| JSONDecodeError
| ValueError (msg : pystr)
| AttributeError
| TypeError
| KeyError (arg : pystr)
| SystemExit (code : Z).

(** [isinstance(e, ValueError)]. *)
Definition is_ValueError (e : exn) : bool :=
  match e with
  | ValueError _ | JSONDecodeError | UnicodeDecodeError
  | UnicodeEncodeError => true
  | _ => false
  end.

(** What a path names: nothing, a directory, or a regular file.  A regular
    file carries the text that reading it with [encoding="utf-8"] gives, or
    [None] when its bytes are not UTF-8. *)
Inductive fs_node : Type :=
| NoEntry
| Directory
| RegularFile (text : option pystr).

(** The state a run works on: the file system, the text written to the
    standard output so far and the dictionaries allocated so far.  A
    reference to a dictionary is its position in [w_heap]. *)
Record world : Type := World {
  w_fs : pystr → fs_node;
  w_stdout : pystr;
  w_heap : list (gmap pystr json)
}.

(** How a piece of the program ends: with a value, or with an exception. *)
Inductive outcome (A : Type) : Type :=
| Ret (a : A)
| Raise (e : exn).
Arguments Ret {A} a.
Arguments Raise {A} e.

(** A piece of the program: from the world before it to its outcome and the
    world after it.  An exception skips what follows, up to a handler. *)
Definition M (A : Type) : Type := world → outcome A * world.

#[export] Instance M_ret : MRet M := λ A a w, (Ret a, w).

#[export] Instance M_bind : MBind M := λ A B k m w,
  match m w with
  | (Ret a, w') => k a w'
  | (Raise e, w') => (Raise e, w')
  end.

(** [raise e]. *)
Definition raise {A} (e : exn) : M A := λ w, (Raise e, w).

(** [try: m except KeyError as e: handler(e)]. *)
Definition try_except_KeyError {A} (m : M A) (handler : pystr → M A) : M A :=
  λ w, match m w with
       | (Raise (KeyError arg), w') => handler arg w'
       | r => r
       end.

(** [for x in l: body(x)]. *)
Fixpoint for_each {A} (l : list A) (body : A → M unit) : M unit :=
  match l with
  | [] => mret tt
  | x :: l' => body x ;; for_each l' body
  end.

(** [p.exists()]. *)
Definition path_exists (p : pystr) : M bool :=
  λ w, (Ret (match w_fs w p with NoEntry => false | _ => true end), w).

(** [{}]: a new empty dictionary. *)
Definition dict_new : M nat :=
  λ w, (Ret (length (w_heap w)),
        World (w_fs w) (w_stdout w) (w_heap w ++ [∅])).

(** The dictionary a reference points to. *)
Definition deref (w : world) (r : nat) : gmap pystr json :=
  default ∅ (w_heap w !! r).

(** [d[k] = v]. *)
Definition dict_setitem (r : nat) (k : pystr) (v : json) : M unit :=
  λ w, (Ret tt,
        World (w_fs w) (w_stdout w) (alter (insert k v) r (w_heap w))).

(** [k in d]. *)
Definition dict_contains (r : nat) (k : pystr) : M bool :=
  λ w, (Ret (bool_decide (is_Some (deref w r !! k))), w).

(** [d[k]]. *)
Definition dict_getitem (r : nat) (k : pystr) : M json :=
  λ w, match deref w r !! k with
       | Some v => (Ret v, w)
       | None => (Raise (KeyError k), w)
       end.

#[export] Instance str_le_dec : RelDecision str_le.
Proof. intros a b. unfold str_le. apply _. Defined.

(** [sorted(d)]: the keys in ascending order. *)
Definition dict_sorted (r : nat) : M (list pystr) :=
  λ w, (Ret (merge_sort str_le (map_to_list (deref w r)).*1), w).

(** [row.get(k)]: only a [dict] has the method. *)
Definition py_get (row : json) (k : pystr) : M json :=
  match row with
  | JObj fields => mret (default JNull (dict_get k fields))
  | _ => raise AttributeError
  end.

(** [row[k]] for a [str] key [k]. *)
Definition py_getitem (row : json) (k : pystr) : M json :=
  match row with
  | JObj fields =>
      match dict_get k fields with
      | Some v => mret v
      | None => raise (KeyError k)
      end
  | _ => raise TypeError
  end.

(** The status the process exits with: 0 after a normal return, the code of
    a [SystemExit], 1 after any other exception. *)
Definition exit_status {A} (o : outcome A) : Z :=
  match o with
  | Ret _ => 0
  | Raise (SystemExit code) => code
  | Raise _ => 1
  end.

(** The parsed command line: [args.json] and [args.host] ([None] when the
    option is not given). *)
Record cli_args : Type := Args {
  arg_json : pystr;
  arg_host : option pystr
}.

(** ** A world for the worked examples *)

(** The worked examples hold ASCII text and no float but 0.0.  There
    [str.lower] is [ascii_lower], the [repr] of the float is [0.0], [float]
    of that text is the float, and [str.isprintable] is never called; the
    stand-ins below are right on these inputs and only fill their places
    elsewhere. *)
Definition ex_float_repr (f : float) : pystr := u "0.0".
Definition ex_parse_float (s : pystr) : float := 0%float.
Definition ex_isprintable (c : N) : bool := true.

(** A standard output in UTF-8: it can write every code point but the
    surrogates. *)
Definition ex_stdout_encodes (c : N) : bool :=
  negb ((55296 <=? c) && (c <=? 57343)).

(** A standard output in ASCII. *)
Definition ex_stdout_ascii (c : N) : bool := false.

(** A file system with one file, [servers.json], that holds [text]. *)
Definition ex_fs (text : option pystr) (p : pystr) : fs_node :=
  if decide (p = u "servers.json") then RegularFile text else NoEntry.

(** A fresh process on that file system: nothing printed, no dictionary. *)
Definition ex_world (text : pystr) : world := World (ex_fs (Some text)) [] [].

(** The example of the specification. *)
Definition ex_alpha : json :=
  JObj [(u "hostname", JStr (u "Alpha")); (u "os", JStr (u "Linux"))].
Definition ex_beta : json :=
  JObj [(u "hostname", JStr (u "beta")); (u "os", JStr (u "BSD"))].
Definition ex_text : pystr :=
  uq "[{'hostname':'beta','os':'BSD'},{'hostname':'Alpha','os':'Linux'}]".

(** The example with a record of the same host in another case in front, and
    a record without hostname. *)
Definition ex_old : json :=
  JObj [(u "hostname", JStr (u "ALPHA")); (u "os", JStr (u "Plan9"))].
Definition ex_text_dup : pystr :=
  uq "[{'hostname':'ALPHA','os':'Plan9'},{'hostname':'beta','os':'BSD'},{'os':'none'},{'hostname':'Alpha','os':'Linux'}]".

(** The last example without its record that has no hostname. *)
Definition ex_text_dup_less : pystr :=
  uq "[{'hostname':'ALPHA','os':'Plan9'},{'hostname':'beta','os':'BSD'},{'hostname':'Alpha','os':'Linux'}]".

(** The index these texts give, and the world [load_index] leaves. *)
Definition ex_index : gmap pystr json :=
  <[u "alpha":=ex_alpha]> (<[u "beta":=ex_beta]> ∅).
Definition ex_loaded (text : pystr) : world :=
  World (ex_fs (Some text)) [] [ex_index].

(** A record with a float, a nested array, a string that needs an escape
    and an empty object, and the text of a file that holds it. *)
Definition ex_rich : json :=
  JObj [(u "hostname", JStr (u "Alpha")); (u "load", JFloat 0%float);
        (u "tags", JArr [JStr [97; 233]; JNull; JBool true; JInt (-12)]);
        (u "os", JObj [])].
Definition ex_rich_text : pystr :=
  uq "[{'hostname':'Alpha','load':0.0,'tags':['a\u00e9',null,true,-12],'os':{}}]".

(** A file system with two files: [servers.json] holds [text] and
    [fewer.json] holds [text0]. *)
Definition ex_fs2 (text text0 : pystr) (p : pystr) : fs_node :=
  if decide (p = u "servers.json") then RegularFile (Some text)
  else if decide (p = u "fewer.json") then RegularFile (Some text0)
  else NoEntry.

(** A fresh process on that file system. *)
Definition ex_world2 (text text0 : pystr) : world :=
  World (ex_fs2 text text0) [] [].

(** The example with a record whose [hostname] is [null] in the middle,
    and the example with its records in the other order. *)
Definition ex_text_null : pystr :=
  uq "[{'hostname':'beta','os':'BSD'},{'hostname':null},{'hostname':'Alpha','os':'Linux'}]".
Definition ex_text_swapped : pystr :=
  uq "[{'hostname':'Alpha','os':'Linux'},{'hostname':'beta','os':'BSD'}]".

(** The rows of [ex_text_dup], and a text with a row that is a number. *)
Definition ex_rows_dup : list json :=
  [ex_old; ex_beta; JObj [(u "os", JStr (u "none"))]; ex_alpha].
Definition ex_text_bad : pystr := uq "[{'hostname':'Alpha'}, 5]".

(** A file with a hostname that is the escape of a lone surrogate, and a
    file with a hostname that holds the escape of a line feed. *)
Definition ex_text_surrogate : pystr :=
  uq "[{'hostname':'a'},{'hostname':'\ud800'}]".
Definition ex_text_linefeed : pystr := uq "[{'hostname':'a\nb'}]".


Section server_lookup.

#[local] Set Default Proof Using "Type".

(** [float.__repr__] on a finite float and [float(text)] on the text of a
    JSON number are the interpreter's, and so are [str.lower] and
    [str.isprintable] with their Unicode tables; the model takes them as
    they are. *)
Variable float_repr : float → pystr.
Variable parse_float : pystr → float.
Variable str_lower : pystr → pystr.
Variable isprintable : N → bool.

(** The encoding of the standard output, with its error handler, is the
    environment's: [stdout_encodes c] says whether it can write the code
    point [c]. *)
Variable stdout_encodes : N → bool.

(** What the standard output can write: the ASCII characters, which every
    encoding a terminal, a pipe or a file is given has, and the other code
    points as the encoding says. *)
Definition stdout_can_encode (c : N) : bool := (c <? 128) || stdout_encodes c.

(** The standard output can write every code point of [s]. *)
Definition encodable (s : pystr) : bool := forallb stdout_can_encode s.

(** [print(s)]: [s] and a line feed are written to the standard output.
    The text is encoded when it is written: with a code point the standard
    output cannot encode, [print] raises a [UnicodeEncodeError] and nothing
    of [s] is written. *)
Definition print (s : pystr) : M unit :=
  λ w, if encodable s
       then (Ret tt, World (w_fs w) (w_stdout w ++ s ++ [10]) (w_heap w))
       else (Raise UnicodeEncodeError, w).

(** [floatstr] of [json.encoder], with [allow_nan] left at its default. *)
Definition floatstr (f : float) : pystr :=
  if negb (PrimFloat.eqb f f) then u "NaN"
  else if PrimFloat.eqb f infinity then u "Infinity"
  else if PrimFloat.eqb f neg_infinity then u "-Infinity"
  else float_repr f.

(** [_iterencode] with [indent] a number of spaces, the separators
    [(',', ': ')] it then takes, [ensure_ascii] and no [sort_keys]:
    the chunks of [v] at nesting depth [level], concatenated. *)
Fixpoint iterencode (indent level : nat) (v : json) : pystr :=
  match v with
  | JNull => u "null"
  | JBool true => u "true"
  | JBool false => u "false"
  | JInt n => int_repr n
  | JFloat f => floatstr f
  | JStr s => encode_basestring_ascii s
  | JArr [] => u "[]"
  | JArr items =>
      91 :: newline_indent indent (S level)
      ++ join (44 :: newline_indent indent (S level))
           (map (iterencode indent (S level)) items)
      ++ newline_indent indent level ++ [93]
  | JObj [] => u "{}"
  | JObj fields =>
      123 :: newline_indent indent (S level)
      ++ join (44 :: newline_indent indent (S level))
           (map (λ kv, encode_basestring_ascii (fst kv) ++ [58; 32]
                       ++ iterencode indent (S level) (snd kv)) fields)
      ++ newline_indent indent level ++ [125]
  end.

(** [json.dumps(v, indent=indent)]. *)
Definition json_dumps (indent : nat) (v : json) : pystr :=
  iterencode indent 0 v.

(** The loop of [JSONArray], from the first value on: values separated by
    commas up to the closing bracket.  [value] scans one value; [n] bounds
    the number of values by the length of the text. *)
Fixpoint array_items (value : pystr → option (json * pystr)) (n : nat)
    (s : pystr) : option (list json * pystr) :=
  match n with
  | O => None
  | S n' =>
      match value s with
      | None => None
      | Some (v, r) =>
          match skip_ws r with
          | c :: r' =>
              if c =? 93 then Some ([v], r')
              else if c =? 44 then
                match array_items value n' (skip_ws r') with
                | Some (vs, r'') => Some (v :: vs, r'')
                | None => None
                end
              else None
          | [] => None
          end
      end
  end.

(** [JSONArray], from behind the opening bracket. *)
Definition JSONArray (value : pystr → option (json * pystr)) (s : pystr)
  : option (json * pystr) :=
  match skip_ws s with
  | c :: r =>
      if c =? 93 then Some (JArr [], r)
      else
        match array_items value (length s) (skip_ws s) with
        | Some (vs, r') => Some (JArr vs, r')
        | None => None
        end
  | [] => None
  end.

(** The loop of [JSONObject], from the opening quote of a key on: the
    [key: value] pairs in the order of the text, up to the closing brace. *)
Fixpoint object_pairs (value : pystr → option (json * pystr)) (n : nat)
    (s : pystr) : option (list (pystr * json) * pystr) :=
  match n with
  | O => None
  | S n' =>
      match s with
      | q :: s1 =>
          if q =? 34 then
            match scanstring s1 with
            | None => None
            | Some (key, r) =>
                match skip_ws r with
                | c :: r1 =>
                    if c =? 58 then
                      match value (skip_ws r1) with
                      | None => None
                      | Some (v, r2) =>
                          match skip_ws r2 with
                          | c' :: r3 =>
                              if c' =? 125 then Some ([(key, v)], r3)
                              else if c' =? 44 then
                                match object_pairs value n' (skip_ws r3) with
                                | Some (kvs, r4) => Some ((key, v) :: kvs, r4)
                                | None => None
                                end
                              else None
                          | [] => None
                          end
                      end
                    else None
                | [] => None
                end
            end
          else None
      | [] => None
      end
  end.

(** [JSONObject], from behind the opening brace; the pairs become a [dict],
    so that the last value of a repeated key stays. *)
Definition JSONObject (value : pystr → option (json * pystr)) (s : pystr)
  : option (json * pystr) :=
  match skip_ws s with
  | c :: r =>
      if c =? 125 then Some (JObj [], r)
      else
        match object_pairs value (length s) (skip_ws s) with
        | Some (kvs, r') => Some (JObj (dict_of_pairs kvs), r')
        | None => None
        end
  | [] => None
  end.

(** [scan_once]: the value the text starts with and the rest of the text.
    [fuel] bounds the nesting depth of the value. *)
Fixpoint scan_once (fuel : nat) (s : pystr) : option (json * pystr) :=
  match fuel with
  | O => None
  | S fuel' =>
      match s with
      | [] => None
      | c :: r =>
          if c =? 34 then
            match scanstring r with
            | Some (str, r') => Some (JStr str, r')
            | None => None
            end
          else if c =? 123 then JSONObject (scan_once fuel') r
          else if c =? 91 then JSONArray (scan_once fuel') r
          else
            match strip_prefix (u "null") s with
            | Some r' => Some (JNull, r')
            | None =>
            match strip_prefix (u "true") s with
            | Some r' => Some (JBool true, r')
            | None =>
            match strip_prefix (u "false") s with
            | Some r' => Some (JBool false, r')
            | None =>
            match match_number s with
            | Some (i, f, e, r') =>
                match f, e with
                | [], [] => Some (JInt (parse_int i), r')
                | _, _ => Some (JFloat (parse_float (i ++ f ++ e)), r')
                end
            | None =>
            match strip_prefix (u "NaN") s with
            | Some r' => Some (JFloat nan, r')
            | None =>
            match strip_prefix (u "Infinity") s with
            | Some r' => Some (JFloat infinity, r')
            | None =>
            match strip_prefix (u "-Infinity") s with
            | Some r' => Some (JFloat neg_infinity, r')
            | None => None
            end end end end end end end
      end
  end.

(** [json.loads(s)] for a [str]: one value between optional whitespace;
    anything else, and a leading byte order mark, is a [JSONDecodeError]
    ([None] here). *)
Definition json_loads (s : pystr) : option json :=
  match s with
  | 65279 :: _ => None
  | _ =>
      match scan_once (length s) (skip_ws s) with
      | Some (v, r) =>
          match skip_ws r with
          | [] => Some v
          | _ :: _ => None
          end
      | None => None
      end
  end.


(** *** [repr] and [str] *)

(** The text [repr] writes for one code point of a string quoted with
    [quote]. *)
Definition repr_cp (quote c : N) : pystr :=
  if (c =? quote) || (c =? 92) then [92; c]
  else if c =? 9 then [92; 116]
  else if c =? 10 then [92; 110]
  else if c =? 13 then [92; 114]
  else if (c <? 32) || (c =? 127) then
    [92; 120; hex_digit (c / 16 mod 16); hex_digit (c mod 16)]
  else if c <? 127 then [c]
  else if isprintable c then [c]
  else if c <=? 255 then
    [92; 120; hex_digit (c / 16 mod 16); hex_digit (c mod 16)]
  else if c <=? 65535 then escape_u c
  else
    [92; 85; hex_digit (c / 268435456 mod 16); hex_digit (c / 16777216 mod 16);
     hex_digit (c / 1048576 mod 16); hex_digit (c / 65536 mod 16);
     hex_digit (c / 4096 mod 16); hex_digit (c / 256 mod 16);
     hex_digit (c / 16 mod 16); hex_digit (c mod 16)].

(** [repr(s)] for a [str]: single quotes, unless the string holds a single
    quote and no double quote. *)
Definition repr_quote (s : pystr) : N :=
  if bool_decide (39 ∈ s) && negb (bool_decide (34 ∈ s)) then 34 else 39.

Definition str_repr (s : pystr) : pystr :=
  let quote := repr_quote s in
  quote :: (s ≫= repr_cp quote) ++ [quote].

(** [float.__repr__], the three values that are not finite included. *)
Definition float_repr_all (f : float) : pystr :=
  if negb (PrimFloat.eqb f f) then u "nan"
  else if PrimFloat.eqb f infinity then u "inf"
  else if PrimFloat.eqb f neg_infinity then u "-inf"
  else float_repr f.

(** [repr(v)]. *)
Fixpoint py_repr (v : json) : pystr :=
  match v with
  | JNull => u "None"
  | JBool true => u "True"
  | JBool false => u "False"
  | JInt n => int_repr n
  | JFloat f => float_repr_all f
  | JStr s => str_repr s
  | JArr items => 91 :: join (u ", ") (map py_repr items) ++ [93]
  | JObj fields =>
      123 :: join (u ", ")
               (map (λ kv, str_repr (fst kv) ++ [58; 32] ++ py_repr (snd kv))
                  fields)
      ++ [125]
  end.

(** [str(v)]: a string is itself, anything else is its [repr]. *)
Definition py_str (v : json) : pystr :=
  match v with
  | JStr s => s
  | _ => py_repr v
  end.

(** [hostname.lower()]: only a [str] has the method. *)
Definition py_lower (v : json) : M pystr :=
  match v with
  | JStr s => mret (str_lower s)
  | _ => raise AttributeError
  end.

(** [with p.open("r", encoding="utf-8") as f: data = json.load(f)]. *)
Definition open_json_load (p : pystr) : M json :=
  λ w, match w_fs w p with
       | NoEntry => (Raise (FileNotFoundError p), w)
       | Directory => (Raise IsADirectoryError, w)
       | RegularFile None => (Raise UnicodeDecodeError, w)
       | RegularFile (Some text) =>
           match json_loads text with
           | Some data => (Ret data, w)
           | None => (Raise JSONDecodeError, w)
           end
       end.

(** *** The program *)

(** The body of the loop of [load_index] (lines 59 to 65): what one
    [row] does to the index. *)
Definition index_row (index : nat) (row : json) : M unit :=
  hostname ← py_get row (u "hostname");
  if negb (truthy hostname) then mret tt
  else
    key ← py_lower hostname;
    dict_setitem index key row.

(** [load_index(json_path)]; the result is a reference to the new index. *)
Definition load_index (json_path : pystr) : M nat :=
  let p := json_path in
  found ← path_exists p;
  if negb found then raise (FileNotFoundError (u "JSON file not found: " ++ p))
  else
    data ← open_json_load p;
    match data with
    | JArr rows =>
        index ← dict_new;
        for_each rows (index_row index);;
        mret index
    | _ => raise (ValueError (u "Expected a list of server objects in the JSON."))
    end.

(** [lookup(index, hostname)]. *)
Definition lookup (index : nat) (hostname : pystr) : M json :=
  let key := str_lower hostname in
  present ← dict_contains index key;
  if negb present then raise (KeyError (u "Hostname not found: " ++ hostname))
  else dict_getitem index key.

(** [args.host] when it is given and not empty; [None] when
    [not args.host] holds. *)
Definition host_given (h : option pystr) : option pystr :=
  match h with
  | Some (c :: s) => Some (c :: s)
  | _ => None
  end.

(** The listing of [main] (lines 120 and 121). *)
Definition list_hostnames (index : nat) : M unit :=
  names ← dict_sorted index;
  for_each names (λ name,
    row ← dict_getitem index name;
    h ← py_getitem row (u "hostname");
    print (py_str h)).

(** [main()], after [args = ap.parse_args()]. *)
Definition main (args : cli_args) : M unit :=
  index ← load_index (arg_json args);
  match host_given (arg_host args) with
  | None => list_hostnames index
  | Some host =>
      info ← try_except_KeyError (lookup index host)
                (λ arg, print (str_repr arg);; raise (SystemExit 1));
      print (json_dumps 2 info)
  end.

(** A run of the program from the command line: the exit status and the
    world it leaves. *)
Definition run_cli (args : cli_args) (w : world) : Z * world :=
  let '(o, w') := main args w in (exit_status o, w').

(** *** The vocabulary of the specification *)

(** The [hostname] of a record: the string its [hostname] field holds. *)
Definition record_hostname (row : json) : option pystr :=
  match row with
  | JObj fields =>
      match dict_get (u "hostname") fields with
      | Some (JStr h) => Some h
      | _ => None
      end
  | _ => None
  end.

(** The lowercased hostname of a record. *)
Definition record_key (row : json) : option pystr :=
  str_lower <$> record_hostname row.

(** What the loop of [load_index] does with one row: it passes over it,
    stores it under a key, or stops with an [AttributeError]. *)
Inductive row_action : Type :=
| Skip
| Insert (key : pystr)
| Fail.

(** The action on [row]: lines 59 to 65 of the source, read on the row
    alone. *)
Definition action_of (row : json) : row_action :=
  match row with
  | JObj fields =>
      match default JNull (dict_get (u "hostname") fields) with
      | JStr [] => Skip
      | JStr h => Insert (str_lower h)
      | v => if truthy v then Fail else Skip
      end
  | _ => Fail
  end.

(** The loop of [load_index] on the content of the index alone. *)
Fixpoint build_index (rows : list json) (m : gmap pystr json)
  : outcome unit * gmap pystr json :=
  match rows with
  | [] => (Ret tt, m)
  | row :: rows' =>
      match action_of row with
      | Skip => build_index rows' m
      | Insert k => build_index rows' (<[k:=row]> m)
      | Fail => (Raise AttributeError, m)
      end
  end.

(** [rec] is the last element of [rows] whose lowercased hostname is [k]. *)
Definition last_with_key (rows : list json) (k : pystr) (rec : json) : Prop :=
  ∃ l1 l2, rows = l1 ++ rec :: l2 ∧ record_key rec = Some k
           ∧ ∀ r, r ∈ l2 → record_key r ≠ Some k.

(** The index has exactly one entry for each distinct lowercased hostname
    of [rows], and the entry of a key is the last element with that key. *)
Definition indexes (rows : list json) (idx : gmap pystr json) : Prop :=
  (map_to_list idx).*1 ≡ₚ remove_dups (omap record_key rows)
  ∧ ∀ k rec, idx !! k = Some rec ↔ last_with_key rows k rec.

(** A row [load_index] passes over: an object whose [hostname] is absent
    or the empty string. *)
Definition no_hostname (row : json) : Prop :=
  ∃ fields, row = JObj fields
            ∧ (dict_get (u "hostname") fields = None
               ∨ dict_get (u "hostname") fields = Some (JStr [])).

(** A row [load_index] stops at: not an object, or an object whose
    [hostname] is true in a condition and not a string. *)
Definition bad_row (row : json) : Prop :=
  match row with
  | JObj fields =>
      match dict_get (u "hostname") fields with
      | Some (JStr _) | None => False
      | Some v => truthy v = true
      end
  | _ => True
  end.

(** A name [repr] writes as it is: no backslash, no character that is not
    printable, and not both kinds of quote. *)
Definition repr_verbatim (s : pystr) : Prop :=
  Forall (λ c, c ≠ 92 ∧ 32 ≤ c ∧ c ≠ 127 ∧ (127 < c → isprintable c = true)) s
  ∧ ¬ (39 ∈ s ∧ 34 ∈ s).

(** The line the listing prints for a key: the [hostname] of its record. *)
Definition hostname_line (idx : gmap pystr json) (k : pystr) : option pystr :=
  idx !! k ≫= record_hostname.

(** Ascending order of the keys, each key once. *)
Definition ascending (keys : list pystr) : Prop :=
  StronglySorted (λ a b, str_ltb a b = true) keys.

(** The world with another dictionary at reference [r]. *)
Definition set_dict (w : world) (r : nat) (m : gmap pystr json) : world :=
  World (w_fs w) (w_stdout w) (<[r:=m]> (w_heap w)).

(** The world with [lines] printed after what was written before: each
    of them and a line feed. *)
Definition printed (w : world) (lines : list pystr) : world :=
  World (w_fs w) (w_stdout w ++ (lines ≫= λ s, s ++ [10])) (w_heap w).

(** The lines [print] writes, one after the other, up to the first one the
    standard output cannot encode. *)
Fixpoint printable_prefix (lines : list pystr) : list pystr :=
  match lines with
  | [] => []
  | line :: rest =>
      if encodable line then line :: printable_prefix rest else []
  end.

(** The lines of a text: what stands before each of its line feeds. *)
Fixpoint text_lines (t : pystr) : list pystr :=
  match t with
  | [] => []
  | c :: t' =>
      if c =? 10 then [] :: text_lines t'
      else match text_lines t' with
           | [] => [[c]]
           | line :: rest => (c :: line) :: rest
           end
  end.

(** A code point of a text decoded from UTF-8: a Unicode scalar value, that
    is, below 0x110000 and no surrogate. *)
Definition unicode_scalar (c : N) : Prop :=
  c < 1114112 ∧ ¬ (55296 ≤ c ∧ c ≤ 57343).

#[global] Instance unicode_scalar_dec c : Decision (unicode_scalar c).
Proof. unfold unicode_scalar. apply _. Defined.

(** No high surrogate stands directly before a low surrogate. *)
Fixpoint no_surrogate_pair (s : pystr) : Prop :=
  match s with
  | c :: s' =>
      match s' with
      | c' :: _ => ¬ (is_high_surrogate c = true ∧ is_low_surrogate c' = true)
      | [] => True
      end
      ∧ no_surrogate_pair s'
  | [] => True
  end.

(** A string [json.loads] can give: code points below 0x110000, and a
    surrogate pair of the text is one code point. *)
Definition str_ok (s : pystr) : Prop :=
  Forall (λ c, c < 1114112) s ∧ no_surrogate_pair s.

(** A value [json.loads] can give: its strings are as above and no object
    has a key twice. *)
Fixpoint json_ok (v : json) : Prop :=
  match v with
  | JStr s => str_ok s
  | JArr items =>
      (fix all (l : list json) : Prop :=
         match l with
         | [] => True
         | x :: l' => json_ok x ∧ all l'
         end) items
  | JObj fields =>
      NoDup fields.*1
      ∧ (fix all (l : list (pystr * json)) : Prop :=
           match l with
           | [] => True
           | kv :: l' => str_ok (fst kv) ∧ json_ok (snd kv) ∧ all l'
           end) fields
  | _ => True
  end.

(** The text is a JSON number with a fraction or an exponent. *)
Definition float_literal (t : pystr) : bool :=
  match match_number t with
  | Some (_, f, e, []) =>
      match f, e with
      | [], [] => false
      | _, _ => true
      end
  | _ => false
  end.

(** The float is finite: [floatstr] writes its [repr]. *)
Definition finite (f : float) : bool :=
  PrimFloat.eqb f f && negb (PrimFloat.eqb f infinity)
  && negb (PrimFloat.eqb f neg_infinity).

(** The [repr] of a finite float reads back as the float: it is a JSON
    number with a fraction or an exponent, and [float] of it is the float. *)
Definition float_reads_back (f : float) : Prop :=
  finite f = true →
  float_literal (float_repr f) = true ∧ parse_float (float_repr f) = f.

(** Every float in the value reads back. *)
Fixpoint floats_read_back (v : json) : Prop :=
  match v with
  | JFloat f => float_reads_back f
  | JArr items =>
      (fix all (l : list json) : Prop :=
         match l with
         | [] => True
         | x :: l' => floats_read_back x ∧ all l'
         end) items
  | JObj fields =>
      (fix all (l : list (pystr * json)) : Prop :=
         match l with
         | [] => True
         | kv :: l' => floats_read_back (snd kv) ∧ all l'
         end) fields
  | _ => True
  end.

(** *** The vocabulary of the further properties *)

(** The key [load_index] stores a row under: the lowercased [hostname],
    when the [hostname] is a string and not empty. *)
Definition index_key (row : json) : option pystr :=
  match record_hostname row with
  | Some (c :: h) => Some (str_lower (c :: h))
  | _ => None
  end.

(** [rec] is the last element of [rows] that [load_index] stores under
    [k]. *)
Definition last_stored (rows : list json) (k : pystr) (rec : json) : Prop :=
  ∃ l1 l2, rows = l1 ++ rec :: l2 ∧ index_key rec = Some k
           ∧ ∀ r, r ∈ l2 → index_key r ≠ Some k.

(** An object whose [hostname], or the [None] that [get] gives when there
    is none, is false in a condition. *)
Definition falsy_hostname (row : json) : Prop :=
  ∃ fields, row = JObj fields
            ∧ truthy (default JNull (dict_get (u "hostname") fields)) = false.

(** A character of a text that is safe on every terminal: printable ASCII
    or a line feed. *)
Definition plain_char (c : N) : Prop := c = 10 ∨ (32 ≤ c ∧ c ≤ 126).

#[global] Instance plain_char_dec c : Decision (plain_char c).
Proof. unfold plain_char. apply _. Defined.

(** *** The vocabulary of the round trip proofs *)

(** What follows a lone high surrogate escape: no escape of a low
    surrogate, and no broken [\u] escape. *)
Definition no_low_escape (r : pystr) : Prop :=
  match r with
  | b1 :: r3 =>
      b1 = 92 →
      match r3 with
      | u1 :: r4 =>
          u1 = 117 →
          match r4 with
          | l1 :: l2 :: l3 :: l4 :: _ =>
              ∃ uni2, hex4 l1 l2 l3 l4 = Some uni2
                      ∧ is_low_surrogate uni2 = false
          | _ => False
          end
      | [] => False
      end
  | [] => False
  end.

(** The four shapes of [escape_cp]. *)
Inductive escape_shape (c : N) : pystr → Prop :=
| escape_plain : c ≠ 34 → c ≠ 92 → 32 ≤ c → c ≤ 126 → escape_shape c [c]
| escape_short e : e ≠ 117 → backslash e = Some c → escape_shape c [92; e]
| escape_bmp : c < 65536 → escape_shape c (escape_u c)
| escape_pair hi lo :
    hi < 65536 → lo < 65536 →
    is_high_surrogate hi = true → is_low_surrogate lo = true →
    65536 + N.lor (N.shiftl (hi - 55296) 10) (lo - 56320) = c →
    escape_shape c (escape_u hi ++ escape_u lo).

(** What follows a value in the text [json.dumps] writes: nothing, a comma
    or a line feed. *)
Definition delimited (rest : pystr) : Prop :=
  match rest with
  | [] => True
  | c :: _ => c = 44 ∨ c = 10
  end.

(** The text of one item of an object. *)
Definition encode_item (enc : json → pystr) (kv : pystr * json) : pystr :=
  encode_basestring_ascii (fst kv) ++ [58; 32] ++ enc (snd kv).

(** The text starts with the escape of the low surrogate [c]. *)
Definition low_escape (c : N) (s : pystr) : Prop :=
  ∃ l1 l2 l3 l4 r,
    s = 92 :: 117 :: l1 :: l2 :: l3 :: l4 :: r ∧ hex4 l1 l2 l3 l4 = Some c.

(** What a scan of [s] gives: a string [json.loads] can give, that starts
    with a low surrogate only when [s] starts with its escape, and a rest
    that is the end of [s]. *)
Definition scan_ok (s out rest : pystr) : Prop :=
  str_ok out
  ∧ match out with
    | c :: _ => is_low_surrogate c = true → low_escape c s
    | [] => True
    end
  ∧ suffix rest s.

(** A scan of one value on a text decoded from UTF-8 gives a value
    [json.loads] can give and the end of the text. *)
Definition value_ok (value : pystr → option (json * pystr)) : Prop :=
  ∀ s v r, Forall unicode_scalar s → value s = Some (v, r) →
           json_ok v ∧ suffix r s.

(** ** Lemmas on the runtime *)

(** Tactics that look at the whole context run without the variables of
    the section. *)
Ltac forget_interpreter :=
  try clear stdout_encodes; try clear isprintable; try clear str_lower;
  try clear parse_float; try clear float_repr.
Ltac prop_tauto := forget_interpreter; tauto.
Ltac div_lia :=
  forget_interpreter; zify; Z.to_euclidean_division_equations; lia.


Lemma str_ltb_irrefl a : str_ltb a a = false.
Proof.
  induction a as [|x a IH]; [done|]. simpl.
  rewrite N.ltb_irrefl, N.eqb_refl. done.
Qed.

Lemma str_ltb_trans a b c :
  str_ltb a b = true → str_ltb b c = true → str_ltb a c = true.
Proof.
  revert b c. induction a as [|x a IH]; intros [|y b] [|z c]; simpl; try done.
  intros H1 H2.
  apply orb_true_iff in H1 as [H1|[H1 H1']%andb_true_iff];
    apply orb_true_iff in H2 as [H2|[H2 H2']%andb_true_iff];
    apply orb_true_iff.
  - left. apply N.ltb_lt in H1, H2. apply N.ltb_lt. lia.
  - left. apply N.ltb_lt in H1. apply N.eqb_eq in H2. apply N.ltb_lt. lia.
  - left. apply N.ltb_lt in H2. apply N.eqb_eq in H1. apply N.ltb_lt. lia.
  - right. apply N.eqb_eq in H1, H2. subst.
    rewrite N.eqb_refl. simpl. by eapply IH.
Qed.

Lemma str_ltb_total a b :
  str_ltb a b = false → str_ltb b a = false → a = b.
Proof.
  revert b. induction a as [|x a IH]; intros [|y b]; simpl; try done.
  intros [H1 H2]%orb_false_iff [H3 H4]%orb_false_iff.
  apply N.ltb_ge in H1, H3. assert (x = y) as -> by lia.
  rewrite N.eqb_refl in H2, H4. simpl in *. f_equal. by apply IH.
Qed.

Lemma str_ltb_asym a b : str_ltb a b = true → str_ltb b a = false.
Proof.
  intros H. destruct (str_ltb b a) eqn:E; [|done].
  pose proof (str_ltb_trans _ _ _ H E) as Hc.
  by rewrite str_ltb_irrefl in Hc.
Qed.

#[local] Instance str_le_total : Total str_le.
Proof.
  intros a b. unfold str_le.
  destruct (str_ltb b a) eqn:E; [right|by left].
  by apply str_ltb_asym.
Qed.

#[local] Instance str_le_trans : Transitive str_le.
Proof.
  intros a b c. unfold str_le. intros H1 H2.
  destruct (str_ltb c a) eqn:E; [|done].
  destruct (str_ltb c b) eqn:E2.
  - congruence.
  - destruct (str_ltb b c) eqn:E3.
    + pose proof (str_ltb_trans _ _ _ E3 E). congruence.
    + assert (b = c) as -> by by apply str_ltb_total. congruence.
Qed.

#[local] Instance str_le_antisym : AntiSymm (=) str_le.
Proof. intros a b H1 H2. by apply str_ltb_total. Qed.

(** Sorted without repetition is strictly ascending. *)
Lemma sorted_strict (l : list pystr) :
  StronglySorted str_le l → NoDup l →
  StronglySorted (λ a b, str_ltb a b = true) l.
Proof.
  induction 1 as [|x l Hs IH Hx]; intros Hnd; constructor.
  - apply IH. by apply NoDup_cons in Hnd as [_ ?].
  - apply NoDup_cons in Hnd as [Hnot _].
    rewrite Forall_forall in Hx |- *. intros y Hy.
    specialize (Hx y Hy). unfold str_le in Hx.
    destruct (str_ltb x y) eqn:E; [done|].
    assert (x = y) by by apply str_ltb_total. by subst.
Qed.

Lemma alter_heap (heap : list (gmap pystr json)) r m f :
  heap !! r = Some m → alter f r heap = <[r:=f m]> heap.
Proof.
  intros H. apply list_eq. intros i.
  destruct (decide (i = r)) as [->|Hne].
  - rewrite list_lookup_alter, H. simpl. rewrite decide_True by done.
    rewrite list_lookup_insert_eq; [done|]. by eapply lookup_lt_Some.
  - rewrite list_lookup_alter_ne, list_lookup_insert_ne by done. done.
Qed.

Lemma deref_set_dict w r m :
  (r < length (w_heap w))%nat → deref (set_dict w r m) r = m.
Proof.
  intros H. unfold deref, set_dict. simpl.
  by rewrite list_lookup_insert_eq.
Qed.

Lemma set_dict_set_dict w r m m' :
  set_dict (set_dict w r m) r m' = set_dict w r m'.
Proof. unfold set_dict. simpl. by rewrite list_insert_insert_eq. Qed.

(** One row of the loop, on the world. *)
Lemma index_row_run r row w m :
  w_heap w !! r = Some m →
  index_row r row w =
    match action_of row with
    | Skip => (Ret tt, w)
    | Insert k => (Ret tt, set_dict w r (<[k:=row]> m))
    | Fail => (Raise AttributeError, w)
    end.
Proof.
  intros Hm. unfold index_row, action_of.
  destruct row as [| | | | |items|fields]; try reflexivity.
  unfold py_get, mbind, M_bind, mret, M_ret.
  destruct (default JNull (dict_get (u "hostname") fields))
    as [|[]|n|f|[|c h]|[|x l]|[|x l]] eqn:E; simpl; try reflexivity.
  - destruct (n =? 0)%Z; reflexivity.
  - destruct (PrimFloat.eqb f 0); reflexivity.
  - unfold dict_setitem, set_dict. by rewrite (alter_heap _ _ m).
Qed.

(** The whole loop, on the world. *)
Lemma index_rows_run r rows w m :
  w_heap w !! r = Some m →
  for_each rows (index_row r) w =
    ((build_index rows m).1, set_dict w r (build_index rows m).2).
Proof.
  revert w m. induction rows as [|row rows IH]; intros w m Hm.
  - simpl. unfold mret, M_ret, set_dict. f_equal.
    rewrite list_insert_id by done. by destruct w.
  - simpl. unfold mbind, M_bind. rewrite (index_row_run _ _ _ m Hm).
    assert (r < length (w_heap w))%nat as Hr by by eapply lookup_lt_Some.
    destruct (action_of row) as [|k|].
    + by apply IH.
    + rewrite (IH _ (<[k:=row]> m)).
      * by rewrite set_dict_set_dict.
      * unfold set_dict. simpl. by rewrite list_lookup_insert_eq.
    + simpl. unfold set_dict. rewrite list_insert_id by done. by destruct w.
Qed.

(** [load_index], case by case. *)
Lemma load_index_run p w :
  load_index p w =
    match w_fs w p with
    | NoEntry => (Raise (FileNotFoundError (u "JSON file not found: " ++ p)), w)
    | Directory => (Raise IsADirectoryError, w)
    | RegularFile None => (Raise UnicodeDecodeError, w)
    | RegularFile (Some text) =>
        match json_loads text with
        | None => (Raise JSONDecodeError, w)
        | Some (JArr rows) =>
            let r := length (w_heap w) in
            let w0 := World (w_fs w) (w_stdout w) (w_heap w ++ [∅]) in
            match (build_index rows ∅).1 with
            | Ret _ => (Ret r, set_dict w0 r (build_index rows ∅).2)
            | Raise e => (Raise e, set_dict w0 r (build_index rows ∅).2)
            end
        | Some _ =>
            (Raise (ValueError (u "Expected a list of server objects in the JSON.")), w)
        end
    end.
Proof.
  unfold load_index, path_exists, open_json_load, mbind, M_bind.
  destruct (w_fs w p) as [| |[text|]] eqn:Efs; simpl; rewrite ?Efs;
    try reflexivity.
  destruct (json_loads text) as [[| | | | |rows|]|]; try reflexivity.
  unfold dict_new. simpl.
  rewrite (index_rows_run _ rows _ ∅).
  - simpl. by destruct (build_index rows ∅).1.
  - simpl. by rewrite lookup_app_r, Nat.sub_diag.
Qed.

(** The index a successful [load_index] leaves. *)
Lemma load_index_ok p w index w' :
  load_index p w = (Ret index, w') →
  ∃ text rows,
    w_fs w p = RegularFile (Some text) ∧ json_loads text = Some (JArr rows)
    ∧ (build_index rows ∅).1 = Ret tt
    ∧ index = length (w_heap w)
    ∧ w' = World (w_fs w) (w_stdout w) (w_heap w ++ [(build_index rows ∅).2]).
Proof.
  rewrite load_index_run. intros H.
  destruct (w_fs w p) as [| |[text|]] eqn:Efs; try discriminate.
  destruct (json_loads text) as [[| | | | |rows|]|] eqn:Ej; try discriminate.
  simpl in H. destruct (build_index rows ∅).1 as [[]|] eqn:E; [|discriminate].
  injection H as <- <-. exists text, rows. split_and!; try done.
  unfold set_dict. simpl. f_equal.
  rewrite insert_app_r_alt, Nat.sub_diag by done. done.
Qed.

Lemma deref_new_dict (fs : pystr → fs_node) (out : pystr)
    (heap : list (gmap pystr json)) (m : gmap pystr json) :
  deref (World fs out (heap ++ [m])) (length heap) = m.
Proof. unfold deref. simpl. by rewrite lookup_app_r, Nat.sub_diag. Qed.

Lemma action_insert_key row k :
  action_of row = Insert k →
  ∃ fields h, row = JObj fields ∧ dict_get (u "hostname") fields = Some (JStr h)
              ∧ h ≠ [] ∧ k = str_lower h.
Proof.
  unfold action_of. destruct row as [| | | | | |fields]; try discriminate.
  destruct (dict_get (u "hostname") fields) as [v|] eqn:E; simpl; [|discriminate].
  destruct v as [|[]|n|f|[|c h]|[|x l]|[|x l]]; simpl; try discriminate.
  - destruct (n =? 0)%Z; discriminate.
  - destruct (PrimFloat.eqb f 0); discriminate.
  - intros [= <-]. by exists fields, (c :: h).
Qed.

Lemma action_of_hostname fields h :
  dict_get (u "hostname") fields = Some (JStr h) → h ≠ [] →
  action_of (JObj fields) = Insert (str_lower h).
Proof. intros E Hh. unfold action_of. rewrite E. simpl. by destruct h. Qed.

(** The entries of the index the loop builds: the last row stored under a
    key, or the entry that was there when no row has the key. *)
Lemma build_index_lookup rows m k rec :
  (build_index rows m).1 = Ret tt →
  (build_index rows m).2 !! k = Some rec ↔
    (∃ l1 l2, rows = l1 ++ rec :: l2 ∧ action_of rec = Insert k
              ∧ ∀ r, r ∈ l2 → action_of r ≠ Insert k)
    ∨ (m !! k = Some rec ∧ ∀ r, r ∈ rows → action_of r ≠ Insert k).
Proof.
  revert m. induction rows as [|row rows IH]; intros m Hok; simpl in *.
  - split.
    + intros H. right. split; [done|]. by intros r Hr%elem_of_nil.
    + intros [(l1 & l2 & H & _)|[H _]]; [|done]. by destruct l1.
  - destruct (action_of row) as [|k'|] eqn:Ea; [| |done].
    + rewrite IH by done. split.
      * intros [(l1 & l2 & -> & Hk & Hl2)|[Hm Hall]].
        -- left. by exists (row :: l1), l2.
        -- right. split; [done|]. intros r [->|Hr]%elem_of_cons; [congruence|eauto].
      * intros [(l1 & l2 & Heq & Hk & Hl2)|[Hm Hall]].
        -- destruct l1 as [|x l1]; simplify_eq/=; [congruence|].
           left. by exists l1, l2.
        -- right. split; [done|]. intros r Hr. apply Hall. by right.
    + rewrite IH by done. split.
      * intros [(l1 & l2 & -> & Hk & Hl2)|[Hm Hall]].
        -- left. by exists (row :: l1), l2.
        -- destruct (decide (k' = k)) as [->|Hne].
           ++ rewrite lookup_insert_eq in Hm. simplify_eq.
              left. by exists [], rows.
           ++ rewrite lookup_insert_ne in Hm by done.
              right. split; [done|].
              intros r [->|Hr]%elem_of_cons; [congruence|eauto].
      * intros [(l1 & l2 & Heq & Hk & Hl2)|[Hm Hall]].
        -- destruct l1 as [|x l1]; simplify_eq/=.
           ++ right. split; [|done]. assert (k' = k) as -> by congruence.
              by rewrite lookup_insert_eq.
           ++ left. by exists l1, l2.
        -- assert (k' ≠ k) as Hne.
           { intros ->. by eapply (Hall row); [left|]. }
           right. rewrite lookup_insert_ne by done. split; [done|].
           intros r Hr. apply Hall. by right.
Qed.

Lemma bad_row_action row : bad_row row ↔ action_of row = Fail.
Proof.
  unfold bad_row, action_of. destruct row as [| | | | | |fields]; try done.
  destruct (dict_get (u "hostname") fields) as [v|]; simpl; [|done].
  destruct v as [|[]|n|f|[|c h]|[|x l]|[|x l]]; simpl; try done.
  - by destruct (n =? 0)%Z.
  - by destruct (PrimFloat.eqb f 0).
Qed.

Lemma no_hostname_action row : no_hostname row → action_of row = Skip.
Proof. intros (fields & -> & [E|E]); unfold action_of; by rewrite E. Qed.

Lemma build_index_ok rows m :
  (∀ r, r ∈ rows → action_of r ≠ Fail) → (build_index rows m).1 = Ret tt.
Proof.
  revert m. induction rows as [|row rows IH]; intros m H; simpl; [done|].
  assert (∀ r, r ∈ rows → action_of r ≠ Fail) by (intros; apply H; by right).
  destruct (action_of row) eqn:E; [by apply IH..|].
  exfalso. by eapply (H row); [left|].
Qed.

Lemma build_index_fail rows m :
  (∃ r, r ∈ rows ∧ action_of r = Fail) →
  (build_index rows m).1 = Raise AttributeError.
Proof.
  revert m. induction rows as [|row rows IH]; intros m (r & Hr & Hf); simpl.
  - by apply elem_of_nil in Hr.
  - destruct (action_of row) eqn:E; [| |done];
      (apply IH; apply elem_of_cons in Hr as [->|Hr]; [congruence|eauto]).
Qed.

Lemma build_index_skip l1 row l2 m :
  action_of row = Skip →
  build_index (l1 ++ row :: l2) m = build_index (l1 ++ l2) m.
Proof.
  intros Hs. revert m. induction l1 as [|x l1 IH]; intros m; simpl.
  - by rewrite Hs.
  - by destruct (action_of x).
Qed.

Lemma last_with_key_exists rows k :
  (∃ row, row ∈ rows ∧ record_key row = Some k) →
  ∃ rec, last_with_key rows k rec.
Proof.
  induction rows as [|x rows IH]; intros (row & Hrow & Hk).
  - by apply elem_of_nil in Hrow.
  - destruct (decide (Exists (λ r, record_key r = Some k) rows)) as [He|Hno].
    + apply Exists_exists in He. destruct (IH He) as (rec & l1 & l2 & -> & ? & ?).
      by exists rec, (x :: l1), l2.
    + rewrite Exists_exists in Hno.
      apply elem_of_cons in Hrow as [Heq|Hrow];
        [|exfalso; apply Hno; by exists row].
      subst x. exists row, [], rows. split_and!; [done..|].
      intros r Hr Hkr. apply Hno. by exists r.
Qed.

(** Every record in the index [load_index] returns has a [hostname]. *)
Lemma load_index_entry_hostname p w index w' k rec :
  load_index p w = (Ret index, w') →
  deref w' index !! k = Some rec →
  is_Some (record_hostname rec).
Proof.
  intros (text & rows & _ & _ & Hok & -> & ->)%load_index_ok.
  rewrite deref_new_dict, build_index_lookup by done.
  intros [(l1 & l2 & _ & Hk & _)|[Hm _]]; [|by rewrite lookup_empty in Hm].
  apply action_insert_key in Hk as (fields & h & -> & E & _).
  unfold record_hostname. rewrite E. by exists h.
Qed.

(** ** The index builder *)

(** C5.  Index invariant: in every index [load_index] returns, each key is
    the lowercased [hostname] of the record stored under it. *)
Theorem load_index_key_invariant p w index w' k rec :
  load_index p w = (Ret index, w') →
  deref w' index !! k = Some rec →
  record_key rec = Some k.
Proof.
  intros (text & rows & _ & _ & Hok & -> & ->)%load_index_ok.
  rewrite deref_new_dict, build_index_lookup by done.
  intros [(l1 & l2 & _ & Hk & _)|[Hm _]]; [|by rewrite lookup_empty in Hm].
  apply action_insert_key in Hk as (fields & h & -> & E & _ & ->).
  unfold record_key, record_hostname. by rewrite E.
Qed.

(** C1, amended.  For a JSON array of records that each have a non-empty
    string [hostname], [load_index] returns an index with exactly one entry
    for each distinct lowercased hostname, and the record under a key is the
    last element of the array whose lowercased hostname is that key. *)
Theorem load_index_last_wins p w text rows :
  w_fs w p = RegularFile (Some text) →
  json_loads text = Some (JArr rows) →
  (∀ row, row ∈ rows → ∃ h, record_hostname row = Some h ∧ h ≠ []) →
  ∃ w', load_index p w = (Ret (length (w_heap w)), w')
        ∧ indexes rows (deref w' (length (w_heap w))).
Proof.
  intros Hfs Hj Hrows.
  assert (∀ row, row ∈ rows → ∀ k,
            action_of row = Insert k ↔ record_key row = Some k) as Hact.
  { intros row (h & Hh & Hne)%Hrows k.
    unfold record_key. rewrite Hh. simpl.
    unfold record_hostname in Hh. destruct row as [| | | | | |fields]; try done.
    destruct (dict_get (u "hostname") fields) as [[| | | |h'| |]|] eqn:E; try done.
    simplify_eq. rewrite (action_of_hostname _ _ E Hne).
    split; intros [= <-]; done. }
  assert ((build_index rows ∅).1 = Ret tt) as Hok.
  { apply build_index_ok. intros row Hrow Hf.
    destruct (Hrows row Hrow) as (h & Hh & Hne).
    pose proof (proj2 (Hact row Hrow (str_lower h))) as Hi.
    rewrite Hf in Hi. unfold record_key in Hi. rewrite Hh in Hi.
    by specialize (Hi eq_refl). }
  rewrite load_index_run, Hfs, Hj. simpl. rewrite Hok.
  eexists. split; [done|].
  rewrite deref_set_dict by (simpl; rewrite length_app; simpl; lia).
  assert (∀ k rec, (build_index rows ∅).2 !! k = Some rec
                   ↔ last_with_key rows k rec) as Hlast.
  { intros k rec. rewrite build_index_lookup by done. unfold last_with_key.
    split.
    - intros [(l1 & l2 & -> & Hk & Hl2)|[Hm _]]; [|by rewrite lookup_empty in Hm].
      exists l1, l2. split; [done|]. split.
      + apply Hact; [|done]. apply elem_of_app. right. by left.
      + intros r Hr Hkey. apply (Hl2 r Hr). apply Hact; [|done].
        apply elem_of_app. right. by right.
    - intros (l1 & l2 & -> & Hk & Hl2). left. exists l1, l2.
      split; [done|]. split.
      + apply Hact; [|done]. apply elem_of_app. right. by left.
      + intros r Hr Hkey. apply (Hl2 r Hr). apply Hact; [|done].
        apply elem_of_app. right. by right. }
  split; [|done].
  apply NoDup_Permutation.
  - apply NoDup_fst_map_to_list.
  - apply NoDup_remove_dups.
  - intros k. rewrite elem_of_remove_dups, list_elem_of_omap.
    split.
    + intros ((k' & rec) & -> & Hin%elem_of_map_to_list)%list_elem_of_fmap.
      simpl. apply Hlast in Hin as (l1 & l2 & -> & Hk & _).
      exists rec. split; [|done]. apply elem_of_app. right. by left.
    + intros (row & Hrow & Hk).
      destruct (last_with_key_exists rows k) as [rec Hrec]; [by exists row|].
      apply Hlast in Hrec. apply list_elem_of_fmap.
      exists (k, rec). split; [done|]. by apply elem_of_map_to_list.
Qed.

(** C6.  An element whose [hostname] is absent or empty is passed over in
    silence: the run of [load_index] on the array with the element ends as
    the run on the array without it, with the same index content; and no
    such element is a value of an index [load_index] returns. *)
Theorem load_index_skips_no_hostname p p0 w w0 text text0 l1 row l2 :
  no_hostname row →
  w_fs w p = RegularFile (Some text) →
  json_loads text = Some (JArr (l1 ++ row :: l2)) →
  w_fs w0 p0 = RegularFile (Some text0) →
  json_loads text0 = Some (JArr (l1 ++ l2)) →
  w_heap w0 = w_heap w →
  (load_index p w).1 = (load_index p0 w0).1
  ∧ w_heap (load_index p w).2 = w_heap (load_index p0 w0).2
  ∧ ∀ index w' k rec,
      load_index p w = (Ret index, w') →
      deref w' index !! k = Some rec → ¬ no_hostname rec.
Proof.
  intros Hskip%no_hostname_action Hfs Hj Hfs0 Hj0 Hheap.
  rewrite !load_index_run, Hfs, Hj, Hfs0, Hj0. simpl.
  rewrite (build_index_skip _ _ _ _ Hskip), Hheap.
  split_and!.
  - by destruct (build_index (l1 ++ l2) ∅).1.
  - by destruct (build_index (l1 ++ l2) ∅).1.
  - intros index w' k rec Hrun Hrec Hno%no_hostname_action.
    rewrite <- (build_index_skip _ _ _ _ Hskip) in Hrun.
    assert (load_index p w = (Ret index, w')) as Hload.
    { rewrite load_index_run, Hfs, Hj. done. }
    apply load_index_ok in Hload as (? & rows & _ & _ & Hok & -> & ->).
    rewrite deref_new_dict, build_index_lookup in Hrec by done.
    destruct Hrec as [(? & ? & _ & Hk & _)|[Hm _]]; [congruence|].
    by rewrite lookup_empty in Hm.
Qed.

(** C10.  Only the top-level shape is validated: when the array holds an
    element that is not an object, or an object whose [hostname] is true in
    a condition and not a string, [load_index] ends with an
    [AttributeError], which is not a [ValueError]; the element is not passed
    over and no malformed input is reported. *)
Theorem load_index_bad_row p w text rows :
  w_fs w p = RegularFile (Some text) →
  json_loads text = Some (JArr rows) →
  (∃ row, row ∈ rows ∧ bad_row row) →
  (load_index p w).1 = Raise AttributeError
  ∧ is_ValueError AttributeError = false.
Proof.
  intros Hfs Hj (row & Hrow & Hbad%bad_row_action).
  rewrite load_index_run, Hfs, Hj. simpl.
  rewrite (build_index_fail rows ∅) by eauto. done.
Qed.

(** C7.  [load_index] ends with a [FileNotFoundError] when the path names
    nothing, and with a [ValueError] (the [JSONDecodeError] and the
    [UnicodeDecodeError] of [json.load] are each one) when the content of
    the file is not JSON or its top-level value is not a list; [main] does
    not catch either, so the process exits with a status that is not zero. *)
Theorem load_index_failures args w :
  (w_fs w (arg_json args) = NoEntry →
   (∃ msg, load_index (arg_json args) w = (Raise (FileNotFoundError msg), w))
   ∧ (run_cli args w).1 ≠ 0%Z)
  ∧ (∀ text, w_fs w (arg_json args) = RegularFile (Some text) →
       (json_loads text = None ∨
        ∃ data, json_loads text = Some data ∧ ∀ rows, data ≠ JArr rows) →
       (∃ e, load_index (arg_json args) w = (Raise e, w)
             ∧ is_ValueError e = true)
       ∧ (run_cli args w).1 ≠ 0%Z)
  ∧ (w_fs w (arg_json args) = RegularFile None →
       (∃ e, load_index (arg_json args) w = (Raise e, w)
             ∧ is_ValueError e = true)
       ∧ (run_cli args w).1 ≠ 0%Z).
Proof.
  assert (∀ e, load_index (arg_json args) w = (Raise e, w) →
               exit_status (A:=unit) (Raise e) = 1%Z →
               (run_cli args w).1 ≠ 0%Z) as Hexit.
  { intros e He Hx. unfold run_cli, main, mbind, M_bind. rewrite He.
    by rewrite Hx. }
  split_and!.
  - intros Hfs.
    assert (load_index (arg_json args) w
            = (Raise (FileNotFoundError
                        (u "JSON file not found: " ++ arg_json args)), w)) as He.
    { rewrite load_index_run, Hfs. done. }
    split; [by eexists|]. by eapply Hexit.
  - intros text Hfs Hbad.
    assert (∃ e, load_index (arg_json args) w = (Raise e, w)
                 ∧ is_ValueError e = true
                 ∧ exit_status (A:=unit) (Raise e) = 1%Z) as (e & He & Hv & Hx).
    { rewrite load_index_run, Hfs.
      destruct Hbad as [->|(data & -> & Hdata)]; [by eexists|].
      destruct data; try by eexists. by destruct (Hdata items). }
    split; [by exists e|]. by eapply Hexit.
  - intros Hfs.
    assert (load_index (arg_json args) w = (Raise UnicodeDecodeError, w)) as He.
    { rewrite load_index_run, Hfs. done. }
    split; [by eexists|]. by eapply Hexit.
Qed.

(** ** Lookup and the command line *)

Lemma lookup_run index hostname w :
  lookup index hostname w =
    match deref w index !! str_lower hostname with
    | Some rec => (Ret rec, w)
    | None => (Raise (KeyError (u "Hostname not found: " ++ hostname)), w)
    end.
Proof.
  unfold lookup, dict_contains, dict_getitem, mbind, M_bind.
  destruct (deref w index !! str_lower hostname) as [rec|] eqn:E.
  - rewrite bool_decide_true by eauto. simpl. by rewrite E.
  - rewrite bool_decide_false; [done|]. by intros [? ?].
Qed.

Lemma printed_printed w l1 l2 : printed (printed w l1) l2 = printed w (l1 ++ l2).
Proof. unfold printed. simpl. by rewrite bind_app, app_assoc. Qed.

Lemma printed_nil w : printed w [] = w.
Proof. unfold printed. simpl. rewrite app_nil_r. by destruct w. Qed.

(** [print], case by case. *)
Lemma print_run s w :
  print s w = if encodable s then (Ret tt, printed w [s])
              else (Raise UnicodeEncodeError, w).
Proof. unfold print, printed. simpl. by rewrite app_nil_r. Qed.

Lemma print_frame s w :
  w_heap (print s w).2 = w_heap w ∧ w_fs (print s w).2 = w_fs w.
Proof. unfold print. by destruct (encodable s). Qed.

Lemma forallb_elem_of {A} (f : A → bool) (l : list A) :
  forallb f l = true ↔ ∀ x, x ∈ l → f x = true.
Proof. rewrite forallb_forall. by setoid_rewrite list_elem_of_In. Qed.

Lemma printable_prefix_all lines :
  forallb encodable lines = true → printable_prefix lines = lines.
Proof.
  induction lines as [|line lines IH]; simpl; [done|].
  intros [-> H]%andb_true_iff. by rewrite IH.
Qed.

(** One turn of the listing loop, for a key whose record has a [hostname]. *)
Lemma listing_turn_run index k line w :
  hostname_line (deref w index) k = Some line →
  (row ← dict_getitem index k;
   h ← py_getitem row (u "hostname");
   print (py_str h)) w = print line w.
Proof.
  unfold hostname_line, mbind, M_bind, dict_getitem. intros Hk.
  destruct (deref w index !! k) as [rec|]; [|done]. simpl in Hk.
  unfold record_hostname in Hk. destruct rec as [| | | | | |fields]; try done.
  simpl. destruct (dict_get (u "hostname") fields) as [[| | | |h| |]|]; try done.
  by simplify_eq.
Qed.

(** The listing loop over keys that all have a record with a [hostname]:
    it prints the lines up to the first one the standard output cannot
    encode, and stops there with a [UnicodeEncodeError]. *)
Lemma listing_loop_run index keys lines w :
  Forall2 (λ k line, hostname_line (deref w index) k = Some line) keys lines →
  for_each keys (λ name,
    row ← dict_getitem index name;
    h ← py_getitem row (u "hostname");
    print (py_str h)) w
  = (if forallb encodable lines then Ret tt else Raise UnicodeEncodeError,
     printed w (printable_prefix lines)).
Proof.
  revert lines w. induction keys as [|k keys IH]; intros lines w H.
  - apply Forall2_nil_inv_l in H as ->. simpl. by rewrite printed_nil.
  - apply Forall2_cons_inv_l in H as (line & lines' & Hk & Hrest & ->).
    simpl. unfold mbind at 1, M_bind at 1.
    rewrite (listing_turn_run _ _ line) by done. rewrite print_run.
    destruct (encodable line); simpl; [|by rewrite printed_nil].
    rewrite (IH lines' (printed w [line])) by done.
    by rewrite printed_printed.
Qed.

(** [main] after a successful [load_index]. *)
Lemma main_run args w index w1 :
  load_index (arg_json args) w = (Ret index, w1) →
  main args w =
    match host_given (arg_host args) with
    | None => list_hostnames index w1
    | Some host =>
        match deref w1 index !! str_lower host with
        | Some rec => print (json_dumps 2 rec) w1
        | None =>
            (print (str_repr (u "Hostname not found: " ++ host));;
             raise (A:=unit) (SystemExit 1)) w1
        end
    end.
Proof.
  intros Hload. unfold main, mbind at 1, M_bind at 1. rewrite Hload.
  destruct (host_given (arg_host args)) as [host|]; [|done].
  unfold mbind at 1, M_bind at 1, try_except_KeyError. rewrite lookup_run.
  destruct (deref w1 index !! str_lower host); [done|].
  unfold mbind, M_bind.
  by destruct (print (str_repr (u "Hostname not found: " ++ host)) w1)
    as [[[]|e] w2].
Qed.

(** The end of [main] for a name that is not in the index: the line when the
    standard output can encode it, and status 1 in either case. *)
Lemma miss_run line w :
  exit_status (A:=unit) ((print line;; raise (A:=unit) (SystemExit 1)) w).1 = 1%Z
  ∧ (encodable line = true →
     (print line;; raise (A:=unit) (SystemExit 1)) w
     = (Raise (SystemExit 1), printed w [line]))
  ∧ (encodable line = false →
     (print line;; raise (A:=unit) (SystemExit 1)) w = (Raise UnicodeEncodeError, w)).
Proof.
  unfold mbind, M_bind. rewrite print_run.
  destruct (encodable line); split_and!; done.
Qed.

Lemma ascending_sorted l : ascending l → StronglySorted str_le l.
Proof.
  induction 1 as [|a l Hl IH Ha]; constructor; [done|].
  eapply Forall_impl; [exact Ha|]. intros b Hb. unfold str_le.
  by apply str_ltb_asym.
Qed.

Lemma sorted_keys_spec (idx : gmap pystr json) :
  let keys := merge_sort str_le (map_to_list idx).*1 in
  keys ≡ₚ (map_to_list idx).*1 ∧ ascending keys
  ∧ ∀ l, l ≡ₚ (map_to_list idx).*1 → ascending l → l = keys.
Proof.
  intros keys.
  assert (keys ≡ₚ (map_to_list idx).*1) as Hp by apply merge_sort_Permutation.
  assert (NoDup keys) as Hnd.
  { rewrite Hp. apply NoDup_fst_map_to_list. }
  assert (StronglySorted str_le keys) as Hs
    by apply (StronglySorted_merge_sort str_le).
  split_and!; [done|by apply sorted_strict|].
  intros l Hl Hasc.
  apply (StronglySorted_unique str_le); [| |by rewrite Hl, Hp].
  - by apply ascending_sorted.
  - done.
Qed.

Lemma lines_exist (idx : gmap pystr json) keys :
  (∀ k, k ∈ keys → is_Some (hostname_line idx k)) →
  ∃ lines, Forall2 (λ k line, hostname_line idx k = Some line) keys lines.
Proof.
  induction keys as [|k keys IH]; intros H.
  - by exists [].
  - destruct (H k) as [line Hline]; [by left|].
    destruct IH as [lines Hlines]; [intros; apply H; by right|].
    exists (line :: lines). by constructor.
Qed.

Lemma for_each_frame {A} (l : list A) (body : A → M unit) w :
  (∀ x w, w_heap (body x w).2 = w_heap w ∧ w_fs (body x w).2 = w_fs w) →
  w_heap (for_each l body w).2 = w_heap w ∧ w_fs (for_each l body w).2 = w_fs w.
Proof.
  intros Hbody. revert w. induction l as [|x l IH]; intros w; [done|].
  simpl. unfold mbind, M_bind.
  destruct (Hbody x w) as [Hh Hf].
  destruct (body x w) as [[[]|e] w'] eqn:E; simpl in *; [|done].
  destruct (IH w') as [Hh' Hf']. by rewrite Hh', Hf'.
Qed.

Lemma list_hostnames_frame index w :
  w_heap (list_hostnames index w).2 = w_heap w
  ∧ w_fs (list_hostnames index w).2 = w_fs w.
Proof.
  unfold list_hostnames, dict_sorted. unfold mbind at 1, M_bind at 1.
  apply for_each_frame. clear. intros k w.
  unfold mbind, M_bind, dict_getitem.
  destruct (deref w index !! k) as [row|]; [|done].
  destruct row as [| | | | | |fields]; try done. simpl.
  destruct (dict_get (u "hostname") fields); [|done]. apply print_frame.
Qed.

Lemma bind_singleton (f : N → pystr) (s : pystr) :
  (∀ x, x ∈ s → f x = [x]) → s ≫= f = s.
Proof.
  induction s as [|x s IH]; intros H; [done|].
  simpl. rewrite H by by left. simpl. f_equal. apply IH.
  intros y Hy. apply H. by right.
Qed.

(** [repr] writes a string of characters it leaves as they are between two
    quotes. *)
Lemma str_repr_verbatim s :
  Forall (λ c, c ≠ 92 ∧ 32 ≤ c ∧ c ≠ 127 ∧ (127 < c → isprintable c = true)) s →
  ¬ (39 ∈ s ∧ 34 ∈ s) →
  str_repr s = repr_quote s :: s ++ [repr_quote s].
Proof.
  intros Hall Hq. unfold str_repr. simpl. do 2 f_equal.
  apply bind_singleton. intros x Hx.
  rewrite Forall_forall in Hall. destruct (Hall x Hx) as (Hb & Hlo & Hdel & Hpr).
  assert (x ≠ repr_quote s) as Hnq.
  { unfold repr_quote. intros ->.
    destruct (bool_decide (39 ∈ s)) eqn:E1;
      destruct (bool_decide (34 ∈ s)) eqn:E2; simpl in *;
      try apply bool_decide_eq_true in E1;
      try apply bool_decide_eq_true in E2;
      try apply bool_decide_eq_false in E1;
      try apply bool_decide_eq_false in E2; prop_tauto. }
  unfold repr_cp.
  rewrite (proj2 (N.eqb_neq x (repr_quote s))) by done.
  rewrite (proj2 (N.eqb_neq x 92)) by done. simpl.
  destruct (x =? 9) eqn:E9; [apply N.eqb_eq in E9; lia|].
  destruct (x =? 10) eqn:E10; [apply N.eqb_eq in E10; lia|].
  destruct (x =? 13) eqn:E13; [apply N.eqb_eq in E13; lia|].
  rewrite (proj2 (N.ltb_ge x 32)) by done.
  rewrite (proj2 (N.eqb_neq x 127)) by done. simpl.
  destruct (x <? 127) eqn:E127; [done|].
  apply N.ltb_ge in E127. rewrite Hpr by lia. done.
Qed.

(** The characters of the message in front of the name, and its quotes. *)
Lemma message_chars x :
  x ∈ u "Hostname not found: " →
  x ≠ 39 ∧ x ≠ 34 ∧ x ≠ 92 ∧ 32 ≤ x ∧ x < 127.
Proof.
  intros Hx. vm_compute in Hx. set_unfold in Hx.
  destruct_or!; subst; (split_and!; done).
Qed.

(** The line for a name [repr] leaves as it is: the message with the name
    between double quotes when the name holds a single quote, and between
    single quotes otherwise. *)
Lemma str_repr_message host :
  repr_verbatim host →
  let msg := u "Hostname not found: " ++ host in
  let q := if bool_decide (39 ∈ host) then 34 else 39 in
  str_repr msg = q :: msg ++ [q].
Proof.
  intros [Hall Hq] msg q.
  assert (39 ∈ msg ↔ 39 ∈ host) as H39.
  { unfold msg. rewrite elem_of_app. split; [|by right].
    intros [Hx%message_chars|?]; [|done]. by destruct Hx as (? & _). }
  assert (34 ∈ msg ↔ 34 ∈ host) as H34.
  { unfold msg. rewrite elem_of_app. split; [|by right].
    intros [Hx%message_chars|?]; [|done]. by destruct Hx as (_ & ? & _). }
  rewrite str_repr_verbatim.
  - assert (repr_quote msg = q) as ->; [|done].
    unfold repr_quote, q. rewrite (bool_decide_ext _ _ H39).
    rewrite (bool_decide_ext _ _ H34).
    destruct (bool_decide (39 ∈ host)) eqn:E1; [|done].
    apply bool_decide_eq_true in E1.
    rewrite bool_decide_false; [done|]. intros ?. by apply Hq.
  - apply Forall_app. split; [|done]. apply Forall_forall.
    intros x (_ & _ & ? & ? & ?)%message_chars.
    split_and!; [done|done|lia|lia].
  - rewrite H39, H34. done.
Qed.

(** ** Lemmas on the standard output *)

Lemma ascii_can_encode c : c < 128 → stdout_can_encode c = true.
Proof.
  intros H. unfold stdout_can_encode.
  by rewrite (proj2 (N.ltb_lt c 128) H).
Qed.

Lemma plain_encodable s : Forall plain_char s → encodable s = true.
Proof.
  induction 1 as [|c s Hc _ IH]; [done|].
  unfold encodable in *. simpl. rewrite IH, andb_true_r.
  apply ascii_can_encode. destruct Hc as [->|[_ ?]]; lia.
Qed.

Lemma encodable_app a b : encodable (a ++ b) = encodable a && encodable b.
Proof. apply forallb_app. Qed.

Lemma encodable_quoted q s :
  q = 39 ∨ q = 34 → encodable s = true → encodable (q :: s ++ [q]) = true.
Proof.
  intros Hq Hs.
  assert (stdout_can_encode q = true) as Hcq
    by (apply ascii_can_encode; destruct Hq as [->| ->]; lia).
  change (q :: s ++ [q]) with ([q] ++ s ++ [q]).
  rewrite !encodable_app, Hs. unfold encodable. simpl. by rewrite Hcq.
Qed.

Lemma encodable_message host :
  encodable host = true →
  encodable (u "Hostname not found: " ++ host) = true.
Proof.
  intros H. rewrite encodable_app, H, andb_true_r.
  apply plain_encodable, Forall_forall.
  intros x (_ & _ & _ & ? & ?)%message_chars. right. lia.
Qed.

Lemma hex_digit_ascii x : x < 16 → hex_digit x < 128.
Proof.
  intros H. unfold hex_digit.
  destruct (x <? 10) eqn:E; [apply N.ltb_lt in E|apply N.ltb_ge in E]; lia.
Qed.

(** [repr] writes a code point as it is, or as ASCII. *)
Lemma repr_cp_encodable q c :
  stdout_can_encode q = true → stdout_can_encode c = true →
  encodable (repr_cp q c) = true.
Proof.
  intros Hq Hc.
  assert (∀ x, stdout_can_encode (hex_digit (x mod 16)) = true) as Hhex.
  { intros x. apply ascii_can_encode, hex_digit_ascii.
    by apply N.mod_upper_bound. }
  assert (stdout_can_encode 92 = true) as H92 by by apply ascii_can_encode.
  assert (stdout_can_encode 120 = true) as H120 by by apply ascii_can_encode.
  unfold repr_cp, escape_u, encodable.
  repeat match goal with
         | |- context [if ?b then _ else _] => destruct b
         end; simpl; rewrite ?Hhex, ?Hc, ?H92, ?H120; done.
Qed.

Lemma bind_repr_cp_encodable q s :
  stdout_can_encode q = true → encodable s = true →
  encodable (s ≫= repr_cp q) = true.
Proof.
  intros Hq. induction s as [|c s IH]; [done|].
  unfold encodable at 1. simpl. intros [Hc Hs]%andb_true_iff.
  change (encodable (repr_cp q c ++ (s ≫= repr_cp q)) = true).
  rewrite encodable_app, repr_cp_encodable by done. by apply IH.
Qed.

Lemma str_repr_encodable s :
  encodable s = true → encodable (str_repr s) = true.
Proof.
  intros Hs. unfold str_repr.
  assert (repr_quote s = 39 ∨ repr_quote s = 34) as Hq.
  { unfold repr_quote.
    destruct (bool_decide (39 ∈ s) && negb (bool_decide (34 ∈ s))); auto. }
  apply encodable_quoted; [done|].
  apply bind_repr_cp_encodable; [|done].
  apply ascii_can_encode. destruct Hq as [->| ->]; lia.
Qed.

Lemma text_lines_line line t :
  10 ∉ line → text_lines (line ++ 10 :: t) = line :: text_lines t.
Proof.
  induction line as [|c line IH]; intros H; [done|].
  apply not_elem_of_cons in H as [Hc Hl]. simpl.
  rewrite (proj2 (N.eqb_neq c 10)) by done. by rewrite IH.
Qed.

(** The lines of the text of lines without line feed are the lines. *)
Lemma text_lines_printed (lines : list pystr) :
  Forall (λ line, 10 ∉ line) lines →
  text_lines (lines ≫= λ s, s ++ [10]) = lines.
Proof.
  induction 1 as [|line lines Hl _ IH]; [done|].
  csimpl. rewrite <- app_assoc. cbn [app]. by rewrite text_lines_line, IH.
Qed.

(** C2.  Lookup is case-insensitive: two names that agree after lowercasing
    get the same record, and a name gets a record exactly when its
    lowercased form is a key of the index; the record is the one stored
    under that key. *)
Theorem lookup_case_insensitive index h1 h2 w :
  str_lower h1 = str_lower h2 →
  (∀ rec, lookup index h1 w = (Ret rec, w) ↔ lookup index h2 w = (Ret rec, w))
  ∧ (∀ rec, lookup index h1 w = (Ret rec, w)
            ↔ deref w index !! str_lower h1 = Some rec)
  ∧ ((∃ rec, (lookup index h1 w).1 = Ret rec)
     ↔ str_lower h1 ∈ dom (deref w index)).
Proof.
  intros Heq. rewrite !lookup_run, <- Heq, elem_of_dom.
  destruct (deref w index !! str_lower h1) as [rec0|]; split_and!.
  - done.
  - intros rec. split; [by intros [= ->]|by intros [= ->]].
  - split; [eauto|]. intros _. by exists rec0.
  - intros rec. split; intros [=].
  - intros rec. split; intros [=].
  - split; [by intros [rec [=]]|]. by intros [? [=]].
Qed.

(** C4, amended.  Without [--host], and when the standard output can
    encode the [hostname] of every record of the index, the program prints,
    for every entry of the index once, the [hostname] of the record as it is
    written in the record, in ascending order of the keys, and exits with
    status 0; when no [hostname] holds a line feed, the text it writes has
    one line for each of them.  The order is that of the keys alone: no
    other ascending arrangement of the keys of the index exists, whatever
    the order of the input was. *)
Theorem main_lists_sorted_hostnames args w index w1 :
  arg_host args = None →
  load_index (arg_json args) w = (Ret index, w1) →
  let idx := deref w1 index in
  ∃ keys lines,
    keys ≡ₚ (map_to_list idx).*1
    ∧ ascending keys
    ∧ (∀ l, l ≡ₚ (map_to_list idx).*1 → ascending l → l = keys)
    ∧ Forall2 (λ k line, hostname_line idx k = Some line) keys lines
    ∧ (forallb encodable lines = true →
       run_cli args w = (0%Z, printed w1 lines)
       ∧ (Forall (λ line, 10 ∉ line) lines →
          ∃ out, w_stdout (run_cli args w).2 = w_stdout w1 ++ out
                 ∧ text_lines out = lines)).
Proof.
  intros Hhost Hload idx.
  destruct (sorted_keys_spec idx) as (Hp & Hasc & Huniq).
  set (keys := merge_sort str_le (map_to_list idx).*1) in *.
  destruct (lines_exist idx keys) as [lines Hlines].
  { intros k Hk. rewrite Hp in Hk.
    apply list_elem_of_fmap in Hk as ((k' & rec) & -> & Hin%elem_of_map_to_list).
    simpl. unfold hostname_line. rewrite Hin. simpl.
    by apply (load_index_entry_hostname _ _ _ _ _ _ Hload Hin). }
  exists keys, lines. split_and!; try done.
  intros Henc.
  assert (run_cli args w = (0%Z, printed w1 lines)) as Hrun.
  { unfold run_cli. rewrite (main_run _ _ _ _ Hload), Hhost. simpl.
    unfold list_hostnames, dict_sorted. unfold mbind at 1, M_bind at 1.
    fold idx. fold keys. rewrite (listing_loop_run _ _ lines) by done.
    by rewrite Henc, printable_prefix_all. }
  split; [done|]. intros Hlf. rewrite Hrun. eexists. split; [done|].
  by apply text_lines_printed.
Qed.

(** C9.  Neither [lookup], found or not, nor the listing changes the index
    or any other dictionary, nor the file system; after [load_index] the
    rest of [main] leaves the dictionaries as [load_index] left them; and
    [load_index] itself leaves the file system, the standard output and the
    dictionaries that existed before as they were. *)
Theorem index_is_not_mutated :
  (∀ index hostname w, (lookup index hostname w).2 = w)
  ∧ (∀ index w,
       w_heap (list_hostnames index w).2 = w_heap w
       ∧ w_fs (list_hostnames index w).2 = w_fs w)
  ∧ (∀ args w index w1,
       load_index (arg_json args) w = (Ret index, w1) →
       w_heap (main args w).2 = w_heap w1 ∧ w_fs (main args w).2 = w_fs w1)
  ∧ (∀ p w,
       w_fs (load_index p w).2 = w_fs w
       ∧ w_stdout (load_index p w).2 = w_stdout w
       ∧ take (length (w_heap w)) (w_heap (load_index p w).2) = w_heap w).
Proof.
  split_and!.
  - intros index hostname w. rewrite lookup_run.
    by destruct (deref w index !! str_lower hostname).
  - apply list_hostnames_frame.
  - intros args w index w1 Hload. rewrite (main_run _ _ _ _ Hload).
    destruct (host_given (arg_host args)) as [host|].
    + destruct (deref w1 index !! str_lower host) as [rec|];
        [apply print_frame|].
      unfold mbind, M_bind.
      pose proof (print_frame (str_repr (u "Hostname not found: " ++ host)) w1)
        as Hframe.
      by destruct (print (str_repr (u "Hostname not found: " ++ host)) w1)
        as [[[]|e] w2].
    + apply list_hostnames_frame.
  - intros p w. rewrite load_index_run.
    destruct (w_fs w p) as [| |[text|]]; simpl; rewrite ?firstn_all; try done.
    destruct (json_loads text) as [[| | | | |rows|]|]; simpl;
      rewrite ?firstn_all; try done.
    assert (take (length (w_heap w))
              (<[length (w_heap w):=(build_index rows ∅).2]> (w_heap w ++ [∅]))
            = w_heap w) as Htake.
    { rewrite insert_app_r_alt, Nat.sub_diag by done. simpl.
      by rewrite take_app_length. }
    by destruct (build_index rows ∅).1.
Qed.

(** ** The round trip through [json.dumps] and [json.loads] *)

(** Induction on a value, with the hypothesis for the items of an array and
    the values of an object. *)
Lemma json_ind' (P : json → Prop) :
  P JNull → (∀ b, P (JBool b)) → (∀ n, P (JInt n)) → (∀ f, P (JFloat f)) →
  (∀ s, P (JStr s)) →
  (∀ items, Forall P items → P (JArr items)) →
  (∀ fields, Forall (λ kv, P kv.2) fields → P (JObj fields)) →
  ∀ v, P v.
Proof.
  intros Hnull Hbool Hint Hfloat Hstr Harr Hobj.
  fix IH 1. intros [|b|n|f|s|items|fields].
  - exact Hnull.
  - apply Hbool.
  - apply Hint.
  - apply Hfloat.
  - apply Hstr.
  - apply Harr. induction items as [|x items IHl]; constructor.
    + apply IH.
    + exact IHl.
  - apply Hobj. induction fields as [|[k x] fields IHl]; constructor.
    + apply IH.
    + exact IHl.
Qed.

Lemma json_ok_arr items : json_ok (JArr items) ↔ Forall json_ok items.
Proof.
  simpl. induction items as [|x items IH]; [by split; [constructor|]|].
  rewrite Forall_cons, <- IH. done.
Qed.

Lemma json_ok_obj fields :
  json_ok (JObj fields)
  ↔ NoDup fields.*1 ∧ Forall (λ kv, str_ok kv.1 ∧ json_ok kv.2) fields.
Proof.
  simpl. apply and_iff_compat_l.
  induction fields as [|kv fields IH]; [by split; [constructor|]|].
  rewrite Forall_cons, <- IH. prop_tauto.
Qed.

Lemma floats_read_back_arr items :
  floats_read_back (JArr items) ↔ Forall floats_read_back items.
Proof.
  simpl. induction items as [|x items IH]; [by split; [constructor|]|].
  rewrite Forall_cons, <- IH. done.
Qed.

Lemma floats_read_back_obj fields :
  floats_read_back (JObj fields)
  ↔ Forall (λ kv, floats_read_back kv.2) fields.
Proof.
  simpl. induction fields as [|kv fields IH]; [by split; [constructor|]|].
  rewrite Forall_cons, <- IH. done.
Qed.

Lemma hex_val_digit d : d < 16 → hex_val (hex_digit d) = Some d.
Proof.
  intros H.
  assert (d = 0 ∨ d = 1 ∨ d = 2 ∨ d = 3 ∨ d = 4 ∨ d = 5 ∨ d = 6 ∨ d = 7
          ∨ d = 8 ∨ d = 9 ∨ d = 10 ∨ d = 11 ∨ d = 12 ∨ d = 13 ∨ d = 14
          ∨ d = 15) as Hd by lia.
  destruct_or!; subst; reflexivity.
Qed.

(** The four digits [escape_u] writes read back as the number. *)
Lemma hex4_escape n :
  n < 65536 →
  hex4 (hex_digit (n / 4096 mod 16)) (hex_digit (n / 256 mod 16))
       (hex_digit (n / 16 mod 16)) (hex_digit (n mod 16)) = Some n.
Proof.
  intros H. unfold hex4.
  rewrite !hex_val_digit by (apply N.mod_lt; lia).
  f_equal. div_lia.
Qed.

(** The two halves of a code point above 0xFFFF and their join. *)
Lemma lor_low a b k : b < 2 ^ k → N.lor (a * 2 ^ k) b = a * 2 ^ k + b.
Proof.
  intros H.
  assert (N.land (a * 2 ^ k) b = 0) as Hland.
  { apply N.bits_inj. intros m. rewrite N.land_spec, N.bits_0.
    destruct (N.lt_ge_cases m k) as [Hm|Hm].
    - by rewrite N.mul_pow2_bits_low.
    - destruct (N.eq_dec b 0) as [->|Hb];
        [by rewrite N.bits_0, andb_false_r|].
      rewrite (N.bits_above_log2 b m), andb_false_r; [done|].
      apply N.log2_lt_pow2; [lia|]. eapply N.lt_le_trans; [exact H|].
      apply N.pow_le_mono_r; lia. }
  by rewrite N.add_nocarry_lxor, N.lxor_lor.
Qed.

Lemma surrogate_halves c :
  65536 ≤ c → c < 1114112 →
  let n := c - 65536 in
  let hi := N.lor 55296 (N.land (N.shiftr n 10) 1023) in
  let lo := N.lor 56320 (N.land n 1023) in
  is_high_surrogate hi = true ∧ is_low_surrogate lo = true
  ∧ 65536 + N.lor (N.shiftl (hi - 55296) 10) (lo - 56320) = c.
Proof.
  intros H1 H2 n hi lo.
  assert (n < 1048576) as Hn by (unfold n; lia).
  assert (hi = 55296 + n / 1024) as Hhi.
  { unfold hi. rewrite N.shiftr_div_pow2.
    change 1023 with (N.ones 10). rewrite N.land_ones.
    change 55296 with (54 * 2 ^ 10). rewrite lor_low by (apply N.mod_lt; lia).
    change (2 ^ 10) with 1024. div_lia. }
  assert (lo = 56320 + n mod 1024) as Hlo.
  { unfold lo. change 1023 with (N.ones 10). rewrite N.land_ones.
    change 56320 with (55 * 2 ^ 10). rewrite lor_low by (apply N.mod_lt; lia).
    done. }
  assert (n / 1024 < 1024) as Hq by div_lia.
  assert (n mod 1024 < 1024) as Hr by (apply N.mod_lt; lia).
  assert (c = 65536 + (n / 1024 * 1024 + n mod 1024)) as Hc
    by (unfold n; div_lia).
  rewrite Hhi, Hlo. clear Hhi Hlo hi lo.
  set (q := n / 1024) in *. set (r := n mod 1024) in *.
  clearbody q r. clear Hn. clearbody n.
  split_and!.
  - unfold is_high_surrogate.
    apply andb_true_iff. split; apply N.leb_le; lia.
  - unfold is_low_surrogate.
    apply andb_true_iff. split; apply N.leb_le; lia.
  - rewrite N.shiftl_mul_pow2.
    replace (55296 + q - 55296) with q by lia.
    replace (56320 + r - 56320) with r by lia.
    rewrite lor_low by done. change (2 ^ 10) with 1024. lia.
Qed.

(** *** [scanstring], one step at a time *)

Lemma scanstring_plain c r :
  c ≠ 34 → c ≠ 92 → 32 ≤ c →
  scanstring (c :: r) = scanned c (scanstring r).
Proof.
  intros H1 H2 H3. simpl.
  rewrite (proj2 (N.eqb_neq c 34)), (proj2 (N.eqb_neq c 92)) by done.
  by rewrite (proj2 (N.leb_gt c 31)) by lia.
Qed.

Lemma scanstring_short e c r :
  e ≠ 117 → backslash e = Some c →
  scanstring (92 :: e :: r) = scanned c (scanstring r).
Proof.
  intros H1 H2. simpl.
  by rewrite (proj2 (N.eqb_neq e 117)), H2 by done.
Qed.

Lemma scanstring_u h1 h2 h3 h4 uni r :
  hex4 h1 h2 h3 h4 = Some uni →
  (is_high_surrogate uni = true → no_low_escape r) →
  scanstring (92 :: 117 :: h1 :: h2 :: h3 :: h4 :: r)
  = scanned uni (scanstring r).
Proof.
  intros Hhex Hnext. simpl. rewrite Hhex.
  destruct (is_high_surrogate uni); [|done].
  specialize (Hnext eq_refl). unfold no_low_escape in Hnext.
  destruct r as [|b1 r3]; [done|].
  destruct (N.eqb_spec b1 92) as [->|]; [|done]. specialize (Hnext eq_refl).
  destruct r3 as [|u1 r4]; [done|].
  destruct (N.eqb_spec u1 117) as [->|]; [|done]. specialize (Hnext eq_refl).
  destruct r4 as [|l1 [|l2 [|l3 [|l4 r5]]]]; try done.
  destruct Hnext as (uni2 & -> & ->). done.
Qed.

Lemma scanstring_pair h1 h2 h3 h4 l1 l2 l3 l4 hi lo r :
  hex4 h1 h2 h3 h4 = Some hi → is_high_surrogate hi = true →
  hex4 l1 l2 l3 l4 = Some lo → is_low_surrogate lo = true →
  scanstring (92 :: 117 :: h1 :: h2 :: h3 :: h4
              :: 92 :: 117 :: l1 :: l2 :: l3 :: l4 :: r)
  = scanned (65536 + N.lor (N.shiftl (hi - 55296) 10) (lo - 56320))
      (scanstring r).
Proof.
  intros Hh Hhi Hl Hlo. simpl. by rewrite Hh, Hhi, Hl, Hlo.
Qed.

Lemma escape_cp_shape c : c < 1114112 → escape_shape c (escape_cp c).
Proof.
  intros Hc. unfold escape_cp.
  destruct (N.eqb_spec c 34) as [->|H34]; [by apply (escape_short 34 34)|].
  destruct (N.eqb_spec c 92) as [->|H92]; [by apply (escape_short 92 92)|].
  destruct (N.leb_spec 32 c) as [Hlo|Hlo];
    [destruct (N.leb_spec c 126) as [Hhi|Hhi]; [by apply escape_plain|]|]; simpl.
  all: destruct (N.eqb_spec c 8) as [->|H8]; [by apply (escape_short 8 98)|].
  all: destruct (N.eqb_spec c 12) as [->|H12]; [by apply (escape_short 12 102)|].
  all: destruct (N.eqb_spec c 10) as [->|H10]; [by apply (escape_short 10 110)|].
  all: destruct (N.eqb_spec c 13) as [->|H13]; [by apply (escape_short 13 114)|].
  all: destruct (N.eqb_spec c 9) as [->|H9]; [by apply (escape_short 9 116)|].
  all: destruct (N.ltb_spec c 65536) as [Hb|Hb]; [by apply escape_bmp|].
  all: destruct (surrogate_halves c Hb Hc) as (Hh & Hl & Hj).
  all: apply escape_pair; try done.
  all: unfold is_high_surrogate, is_low_surrogate in *.
  all: apply andb_true_iff in Hh as [_ Hh%N.leb_le].
  all: apply andb_true_iff in Hl as [_ Hl%N.leb_le]; lia.
Qed.

Lemma no_low_escape_encoded (s : pystr) rest :
  Forall (λ c, c < 1114112) s →
  match s with c :: _ => is_low_surrogate c = false | [] => True end →
  no_low_escape ((s ≫= escape_cp) ++ 34 :: rest).
Proof.
  intros Hs Hhead. destruct s as [|c s]; simpl; [done|].
  apply Forall_cons in Hs as [Hc _].
  destruct (escape_cp_shape c Hc) as [? ? ? ?|e He Hb|Hb|hi lo Hhi Hlo Hh Hl Hj];
    simpl.
  - done.
  - intros _ ?. done.
  - intros _ _. exists c. by rewrite hex4_escape.
  - intros _ _. exists hi. rewrite hex4_escape by done. split; [done|].
    unfold is_high_surrogate, is_low_surrogate in *.
    apply andb_true_iff in Hh as [_ Hh%N.leb_le].
    apply andb_false_iff. left. apply N.leb_gt. lia.
Qed.

(** [scanstring] reads the text of [encode_basestring_ascii] back. *)
Lemma scanstring_encoded (s : pystr) rest :
  str_ok s → scanstring ((s ≫= escape_cp) ++ 34 :: rest) = Some (s, rest).
Proof.
  intros [Hall Hpair]. induction s as [|c s IH]; [by simpl|].
  apply Forall_cons in Hall as [Hc Hall]. destruct Hpair as [Hnext Hpair].
  specialize (IH Hall Hpair).
  change ((c :: s) ≫= escape_cp) with (escape_cp c ++ (s ≫= escape_cp)).
  rewrite <- app_assoc.
  destruct (escape_cp_shape c Hc) as [? ? ? ?|e He Hb|Hb|hi lo Hhi Hlo Hh Hl Hj].
  - simpl app at 1. rewrite scanstring_plain, IH by done. done.
  - simpl app at 1. rewrite (scanstring_short e c), IH by done. done.
  - unfold escape_u at 1. simpl app at 1.
    rewrite (scanstring_u _ _ _ _ c), IH; [done|by apply hex4_escape|].
    intros Hhigh. apply no_low_escape_encoded; [done|].
    destruct s as [|c' s]; [done|].
    destruct (is_low_surrogate c'); [|done]. by destruct Hnext.
  - unfold escape_u. simpl app at 1.
    rewrite (scanstring_pair _ _ _ _ _ _ _ _ hi lo), IH, Hj;
      [done|by apply hex4_escape..|done| |done]; by apply hex4_escape.
Qed.

(** *** Numbers *)

Lemma span_digits_app s rest d r :
  span_digits s = (d, r) → delimited rest →
  span_digits (s ++ rest) = (d, r ++ rest).
Proof.
  intros Hs Hrest. revert d r Hs. induction s as [|c s IH]; intros d r Hs.
  - simpl in *. simplify_eq. destruct rest as [|c rest]; [done|].
    simpl. by destruct Hrest as [-> | ->].
  - simpl in *. destruct (is_digit c); [|by simplify_eq].
    destruct (span_digits s) as [d' r'] eqn:E. simplify_eq.
    by rewrite (IH d' r).
Qed.

Lemma match_integer_app s rest i r :
  match_integer s = Some (i, r) → delimited rest →
  match_integer (s ++ rest) = Some (i, r ++ rest).
Proof.
  intros Hs Hrest. unfold match_integer in *.
  destruct s as [|c s]; [done|]. cbn [app].
  destruct (c =? 45).
  - destruct s as [|c' s]; [done|]. cbn [app].
    destruct (c' =? 48); [by simplify_eq|].
    destruct (is_digit c'); [|done].
    destruct (span_digits s) as [d' r'] eqn:E. simplify_eq.
    by rewrite (span_digits_app _ _ _ _ E).
  - destruct (c =? 48); [by simplify_eq|].
    destruct (is_digit c); [|done].
    destruct (span_digits s) as [d' r'] eqn:E. simplify_eq.
    by rewrite (span_digits_app _ _ _ _ E).
Qed.

Lemma match_frac_app s rest f r :
  match_frac s = (f, r) → delimited rest →
  match_frac (s ++ rest) = (f, r ++ rest).
Proof.
  intros Hs Hrest. unfold match_frac in *.
  destruct s as [|c s].
  - simplify_eq. destruct rest as [|c rest]; [done|]. simpl.
    by destruct Hrest as [-> | ->].
  - cbn [app]. destruct (c =? 46); [|by simplify_eq].
    destruct (span_digits s) as [d' r'] eqn:E.
    rewrite (span_digits_app _ _ _ _ E) by done.
    destruct d'; by simplify_eq.
Qed.

Lemma match_exp_app s rest e r :
  match_exp s = (e, r) → delimited rest →
  match_exp (s ++ rest) = (e, r ++ rest).
Proof.
  intros Hs Hrest. unfold match_exp in *.
  destruct s as [|c s].
  - simplify_eq. destruct rest as [|c rest]; [done|]. simpl.
    by destruct Hrest as [-> | ->].
  - cbn [app]. destruct ((c =? 101) || (c =? 69)); [|by simplify_eq].
    destruct s as [|c1 s].
    + simpl in *. simplify_eq.
      destruct rest as [|c0 rest]; [done|].
      destruct Hrest as [-> | ->]; simpl; done.
    + cbn [app]. destruct ((c1 =? 45) || (c1 =? 43)).
      * destruct (span_digits s) as [d' r'] eqn:E.
        rewrite (span_digits_app _ _ _ _ E) by done.
        destruct d'; by simplify_eq.
      * destruct (span_digits (c1 :: s)) as [d' r'] eqn:E.
        change (c1 :: s ++ rest) with ((c1 :: s) ++ rest).
        rewrite (span_digits_app _ _ _ _ E) by done.
        destruct d'; by simplify_eq.
Qed.

Lemma match_number_app s rest i f e :
  match_number s = Some (i, f, e, []) → delimited rest →
  match_number (s ++ rest) = Some (i, f, e, rest).
Proof.
  intros Hs Hrest. unfold match_number in *.
  destruct (match_integer s) as [[i' r]|] eqn:Ei; [|done].
  rewrite (match_integer_app _ _ _ _ Ei) by done.
  destruct (match_frac r) as [f' r1] eqn:Ef.
  rewrite (match_frac_app _ _ _ _ Ef) by done.
  destruct (match_exp r1) as [e' r2] eqn:Ee.
  rewrite (match_exp_app _ _ _ _ Ee) by done.
  by simplify_eq.
Qed.

Lemma span_digits_concat s d r : span_digits s = (d, r) → s = d ++ r.
Proof.
  revert d r. induction s as [|c s IH]; intros d r Hs; simpl in *.
  - by simplify_eq.
  - destruct (is_digit c); [|by simplify_eq].
    destruct (span_digits s) as [d' r'] eqn:E. simplify_eq.
    simpl. f_equal. by apply IH.
Qed.

(** The groups of a number are the text they were matched on. *)
Lemma match_number_concat s i f e r :
  match_number s = Some (i, f, e, r) → s = i ++ f ++ e ++ r.
Proof.
  unfold match_number. intros Hs.
  destruct (match_integer s) as [[i' r0]|] eqn:Ei; [|done].
  destruct (match_frac r0) as [f' r1] eqn:Ef.
  destruct (match_exp r1) as [e' r2] eqn:Ee. simplify_eq.
  assert (s = i ++ r0) as ->.
  { unfold match_integer in Ei. destruct s as [|c s]; [done|].
    destruct (c =? 45) eqn:E45.
    - apply N.eqb_eq in E45 as ->. destruct s as [|c' s]; [done|].
      destruct (c' =? 48) eqn:E48; [apply N.eqb_eq in E48 as ->; by simplify_eq|].
      destruct (is_digit c'); [|done].
      destruct (span_digits s) as [d' r'] eqn:E. simplify_eq.
      simpl. by rewrite (span_digits_concat _ _ _ E).
    - destruct (c =? 48) eqn:E48; [apply N.eqb_eq in E48 as ->; by simplify_eq|].
      destruct (is_digit c); [|done].
      destruct (span_digits s) as [d' r'] eqn:E. simplify_eq.
      simpl. by rewrite (span_digits_concat _ _ _ E). }
  assert (r0 = f ++ r1) as ->.
  { unfold match_frac in Ef. destruct r0 as [|c s]; [by simplify_eq|].
    destruct (c =? 46) eqn:E46; [|by simplify_eq].
    apply N.eqb_eq in E46 as ->.
    destruct (span_digits s) as [d' r'] eqn:E.
    apply span_digits_concat in E as ->. destruct d'; by simplify_eq. }
  assert (r1 = e ++ r) as ->; [|done].
  unfold match_exp in Ee. destruct r1 as [|c s]; [by simplify_eq|].
  destruct ((c =? 101) || (c =? 69)); [|by simplify_eq].
  destruct s as [|c1 s]; [simpl in Ee; by simplify_eq|].
  destruct ((c1 =? 45) || (c1 =? 43)).
  - destruct (span_digits s) as [d' r'] eqn:E.
    apply span_digits_concat in E as ->. destruct d'; by simplify_eq.
  - destruct (span_digits (c1 :: s)) as [d' r'] eqn:E.
    apply span_digits_concat in E. destruct d'; simplify_eq; [done|].
    simpl. by rewrite E.
Qed.

Lemma uint_chars_digits d : Forall (λ c, is_digit c = true) (uint_chars d).
Proof. induction d; simpl; constructor; done. Qed.

Lemma chars_uint_chars d : chars_uint (uint_chars d) = d.
Proof. unfold chars_uint. induction d; simpl; [done|by f_equal..]. Qed.

Lemma span_digits_all (ds : pystr) :
  Forall (λ c, is_digit c = true) ds → span_digits ds = (ds, []).
Proof.
  induction 1 as [|c ds Hc _ IH]; [done|]. simpl. by rewrite Hc, IH.
Qed.

(** The digits of a positive number start with a digit that is not zero. *)
Lemma to_uint_head p :
  ∃ c t, uint_chars (Pos.to_uint p) = c :: t
         ∧ is_digit c = true ∧ c ≠ 48 ∧ c ≠ 45.
Proof.
  assert (Pos.to_uint p = unorm (Pos.to_uint p)) as Hnorm.
  { rewrite <- DecimalN.Unsigned.to_of.
    change (N.of_uint (Pos.to_uint p)) with (Pos.of_uint (Pos.to_uint p)).
    by rewrite DecimalPos.Unsigned.of_to. }
  pose proof (DecimalPos.Unsigned.to_uint_nonzero p) as Hnz.
  pose proof (nzhead_nonzero (Pos.to_uint p)) as Hhead.
  unfold unorm in Hnorm.
  destruct (nzhead (Pos.to_uint p)) as [|d|d|d|d|d|d|d|d|d|d] eqn:E;
    [by rewrite Hnorm in Hnz|by destruct (Hhead d)|..];
    rewrite Hnorm; simpl; eexists _, _; done.
Qed.

Lemma match_number_int_repr n :
  match_number (int_repr n) = Some (int_repr n, [], [], []).
Proof.
  unfold int_repr. destruct n as [|p|p]; simpl Z.to_int; [done|..];
    destruct (to_uint_head p) as (c & t & Ht & Hd & H48 & H45);
    pose proof (uint_chars_digits (Pos.to_uint p)) as Hall;
    rewrite Ht in *; apply Forall_cons in Hall as [_ Hall];
    unfold match_number, match_integer; simpl;
    rewrite ?(proj2 (N.eqb_neq c 45)), (proj2 (N.eqb_neq c 48)), Hd by done;
    by rewrite (span_digits_all t).
Qed.

Lemma parse_int_repr n : parse_int (int_repr n) = n.
Proof.
  rewrite <- (DecimalZ.of_to n) at 2. unfold int_repr, parse_int.
  destruct (Z.to_int n) as [d|d] eqn:E.
  - destruct n as [|p|p]; simpl in E; simplify_eq; [done| ].
    destruct (to_uint_head p) as (c & t & Ht & Hd & H48 & H45).
    rewrite Ht, (proj2 (N.eqb_neq c 45)), <- Ht by done.
    by rewrite chars_uint_chars.
  - simpl. by rewrite chars_uint_chars.
Qed.

Lemma match_number_head s i f e r :
  match_number s = Some (i, f, e, r) →
  ∃ c t, s = c :: t ∧ (c = 45 ∨ (48 ≤ c ∧ c ≤ 57)).
Proof.
  intros Hm. unfold match_number in Hm.
  destruct (match_integer s) as [[i' r0]|] eqn:Ei; [|done].
  unfold match_integer in Ei. destruct s as [|c t]; [done|].
  exists c, t. split; [done|].
  destruct (N.eqb_spec c 45); [by left|]. right.
  destruct (N.eqb_spec c 48); [lia|].
  unfold is_digit in Ei.
  destruct (N.leb_spec 48 c); [|done]. destruct (N.leb_spec c 57); [|done].
  lia.
Qed.

(** A number at the start of the text is what [scan_once] reads. *)
Lemma scan_once_number fuel s i f e r :
  match_number s = Some (i, f, e, r) →
  scan_once (S fuel) s =
    Some (match f, e with
          | [], [] => JInt (parse_int i)
          | _, _ => JFloat (parse_float (i ++ f ++ e))
          end, r).
Proof.
  intros Hm.
  destruct (match_number_head _ _ _ _ _ Hm) as (c & t & -> & Hc).
  cbn [scan_once].
  rewrite (proj2 (N.eqb_neq c 34)), (proj2 (N.eqb_neq c 123)),
    (proj2 (N.eqb_neq c 91)) by lia.
  change (u "null") with [110; 117; 108; 108].
  change (u "true") with [116; 114; 117; 101].
  change (u "false") with [102; 97; 108; 115; 101].
  cbn [strip_prefix].
  rewrite (proj2 (N.eqb_neq 110 c)), (proj2 (N.eqb_neq 116 c)),
    (proj2 (N.eqb_neq 102 c)) by lia.
  rewrite Hm. by destruct f, e.
Qed.

(** *** Arrays and objects *)

Lemma skip_ws_start c s : is_ws c = false → skip_ws (c :: s) = c :: s.
Proof. intros H. simpl. by rewrite H. Qed.

Lemma skip_ws_newline_indent indent level s :
  skip_ws (newline_indent indent level ++ s) = skip_ws s.
Proof.
  unfold newline_indent. simpl.
  induction (indent * level)%nat as [|k IH]; [done|]. simpl. done.
Qed.

Lemma delimited_newline_indent indent level s :
  delimited (newline_indent indent level ++ s).
Proof. simpl. by right. Qed.

Lemma length_join_elem sep chunks (x : pystr) :
  x ∈ chunks → (length x ≤ length (join sep chunks))%nat.
Proof.
  induction chunks as [|c [|c' cs] IH]; intros Hx.
  - by apply elem_of_nil in Hx.
  - apply list_elem_of_singleton in Hx as ->. done.
  - apply elem_of_cons in Hx as [->|Hx].
    + cbn [join]. rewrite length_app. lia.
    + specialize (IH Hx). cbn [join] in *. rewrite !length_app. lia.
Qed.

Lemma length_join_count sep (chunks : list pystr) :
  Forall (λ c, c ≠ []) chunks →
  (length chunks ≤ length (join sep chunks))%nat.
Proof.
  induction chunks as [|c [|c' cs] IH]; intros Hne; [done|..].
  - apply Forall_cons in Hne as [Hc _]. destruct c; [done|]. simpl. lia.
  - apply Forall_cons in Hne as [Hc Hne]. specialize (IH Hne).
    cbn [join] in *. rewrite !length_app. destruct c; [done|].
    simpl in *. lia.
Qed.

(** The loop of [JSONArray] on the text of the items of an array. *)
Lemma array_items_encoded (value : pystr → option (json * pystr))
    (enc : json → pystr) indent level level' items n rest :
  items ≠ [] →
  Forall (λ x, (∀ r, delimited r → value (enc x ++ r) = Some (x, r))
               ∧ ∃ c t, enc x = c :: t ∧ is_ws c = false) items →
  (length items ≤ n)%nat →
  array_items value n
    (join (44 :: newline_indent indent level) (map enc items)
     ++ newline_indent indent level' ++ 93 :: rest)
  = Some (items, rest).
Proof.
  intros Hne Hall. revert n.
  induction items as [|x [|y ys] IH]; intros n Hn; [done|..].
  - apply Forall_cons in Hall as [[Hx _] _].
    destruct n as [|n]; [simpl in Hn; lia|]. cbn [map join array_items].
    rewrite Hx by apply delimited_newline_indent.
    by rewrite skip_ws_newline_indent.
  - apply Forall_cons in Hall as [[Hx _] Hall].
    destruct n as [|n]; [simpl in Hn; lia|].
    change (map enc (x :: y :: ys)) with (enc x :: map enc (y :: ys)).
    cbn [join]. change (map enc (y :: ys)) with (enc y :: map enc ys) at 1.
    cbv iota. rewrite <- !app_assoc. cbn [array_items].
    rewrite Hx by (simpl; by left).
    cbn [app skip_ws is_ws N.eqb Pos.eqb orb]. cbv iota.
    rewrite skip_ws_newline_indent.
    pose proof Hall as Hy. apply Forall_cons in Hy as [[_ (c & t & Hc & Hws)] _].
    assert (skip_ws (join (44 :: newline_indent indent level) (map enc (y :: ys))
                     ++ newline_indent indent level' ++ 93 :: rest)
            = join (44 :: newline_indent indent level) (map enc (y :: ys))
              ++ newline_indent indent level' ++ 93 :: rest) as ->.
    { change (map enc (y :: ys)) with (enc y :: map enc ys).
      destruct (map enc ys); cbn [join]; rewrite Hc; simpl; by rewrite Hws. }
    rewrite IH; [done|done|done|]. simpl in *. lia.
Qed.

(** One turn of the loop of [JSONObject] on the text of an item. *)
Lemma object_pairs_step (value : pystr → option (json * pystr))
    (enc : json → pystr) k x r n :
  str_ok k →
  (∀ r, delimited r → value (enc x ++ r) = Some (x, r)) →
  (∃ c t, enc x = c :: t ∧ is_ws c = false) →
  delimited r →
  object_pairs value (S n) (encode_item enc (k, x) ++ r)
  = match skip_ws r with
    | c' :: r3 =>
        if c' =? 125 then Some ([(k, x)], r3)
        else if c' =? 44 then
          match object_pairs value n (skip_ws r3) with
          | Some (kvs, r4) => Some ((k, x) :: kvs, r4)
          | None => None
          end
        else None
    | [] => None
    end.
Proof.
  intros Hk Hx (c & t & Hc & Hws) Hr.
  unfold encode_item, encode_basestring_ascii. cbn [fst snd].
  cbn [app object_pairs N.eqb Pos.eqb]. cbv iota.
  rewrite <- !app_assoc. cbn [app].
  rewrite scanstring_encoded by done.
  cbn [skip_ws is_ws N.eqb Pos.eqb orb]. cbv iota.
  assert (skip_ws (enc x ++ r) = enc x ++ r) as ->
    by (rewrite Hc; simpl; by rewrite Hws).
  by rewrite Hx.
Qed.

(** The loop of [JSONObject] on the text of the items of an object. *)
Lemma object_pairs_encoded (value : pystr → option (json * pystr))
    (enc : json → pystr) indent level level' fields n rest :
  fields ≠ [] →
  Forall (λ kv, str_ok kv.1
                ∧ (∀ r, delimited r → value (enc kv.2 ++ r) = Some (kv.2, r))
                ∧ ∃ c t, enc kv.2 = c :: t ∧ is_ws c = false) fields →
  (length fields ≤ n)%nat →
  object_pairs value n
    (join (44 :: newline_indent indent level) (map (encode_item enc) fields)
     ++ newline_indent indent level' ++ 125 :: rest)
  = Some (fields, rest).
Proof.
  intros Hne Hall. revert n.
  induction fields as [|[k x] [|kv' kvs] IH]; intros n Hn; [done|..].
  - apply Forall_cons in Hall as [(Hk & Hx & Hh) _].
    destruct n as [|n]; [simpl in Hn; lia|]. cbn [map join].
    rewrite object_pairs_step; [|done..|apply delimited_newline_indent].
    rewrite skip_ws_newline_indent. done.
  - apply Forall_cons in Hall as [(Hk & Hx & Hh) Hall].
    destruct n as [|n]; [simpl in Hn; lia|].
    change (map (encode_item enc) ((k, x) :: kv' :: kvs))
      with (encode_item enc (k, x) :: map (encode_item enc) (kv' :: kvs)).
    cbn [join].
    change (map (encode_item enc) (kv' :: kvs))
      with (encode_item enc kv' :: map (encode_item enc) kvs) at 1.
    cbv iota. rewrite <- !app_assoc.
    rewrite object_pairs_step; [|done..|simpl; by left].
    cbn [app skip_ws is_ws N.eqb Pos.eqb orb]. cbv iota.
    rewrite skip_ws_newline_indent.
    assert (skip_ws (join (44 :: newline_indent indent level)
                       (map (encode_item enc) (kv' :: kvs))
                     ++ newline_indent indent level' ++ 125 :: rest)
            = join (44 :: newline_indent indent level)
                (map (encode_item enc) (kv' :: kvs))
              ++ newline_indent indent level' ++ 125 :: rest) as ->.
    { change (map (encode_item enc) (kv' :: kvs))
        with (encode_item enc kv' :: map (encode_item enc) kvs).
      destruct (map (encode_item enc) kvs); cbn [join]; done. }
    rewrite IH; [done|done|done|]. simpl in *. lia.
Qed.

(** [dict(pairs)] of pairs with distinct keys is the pairs. *)
Lemma dict_set_fresh k v (d : list (pystr * json)) :
  k ∉ d.*1 → dict_set k v d = d ++ [(k, v)].
Proof.
  induction d as [|[k' v'] d IH]; intros Hk; [done|]. simpl in *.
  apply not_elem_of_cons in Hk as [Hne Hk].
  rewrite decide_False by done. by rewrite IH.
Qed.

Lemma dict_of_pairs_nodup (pairs : list (pystr * json)) :
  NoDup pairs.*1 → dict_of_pairs pairs = pairs.
Proof.
  unfold dict_of_pairs. intros Hnd.
  assert (∀ acc, NoDup (acc ++ pairs).*1 →
            foldl (λ d kv, dict_set kv.1 kv.2 d) acc pairs = acc ++ pairs)
    as Hgen; [|by apply (Hgen [])].
  clear Hnd. induction pairs as [|[k v] pairs IH]; intros acc Hnd.
  - by rewrite app_nil_r.
  - simpl. rewrite dict_set_fresh.
    + rewrite IH; rewrite <- app_assoc; done.
    + rewrite fmap_app in Hnd. apply NoDup_app in Hnd as (_ & Hdis & _).
      intros Hin. apply (Hdis k Hin). simpl. by left.
Qed.

(** *** Floats that are not finite *)

Lemma float_eqb_refl_false f : PrimFloat.eqb f f = false → f = nan.
Proof.
  rewrite FloatAxioms.eqb_spec. intros H. apply Prim2SF_inj.
  destruct (Prim2SF f) as [sg|sg| |sg m e] eqn:E; try done.
  - by destruct sg.
  - exfalso. unfold SFeqb, SFcompare in H.
    rewrite Z.compare_refl, Pos.compare_refl in H. by destruct sg.
Qed.

Lemma float_eqb_infinity f : PrimFloat.eqb f infinity = true → f = infinity.
Proof.
  rewrite FloatAxioms.eqb_spec. intros H. apply Prim2SF_inj.
  change (Prim2SF infinity) with (S754_infinity false) in *.
  destruct (Prim2SF f) as [sg|sg| |sg m e]; try done; by destruct sg.
Qed.

Lemma float_eqb_neg_infinity f :
  PrimFloat.eqb f neg_infinity = true → f = neg_infinity.
Proof.
  rewrite FloatAxioms.eqb_spec. intros H. apply Prim2SF_inj.
  change (Prim2SF neg_infinity) with (S754_infinity true) in *.
  destruct (Prim2SF f) as [sg|sg| |sg m e]; try done; by destruct sg.
Qed.

Lemma float_literal_number t :
  float_literal t = true →
  ∃ i f e, match_number t = Some (i, f, e, []) ∧ t = i ++ f ++ e
           ∧ (f ≠ [] ∨ e ≠ []).
Proof.
  unfold float_literal. intros H.
  destruct (match_number t) as [[[[i f] e] [|c r]]|] eqn:E; try done.
  exists i, f, e. split; [done|]. split.
  - apply match_number_concat in E. by rewrite app_nil_r in E.
  - destruct f; [|by left]. destruct e; [done|by right].
Qed.

(** [scan_once] reads the text of a float back. *)
Lemma scan_once_floatstr fuel f rest :
  float_reads_back f → delimited rest →
  scan_once (S fuel) (floatstr f ++ rest) = Some (JFloat f, rest).
Proof.
  intros Hf Hrest. unfold floatstr, float_reads_back, finite in *.
  destruct (PrimFloat.eqb f f) eqn:Enan; simpl negb; cbv iota;
    [|by rewrite (float_eqb_refl_false f Enan)].
  destruct (PrimFloat.eqb f infinity) eqn:Einf;
    [by rewrite (float_eqb_infinity f Einf)|].
  destruct (PrimFloat.eqb f neg_infinity) eqn:Eninf;
    [by rewrite (float_eqb_neg_infinity f Eninf)|].
  destruct (Hf eq_refl) as [Hlit Hback].
  apply float_literal_number in Hlit as (i & fr & e & Hm & Ht & Hne).
  rewrite (scan_once_number _ _ i fr e rest) by by apply match_number_app.
  rewrite <- Ht, Hback. destruct fr, e; try done. by destruct Hne.
Qed.

(** The text of a value starts with a character that is no whitespace, no
    closing bracket and no byte order mark. *)
Lemma iterencode_head indent level v :
  floats_read_back v →
  ∃ c t, iterencode indent level v = c :: t
         ∧ is_ws c = false ∧ c ≠ 93 ∧ c ≠ 65279.
Proof.
  intros Hf.
  destruct v as [|[]|n|f|str|[|x items]|[|kv fields]];
    try (eexists _, _; split; [reflexivity|done]).
  - destruct (match_number_head _ _ _ _ _ (match_number_int_repr n))
      as (c & t & Ht & Hc).
    exists c, t. simpl. split; [done|].
    unfold is_ws.
    rewrite !(proj2 (N.eqb_neq c _)) by lia. split; [done|]. lia.
  - simpl in *. unfold floatstr, float_reads_back, finite in *.
    destruct (PrimFloat.eqb f f); simpl negb; cbv iota;
      [|by eexists _, _].
    destruct (PrimFloat.eqb f infinity); [by eexists _, _|].
    destruct (PrimFloat.eqb f neg_infinity); [by eexists _, _|].
    destruct (Hf eq_refl) as [Hlit _].
    apply float_literal_number in Hlit as (i & fr & e & Hm & _ & _).
    destruct (match_number_head _ _ _ _ _ Hm) as (c & t & Ht & Hc).
    exists c, t. split; [done|]. unfold is_ws.
    rewrite !(proj2 (N.eqb_neq c _)) by lia. split; [done|]. lia.
Qed.

(** [JSONArray] on the text of an array that is not empty. *)
Lemma JSONArray_encoded (value : pystr → option (json * pystr))
    (enc : json → pystr) indent level items rest :
  items ≠ [] →
  Forall (λ x, (∀ r, delimited r → value (enc x ++ r) = Some (x, r))
               ∧ ∃ c t, enc x = c :: t ∧ is_ws c = false ∧ c ≠ 93) items →
  JSONArray value
    (newline_indent indent (S level)
     ++ join (44 :: newline_indent indent (S level)) (map enc items)
     ++ newline_indent indent level ++ 93 :: rest)
  = Some (JArr items, rest).
Proof.
  intros Hne Hall. unfold JSONArray.
  rewrite skip_ws_newline_indent.
  set (text := join (44 :: newline_indent indent (S level)) (map enc items)
               ++ newline_indent indent level ++ 93 :: rest).
  assert (Forall (λ x, (∀ r, delimited r → value (enc x ++ r) = Some (x, r))
                       ∧ ∃ c t, enc x = c :: t ∧ is_ws c = false) items)
    as Hall'.
  { eapply Forall_impl; [exact Hall|]. intros x [Hx (c & t & ? & ? & ?)].
    split; [done|]. by exists c, t. }
  assert (∃ c t, text = c :: t ∧ is_ws c = false ∧ c ≠ 93)
    as (c & t & Htext & Hws & H93).
  { destruct items as [|x items]; [done|].
    apply Forall_cons in Hall as [[_ (c & t & Hc & Hws & H93)] _].
    unfold text. change (map enc (x :: items)) with (enc x :: map enc items).
    destruct (map enc items); cbn [join]; rewrite Hc; simpl; by eexists _, _. }
  assert (skip_ws text = text) as -> by (rewrite Htext; by apply skip_ws_start).
  rewrite Htext at 1. rewrite (proj2 (N.eqb_neq c 93)) by done.
  unfold text. rewrite (array_items_encoded value enc); [done..|].
  rewrite length_app, length_app.
  assert (length items ≤ length (join (44%N :: newline_indent indent (S level))
                                   (map enc items)))%nat; [|lia].
  rewrite <- (length_map enc items). apply length_join_count.
  apply Forall_fmap. eapply Forall_impl; [exact Hall'|].
  intros x [_ (c' & t' & Hc & _)]. simpl. by rewrite Hc.
Qed.

(** [JSONObject] on the text of an object that is not empty. *)
Lemma JSONObject_encoded (value : pystr → option (json * pystr))
    (enc : json → pystr) indent level fields rest :
  fields ≠ [] → NoDup fields.*1 →
  Forall (λ kv, str_ok kv.1
                ∧ (∀ r, delimited r → value (enc kv.2 ++ r) = Some (kv.2, r))
                ∧ ∃ c t, enc kv.2 = c :: t ∧ is_ws c = false) fields →
  JSONObject value
    (newline_indent indent (S level)
     ++ join (44 :: newline_indent indent (S level))
          (map (encode_item enc) fields)
     ++ newline_indent indent level ++ 125 :: rest)
  = Some (JObj fields, rest).
Proof.
  intros Hne Hnd Hall. unfold JSONObject.
  rewrite skip_ws_newline_indent.
  set (text := join (44 :: newline_indent indent (S level))
                 (map (encode_item enc) fields)
               ++ newline_indent indent level ++ 125 :: rest).
  assert (∃ t, text = 34 :: t) as (t & Htext).
  { destruct fields as [|kv fields]; [done|]. unfold text.
    change (map (encode_item enc) (kv :: fields))
      with (encode_item enc kv :: map (encode_item enc) fields).
    destruct (map (encode_item enc) fields); cbn [join]; by eexists. }
  assert (skip_ws text = text) as -> by by rewrite Htext.
  rewrite Htext at 1. cbn [N.eqb Pos.eqb]. cbv iota.
  unfold text. rewrite (object_pairs_encoded value enc); try done.
  - by rewrite dict_of_pairs_nodup.
  - rewrite length_app, length_app.
    assert (length fields
            ≤ length (join (44%N :: newline_indent indent (S level))
                        (map (encode_item enc) fields)))%nat; [|lia].
    rewrite <- (length_map (encode_item enc) fields).
    apply length_join_count. apply Forall_fmap, Forall_forall.
    by intros [k x] _.
Qed.

Lemma iterencode_arr indent level items :
  items ≠ [] →
  iterencode indent level (JArr items)
  = 91 :: newline_indent indent (S level)
    ++ join (44 :: newline_indent indent (S level))
         (map (iterencode indent (S level)) items)
    ++ newline_indent indent level ++ [93].
Proof. by destruct items. Qed.

Lemma iterencode_obj indent level fields :
  fields ≠ [] →
  iterencode indent level (JObj fields)
  = 123 :: newline_indent indent (S level)
    ++ join (44 :: newline_indent indent (S level))
         (map (encode_item (iterencode indent (S level))) fields)
    ++ newline_indent indent level ++ [125].
Proof. by destruct fields. Qed.

(** [scan_once] reads back the text [iterencode] writes for a value, with
    fuel for the length of the text. *)
Lemma scan_once_iterencode indent v :
  json_ok v → floats_read_back v →
  ∀ level fuel rest,
    (length (iterencode indent level v) ≤ fuel)%nat → delimited rest →
    scan_once fuel (iterencode indent level v ++ rest) = Some (v, rest).
Proof.
  induction v as [|b|n|f|str|items IH|fields IH] using json_ind';
    intros Hok Hfl level fuel rest Hlen Hrest.
  - destruct fuel as [|fuel]; [simpl in Hlen; lia|]. reflexivity.
  - destruct fuel as [|fuel]; [destruct b; simpl in Hlen; lia|].
    destruct b; reflexivity.
  - destruct fuel as [|fuel].
    { destruct (iterencode_head indent level (JInt n) Hfl) as (c & t & Ht & _).
      rewrite Ht in Hlen. simpl in Hlen. lia. }
    cbn [iterencode].
    rewrite (scan_once_number _ _ (int_repr n) [] [] rest)
      by (apply match_number_app; [apply match_number_int_repr|done]).
    by rewrite parse_int_repr.
  - destruct fuel as [|fuel].
    { destruct (iterencode_head indent level (JFloat f) Hfl) as (c & t & Ht & _).
      rewrite Ht in Hlen. simpl in Hlen. lia. }
    cbn [iterencode]. by apply scan_once_floatstr.
  - destruct fuel as [|fuel]; [simpl in Hlen; lia|].
    cbn [iterencode]. unfold encode_basestring_ascii.
    cbn [app scan_once N.eqb Pos.eqb]. cbv iota.
    rewrite <- app_assoc. cbn [app]. by rewrite scanstring_encoded.
  - destruct fuel as [|fuel]; [destruct items; simpl in Hlen; lia|].
    destruct (decide (items = [])) as [->|Hne]; [reflexivity|].
    rewrite iterencode_arr in Hlen |- * by done.
    cbn [app scan_once N.eqb Pos.eqb]. cbv iota.
    rewrite <- !app_assoc. cbn [app].
    apply (JSONArray_encoded (scan_once fuel) (iterencode indent (S level)));
      [done|].
    apply json_ok_arr in Hok. apply floats_read_back_arr in Hfl.
    rewrite Forall_forall in IH, Hok, Hfl |- *. intros x Hx. split.
    + intros r Hr. apply IH; [done|by apply Hok|by apply Hfl| |done].
      assert (length (iterencode indent (S level) x)
              ≤ length (join (44%N :: newline_indent indent (S level))
                          (map (iterencode indent (S level)) items)))%nat.
      { apply length_join_elem, list_elem_of_fmap. by exists x. }
      simpl in Hlen. rewrite !length_app in Hlen. lia.
    + destruct (iterencode_head indent (S level) x (Hfl x Hx))
        as (c & t & Ht & Hws & H93 & _).
      by exists c, t.
  - destruct fuel as [|fuel]; [destruct fields; simpl in Hlen; lia|].
    destruct (decide (fields = [])) as [->|Hne]; [reflexivity|].
    rewrite iterencode_obj in Hlen |- * by done.
    cbn [app scan_once N.eqb Pos.eqb]. cbv iota.
    rewrite <- !app_assoc. cbn [app].
    apply json_ok_obj in Hok as [Hnd Hok]. apply floats_read_back_obj in Hfl.
    apply (JSONObject_encoded (scan_once fuel) (iterencode indent (S level)));
      [done|done|].
    rewrite Forall_forall in IH, Hok, Hfl |- *. intros kv Hkv.
    destruct (Hok kv Hkv) as [Hk Hv]. split; [done|]. split.
    + intros r Hr. apply IH; [done|done|by apply Hfl| |done].
      assert (length (encode_item (iterencode indent (S level)) kv)
              ≤ length (join (44%N :: newline_indent indent (S level))
                          (map (encode_item (iterencode indent (S level)))
                             fields)))%nat.
      { apply length_join_elem, list_elem_of_fmap. by exists kv. }
      set (J := join _ _) in *. clearbody J.
      unfold encode_item in H. rewrite !length_app in H.
      simpl in Hlen. rewrite !length_app in Hlen. lia.
    + destruct (iterencode_head indent (S level) kv.2 (Hfl kv Hkv))
        as (c & t & Ht & Hws & _).
      by exists c, t.
Qed.

(** [json.loads(json.dumps(v, indent=...))] is [v], for a value
    [json.loads] can give whose floats read back. *)
Lemma json_loads_dumps indent v :
  json_ok v → floats_read_back v →
  json_loads (json_dumps indent v) = Some v.
Proof.
  intros Hok Hfl. unfold json_loads, json_dumps.
  destruct (iterencode_head indent 0 v Hfl) as (c & t & Ht & Hws & _ & Hbom).
  pose proof (scan_once_iterencode indent v Hok Hfl 0
                (length (iterencode indent 0 v)) [] (le_n _) I) as Hscan.
  rewrite app_nil_r in Hscan.
  assert (skip_ws (iterencode indent 0 v) = iterencode indent 0 v) as Hskip
    by (rewrite Ht; by apply skip_ws_start).
  rewrite Hskip, Hscan. rewrite Ht.
  destruct (N.eq_dec c 65279) as [->|Hne]; [done|].
  destruct c as [|p]; [done|].
  repeat (destruct p as [p|p|]; try done).
Qed.

(** *** What [json.loads] gives *)

Lemma hex_val_bound c v : hex_val c = Some v → v < 16.
Proof.
  unfold hex_val. intros H.
  destruct (N.leb_spec 48 c), (N.leb_spec c 57); simpl in H;
    [simplify_eq; lia|..];
    (destruct (N.leb_spec 97 c), (N.leb_spec c 102); simpl in H;
       [simplify_eq; lia|..]);
    (destruct (N.leb_spec 65 c), (N.leb_spec c 70); simpl in H;
       simplify_eq; lia).
Qed.

Lemma hex4_bound a b c d n : hex4 a b c d = Some n → n < 65536.
Proof.
  unfold hex4. intros H.
  destruct (hex_val a) as [va|] eqn:Ea; [|done].
  destruct (hex_val b) as [vb|] eqn:Eb; [|done].
  destruct (hex_val c) as [vc|] eqn:Ec; [|done].
  destruct (hex_val d) as [vd|] eqn:Ed; [|done].
  apply hex_val_bound in Ea, Eb, Ec, Ed. simplify_eq. lia.
Qed.

Lemma scanned_inv c R out rest :
  scanned c R = Some (out, rest) →
  ∃ out', R = Some (out', rest) ∧ out = c :: out'.
Proof.
  unfold scanned. destruct R as [[out' rest']|]; [|done].
  intros [= <- <-]. by exists out'.
Qed.

Lemma scan_ok_step s R c out rest :
  scanned c (scanstring R) = Some (out, rest) →
  (∀ out' rest', scanstring R = Some (out', rest') → scan_ok R out' rest') →
  suffix R s → c < 1114112 →
  (is_high_surrogate c = true → ∀ c', is_low_surrogate c' = true →
     ¬ low_escape c' R) →
  (is_low_surrogate c = true → low_escape c s) →
  scan_ok s out rest.
Proof.
  intros (out' & HR & ->)%scanned_inv IH Hsuf Hc Hhigh Hlow.
  destruct (IH _ _ HR) as ([Hall Hpair] & Hstart & Hrest).
  split_and!.
  - split; [by constructor|]. split; [|done].
    destruct out' as [|c' out']; [done|]. intros [Hh Hl].
    by apply (Hhigh Hh c' Hl), Hstart.
  - done.
  - by etrans.
Qed.

(** [scanstring] on a text decoded from UTF-8. *)
Lemma scanstring_ok s out rest :
  Forall unicode_scalar s →
  scanstring s = Some (out, rest) → scan_ok s out rest.
Proof.
  remember (length s) as n eqn:Hn. revert s out rest Hn.
  induction (lt_wf n) as [n _ IH]. intros s out rest -> Hvalid Hscan.
  assert (∀ R, (length R < length s)%nat → suffix R s →
            ∀ out' rest', scanstring R = Some (out', rest') →
                          scan_ok R out' rest') as IHR.
  { intros R Hlen [k ->] out' rest'. eapply IH; [exact Hlen|done|].
    by apply Forall_app in Hvalid as [_ ?]. }
  clear IH.
  destruct s as [|c r]; [done|]. cbn [scanstring] in Hscan.
  destruct (N.eqb_spec c 34) as [->|H34].
  { simplify_eq. split_and!; [by split|done|by apply suffix_cons_r]. }
  destruct (N.eqb_spec c 92) as [->|H92].
  2:{ destruct (N.leb_spec c 31) as [|Hlo]; [done|].
      apply Forall_cons in Hvalid as [[Hc Hsur] _].
      eapply scan_ok_step; [exact Hscan|apply IHR; [simpl; lia|]|..].
      - by apply suffix_cons_r.
      - by apply suffix_cons_r.
      - done.
      - unfold is_high_surrogate. intros [?%N.leb_le ?%N.leb_le]%andb_true_iff.
        lia.
      - unfold is_low_surrogate. intros [?%N.leb_le ?%N.leb_le]%andb_true_iff.
        lia. }
  destruct r as [|e r1]; [done|].
  destruct (N.eqb_spec e 117) as [->|H117].
  2:{ destruct (backslash e) as [c'|] eqn:Eb; [|done].
      assert (c' < 128) as Hc'.
      { unfold backslash in Eb.
        repeat (destruct (_ =? _) in Eb; [simplify_eq; lia|]). done. }
      eapply scan_ok_step; [exact Hscan|apply IHR; [simpl; lia|]|..].
      - by do 2 apply suffix_cons_r.
      - by do 2 apply suffix_cons_r.
      - lia.
      - unfold is_high_surrogate. intros [?%N.leb_le ?%N.leb_le]%andb_true_iff.
        lia.
      - unfold is_low_surrogate. intros [?%N.leb_le ?%N.leb_le]%andb_true_iff.
        lia. }
  destruct r1 as [|h1 [|h2 [|h3 [|h4 r2]]]]; try done.
  destruct (hex4 h1 h2 h3 h4) as [uni|] eqn:Ehex; [|done].
  pose proof (hex4_bound _ _ _ _ _ Ehex) as Huni.
  assert (suffix r2 (92 :: 117 :: h1 :: h2 :: h3 :: h4 :: r2)) as Hr2
    by by do 6 apply suffix_cons_r.
  assert (is_low_surrogate uni = true →
          low_escape uni (92 :: 117 :: h1 :: h2 :: h3 :: h4 :: r2)) as Hlow
    by (intros _; by exists h1, h2, h3, h4, r2).
  assert (∀ R, R = r2 →
            scanned uni (scanstring R) = Some (out, rest) →
            (is_high_surrogate uni = true → ∀ c', is_low_surrogate c' = true →
               ¬ low_escape c' r2) →
            scan_ok (92 :: 117 :: h1 :: h2 :: h3 :: h4 :: r2) out rest)
    as Hlone.
  { intros R -> Hs Hhigh.
    eapply scan_ok_step; [exact Hs|apply IHR; [simpl; lia|done]|done|lia|..];
      done. }
  destruct (is_high_surrogate uni) eqn:Ehigh; [|by apply (Hlone r2)].
  destruct r2 as [|b1 r3]; [done|].
  destruct (N.eqb_spec b1 92) as [->|Hb1].
  2:{ apply (Hlone (b1 :: r3)); [done..|].
      intros _ c' _ (? & ? & ? & ? & ? & [= ] & _). done. }
  destruct r3 as [|u1 r4]; [done|].
  destruct (N.eqb_spec u1 117) as [->|Hu1].
  2:{ apply (Hlone (92 :: u1 :: r4)); [done..|].
      intros _ c' _ (? & ? & ? & ? & ? & [= ] & _). done. }
  destruct r4 as [|l1 [|l2 [|l3 [|l4 r5]]]]; try done.
  destruct (hex4 l1 l2 l3 l4) as [uni2|] eqn:Ehex2; [|done].
  pose proof (hex4_bound _ _ _ _ _ Ehex2) as Huni2.
  destruct (is_low_surrogate uni2) eqn:Elow.
  2:{ apply (Hlone (92 :: 117 :: l1 :: l2 :: l3 :: l4 :: r5)); [done..|].
      intros _ c' Hc' (? & ? & ? & ? & ? & [= <- <- <- <- <-] & Hh).
      congruence. }
  assert (65536 + N.lor (N.shiftl (uni - 55296) 10) (uni2 - 56320) < 1114112
          ∧ 65536 ≤ 65536 + N.lor (N.shiftl (uni - 55296) 10) (uni2 - 56320))
    as [Hjoin Hjoin'].
  { unfold is_high_surrogate, is_low_surrogate in *.
    apply andb_true_iff in Ehigh as [?%N.leb_le ?%N.leb_le].
    apply andb_true_iff in Elow as [?%N.leb_le ?%N.leb_le].
    rewrite N.shiftl_mul_pow2, lor_low by (change (2 ^ 10) with 1024; lia).
    change (2 ^ 10) with 1024. lia. }
  eapply scan_ok_step; [exact Hscan|apply IHR; [simpl; lia|]|..].
  - by do 12 apply suffix_cons_r.
  - by do 12 apply suffix_cons_r.
  - done.
  - unfold is_high_surrogate. intros [?%N.leb_le ?%N.leb_le]%andb_true_iff.
    lia.
  - unfold is_low_surrogate. intros [?%N.leb_le ?%N.leb_le]%andb_true_iff.
    lia.
Qed.

Lemma Forall_suffix {A} (P : A → Prop) (r s : list A) :
  suffix r s → Forall P s → Forall P r.
Proof. intros [k ->] H. by apply Forall_app in H as [_ ?]. Qed.

Lemma skip_ws_suffix s : suffix (skip_ws s) s.
Proof.
  induction s as [|c s IH]; [done|]. simpl.
  destruct (is_ws c); [by apply suffix_cons_r|done].
Qed.

Lemma strip_prefix_suffix p s r : strip_prefix p s = Some r → suffix r s.
Proof.
  revert s. induction p as [|x p IH]; intros [|y s] H; simpl in H;
    simplify_eq; try done.
  destruct (x =? y); [|done]. by apply suffix_cons_r, IH.
Qed.

Lemma match_number_suffix s i f e r :
  match_number s = Some (i, f, e, r) → suffix r s.
Proof.
  intros ->%match_number_concat. exists (i ++ f ++ e).
  by rewrite <- !app_assoc.
Qed.

Lemma array_items_ok value n s vs r :
  value_ok value → Forall unicode_scalar s →
  array_items value n s = Some (vs, r) →
  Forall json_ok vs ∧ suffix r s.
Proof.
  intros Hvalue. revert s vs r.
  induction n as [|n IH]; intros s vs r Hs Hscan; [done|].
  cbn [array_items] in Hscan.
  destruct (value s) as [[v r0]|] eqn:Ev; [|done].
  destruct (Hvalue _ _ _ Hs Ev) as [Hv Hr0].
  pose proof (skip_ws_suffix r0) as Hws.
  destruct (skip_ws r0) as [|c r'] eqn:Esk; [done|].
  assert (suffix r' s) as Hr'.
  { etrans; [|exact Hr0]. etrans; [|exact Hws]. by apply suffix_cons_r. }
  destruct (c =? 93).
  { simplify_eq. split; [|done]. constructor; [done|constructor]. }
  destruct (c =? 44); [|done].
  destruct (array_items value n (skip_ws r')) as [[vs' r'']|] eqn:Erec; [|done].
  simplify_eq.
  assert (suffix (skip_ws r') s) as Hsk
    by (etrans; [apply skip_ws_suffix|done]).
  destruct (IH _ _ _ (Forall_suffix _ _ _ Hsk Hs) Erec) as [Hvs Hr].
  split; [by constructor|by etrans].
Qed.

Lemma object_pairs_ok value n s kvs r :
  value_ok value → Forall unicode_scalar s →
  object_pairs value n s = Some (kvs, r) →
  Forall (λ kv, str_ok kv.1 ∧ json_ok kv.2) kvs ∧ suffix r s.
Proof.
  intros Hvalue. revert s kvs r.
  induction n as [|n IH]; intros s kvs r Hs Hscan; [done|].
  cbn [object_pairs] in Hscan.
  destruct s as [|q s1]; [done|]. destruct (q =? 34); [|done].
  destruct (scanstring s1) as [[key r0]|] eqn:Ekey; [|done].
  apply Forall_cons in Hs as [Hq Hs1].
  destruct (scanstring_ok _ _ _ Hs1 Ekey) as (Hkey & _ & Hr0).
  pose proof (skip_ws_suffix r0) as Hws0.
  destruct (skip_ws r0) as [|c r1] eqn:Esk0; [done|].
  destruct (c =? 58); [|done].
  assert (suffix r1 s1) as Hr1.
  { etrans; [|exact Hr0]. etrans; [|exact Hws0]. by apply suffix_cons_r. }
  assert (suffix (skip_ws r1) s1) as Hsk1
    by (etrans; [apply skip_ws_suffix|done]).
  destruct (value (skip_ws r1)) as [[v r2]|] eqn:Ev; [|done].
  destruct (Hvalue _ _ _ (Forall_suffix _ _ _ Hsk1 Hs1) Ev) as [Hv Hr2].
  pose proof (skip_ws_suffix r2) as Hws2.
  destruct (skip_ws r2) as [|c' r3] eqn:Esk2; [done|].
  assert (suffix r3 s1) as Hr3.
  { etrans; [|exact Hsk1]. etrans; [|exact Hr2]. etrans; [|exact Hws2].
    by apply suffix_cons_r. }
  destruct (c' =? 125).
  { simplify_eq. split; [|by apply suffix_cons_r].
    constructor; [by split|constructor]. }
  destruct (c' =? 44); [|done].
  destruct (object_pairs value n (skip_ws r3)) as [[kvs' r4]|] eqn:Erec; [|done].
  simplify_eq.
  assert (suffix (skip_ws r3) s1) as Hsk3
    by (etrans; [apply skip_ws_suffix|done]).
  destruct (IH _ _ _ (Forall_suffix _ _ _ Hsk3 Hs1) Erec) as [Hkvs Hr].
  split; [by constructor|]. apply suffix_cons_r. by etrans.
Qed.

Lemma dict_set_keys k v (d : list (pystr * json)) k' :
  k' ∈ (dict_set k v d).*1 ↔ k' = k ∨ k' ∈ d.*1.
Proof.
  induction d as [|[k0 v0] d IH]; simpl.
  - rewrite list_elem_of_singleton, elem_of_nil. prop_tauto.
  - destruct (decide (k0 = k)) as [->|Hne]; simpl.
    + rewrite !elem_of_cons. prop_tauto.
    + rewrite !elem_of_cons, IH. prop_tauto.
Qed.

Lemma dict_set_nodup k v (d : list (pystr * json)) :
  NoDup d.*1 → NoDup (dict_set k v d).*1.
Proof.
  induction d as [|[k0 v0] d IH]; simpl; intros Hnd.
  - repeat constructor. by intros ?%elem_of_nil.
  - apply NoDup_cons in Hnd as [Hk0 Hnd].
    destruct (decide (k0 = k)) as [->|Hne]; simpl.
    + by constructor.
    + constructor; [|by apply IH]. rewrite dict_set_keys. prop_tauto.
Qed.

Lemma dict_set_Forall (P : pystr * json → Prop) k v d :
  P (k, v) → Forall P d → Forall P (dict_set k v d).
Proof.
  intros Hkv. induction 1 as [|[k0 v0] d H0 Hd IH]; simpl.
  - by repeat constructor.
  - destruct (decide (k0 = k)); by constructor.
Qed.

Lemma dict_of_pairs_ok kvs :
  Forall (λ kv, str_ok kv.1 ∧ json_ok kv.2) kvs →
  json_ok (JObj (dict_of_pairs kvs)).
Proof.
  intros Hall. apply json_ok_obj. unfold dict_of_pairs.
  assert (∀ acc, NoDup acc.*1 →
            Forall (λ kv : pystr * json, str_ok kv.1 ∧ json_ok kv.2) acc →
            let d := foldl (λ d kv, dict_set kv.1 kv.2 d) acc kvs in
            NoDup d.*1 ∧ Forall (λ kv, str_ok kv.1 ∧ json_ok kv.2) d) as Hgen.
  { induction Hall as [|[k v] kvs Hkv Hkvs IH]; intros acc Hnd Hacc; [done|].
    simpl. apply IH; [by apply dict_set_nodup|by apply dict_set_Forall]. }
  apply (Hgen []); constructor.
Qed.

(** [scan_once] on a text decoded from UTF-8. *)
Lemma scan_once_ok fuel : value_ok (scan_once fuel).
Proof.
  induction fuel as [|fuel IH]; intros s v r Hs Hscan; [done|].
  cbn [scan_once] in Hscan. destruct s as [|c s']; [done|].
  pose proof Hs as Hs0. apply Forall_cons in Hs as [Hc Hs'].
  destruct (c =? 34).
  { destruct (scanstring s') as [[str r']|] eqn:Estr; [|done]. simplify_eq.
    destruct (scanstring_ok _ _ _ Hs' Estr) as (Hstr & _ & Hr).
    split; [done|by apply suffix_cons_r]. }
  destruct (c =? 123).
  { unfold JSONObject in Hscan.
    pose proof (skip_ws_suffix s') as Hws.
    destruct (skip_ws s') as [|c' r'] eqn:Esk; [done|].
    destruct (c' =? 125).
    { simplify_eq. split; [by split; constructor|].
      apply suffix_cons_r. etrans; [|exact Hws]. by apply suffix_cons_r. }
    destruct (object_pairs (scan_once fuel) (length s') (c' :: r'))
      as [[kvs r'']|] eqn:Eobj; [|done]. simplify_eq.
    destruct (object_pairs_ok _ _ _ _ _ IH (Forall_suffix _ _ _ Hws Hs') Eobj)
      as [Hkvs Hr].
    split; [by apply dict_of_pairs_ok|].
    apply suffix_cons_r. by etrans. }
  destruct (c =? 91).
  { unfold JSONArray in Hscan.
    pose proof (skip_ws_suffix s') as Hws.
    destruct (skip_ws s') as [|c' r'] eqn:Esk; [done|].
    destruct (c' =? 93).
    { simplify_eq. split; [done|].
      apply suffix_cons_r. etrans; [|exact Hws]. by apply suffix_cons_r. }
    destruct (array_items (scan_once fuel) (length s') (c' :: r'))
      as [[vs r'']|] eqn:Earr; [|done]. simplify_eq.
    destruct (array_items_ok _ _ _ _ _ IH (Forall_suffix _ _ _ Hws Hs') Earr)
      as [Hvs Hr].
    split; [by apply json_ok_arr|].
    apply suffix_cons_r. by etrans. }
  destruct (strip_prefix (u "null") (c :: s')) as [r'|] eqn:E1.
  { simplify_eq. split; [done|by eapply strip_prefix_suffix]. }
  destruct (strip_prefix (u "true") (c :: s')) as [r'|] eqn:E2.
  { simplify_eq. split; [done|by eapply strip_prefix_suffix]. }
  destruct (strip_prefix (u "false") (c :: s')) as [r'|] eqn:E3.
  { simplify_eq. split; [done|by eapply strip_prefix_suffix]. }
  destruct (match_number (c :: s')) as [[[[i f] e] r']|] eqn:E4.
  { apply match_number_suffix in E4.
    destruct f, e; simplify_eq; by split. }
  destruct (strip_prefix (u "NaN") (c :: s')) as [r'|] eqn:E5.
  { simplify_eq. split; [done|by eapply strip_prefix_suffix]. }
  destruct (strip_prefix (u "Infinity") (c :: s')) as [r'|] eqn:E6.
  { simplify_eq. split; [done|by eapply strip_prefix_suffix]. }
  destruct (strip_prefix (u "-Infinity") (c :: s')) as [r'|] eqn:E7; [|done].
  simplify_eq. split; [done|by eapply strip_prefix_suffix].
Qed.

(** [json.loads] on a text decoded from UTF-8. *)
Lemma json_loads_ok text v :
  Forall unicode_scalar text → json_loads text = Some v → json_ok v.
Proof.
  intros Hs. unfold json_loads.
  assert (match scan_once (length text) (skip_ws text) with
          | Some (v0, r) => match skip_ws r with [] => Some v0 | _ :: _ => None end
          | None => None
          end = Some v → json_ok v) as Hgen.
  { destruct (scan_once (length text) (skip_ws text)) as [[v0 r]|] eqn:E; [|done].
    destruct (skip_ws r); [|done]. intros [= <-].
    eapply scan_once_ok; [|exact E].
    eapply Forall_suffix; [apply skip_ws_suffix|done]. }
  destruct text as [|c t]; [done|].
  destruct c as [|p]; [done|].
  do 16 (destruct p as [p|p|]; try done).
Qed.

(** ** The round trip of a record *)

(** C8.  Round trip: the text [json.dumps] writes for a record that
    [lookup] returns reads back, with [json.loads], as the record itself.
    The index is one [load_index] built from a file decoded from UTF-8, and
    the [repr] of each finite float of the record is taken to read back as
    the float. *)
Theorem lookup_record_roundtrip p w text index w1 hostname rec w2 :
  w_fs w p = RegularFile (Some text) →
  Forall unicode_scalar text →
  load_index p w = (Ret index, w1) →
  lookup index hostname w1 = (Ret rec, w2) →
  floats_read_back rec →
  json_loads (json_dumps 2 rec) = Some rec.
Proof.
  intros Hfs Htext Hload Hlookup Hfl.
  apply json_loads_dumps; [|done].
  apply load_index_ok in Hload as (text' & rows & Hfs' & Hj & Hok & -> & ->).
  rewrite Hfs in Hfs'. simplify_eq.
  rewrite lookup_run, deref_new_dict in Hlookup.
  destruct ((build_index rows ∅).2 !! str_lower hostname) as [rec'|] eqn:E;
    [|done].
  simplify_eq. apply build_index_lookup in E; [|done].
  destruct E as [(l1 & l2 & -> & _ & _)|[Hm _]];
    [|by rewrite lookup_empty in Hm].
  apply (json_loads_ok _ _ Htext), json_ok_arr in Hj.
  apply Forall_app in Hj as [_ Hj]. by apply Forall_cons in Hj as [? _].
Qed.

(** ** Further properties of the program *)

(** *** The rows an index holds *)

Lemma action_of_index_key row k :
  action_of row = Insert k ↔ index_key row = Some k.
Proof.
  unfold action_of, index_key, record_hostname.
  destruct row as [| | | | | |fields]; try done.
  destruct (dict_get (u "hostname") fields) as [v|]; simpl; [|done].
  destruct v as [|[]|n|f|[|c h]|[|x l]|[|x l]]; simpl; try done.
  - by destruct (n =? 0)%Z.
  - by destruct (PrimFloat.eqb f 0).
  - split; intros [= <-]; done.
Qed.

Lemma falsy_hostname_action row : falsy_hostname row → action_of row = Skip.
Proof.
  intros (fields & -> & H). unfold action_of.
  destruct (default JNull (dict_get (u "hostname") fields))
    as [|[]|n|f|[|c h]|[|x l]|[|x l]]; simpl in *; try done.
  - by rewrite H.
  - by rewrite H.
Qed.

Lemma last_stored_exists rows k :
  (∃ row, row ∈ rows ∧ index_key row = Some k) →
  ∃ rec, last_stored rows k rec.
Proof.
  induction rows as [|x rows IH]; intros (row & Hrow & Hk).
  - by apply elem_of_nil in Hrow.
  - destruct (decide (Exists (λ r, index_key r = Some k) rows)) as [He|Hno].
    + apply Exists_exists in He. destruct (IH He) as (rec & l1 & l2 & -> & ? & ?).
      by exists rec, (x :: l1), l2.
    + rewrite Exists_exists in Hno.
      apply elem_of_cons in Hrow as [Heq|Hrow];
        [|exfalso; apply Hno; by exists row].
      subst x. exists row, [], rows. split_and!; [done..|].
      intros r Hr Hkr. apply Hno. by exists r.
Qed.

Lemma last_stored_elem rows k rec :
  last_stored rows k rec → rec ∈ rows ∧ index_key rec = Some k.
Proof.
  intros (l1 & l2 & -> & Hk & _). split; [|done].
  apply elem_of_app. right. by left.
Qed.

(** The loop ends well, or it ends with an [AttributeError] at a row. *)
Lemma build_index_cases rows m :
  ((build_index rows m).1 = Ret tt ∧ ∀ r, r ∈ rows → action_of r ≠ Fail)
  ∨ ((build_index rows m).1 = Raise AttributeError
     ∧ ∃ r, r ∈ rows ∧ action_of r = Fail).
Proof.
  revert m. induction rows as [|row rows IH]; intros m; simpl.
  - left. split; [done|]. by intros r Hr%elem_of_nil.
  - destruct (action_of row) as [|k|] eqn:E.
    + destruct (IH m) as [[H1 H2]|[H1 (r & Hr & Hf)]]; [left|right].
      * split; [done|]. intros r [->|Hr]%elem_of_cons; [congruence|eauto].
      * split; [done|]. exists r. split; [by right|done].
    + destruct (IH (<[k:=row]> m)) as [[H1 H2]|[H1 (r & Hr & Hf)]]; [left|right].
      * split; [done|]. intros r [->|Hr]%elem_of_cons; [congruence|eauto].
      * split; [done|]. exists r. split; [by right|done].
    + right. split; [done|]. exists row. split; [by left|done].
Qed.

(** How the loop ends does not depend on the index it starts from. *)
Lemma build_index_outcome rows m m' :
  (build_index rows m).1 = (build_index rows m').1.
Proof.
  revert m m'. induction rows as [|row rows IH]; intros m m'; simpl; [done|].
  destruct (action_of row); [apply IH|apply IH|done].
Qed.

(** What a successful [load_index] leaves, read on the rows of the file. *)
Lemma load_index_entries p w index w' :
  load_index p w = (Ret index, w') →
  ∃ text rows,
    w_fs w p = RegularFile (Some text) ∧ json_loads text = Some (JArr rows)
    ∧ (∀ row, row ∈ rows → ¬ bad_row row)
    ∧ index = length (w_heap w)
    ∧ w' = World (w_fs w) (w_stdout w) (w_heap w ++ [deref w' index])
    ∧ ∀ k rec, deref w' index !! k = Some rec ↔ last_stored rows k rec.
Proof.
  intros (text & rows & Hfs & Hj & Hok & -> & ->)%load_index_ok.
  exists text, rows. rewrite deref_new_dict. split_and!; try done.
  - intros row Hrow Hbad%bad_row_action.
    rewrite (build_index_fail rows ∅) in Hok by eauto. done.
  - intros k rec. rewrite build_index_lookup by done. unfold last_stored. split.
    + intros [(l1 & l2 & -> & Hk & Hl2)|[Hm _]]; [|by rewrite lookup_empty in Hm].
      exists l1, l2. split_and!; [done|by apply action_of_index_key|].
      intros r Hr Hkr%action_of_index_key. by apply (Hl2 r).
    + intros (l1 & l2 & -> & Hk & Hl2). left. exists l1, l2.
      split_and!; [done|by apply action_of_index_key|].
      intros r Hr Hkr%action_of_index_key. by apply (Hl2 r).
Qed.

(** The line of a key of the index, lowercased, is the key. *)
Lemma load_index_line_key p w index w' k line :
  load_index p w = (Ret index, w') →
  hostname_line (deref w' index) k = Some line →
  str_lower line = k.
Proof.
  intros (text & rows & _ & _ & _ & _ & _ & Hent)%load_index_entries.
  unfold hostname_line. destruct (deref w' index !! k) as [rec|] eqn:E; [|done].
  simpl. intros Hline. apply Hent, last_stored_elem in E as [_ Hk].
  unfold index_key in Hk. rewrite Hline in Hk.
  destruct line; by simplify_eq.
Qed.

(** X1.  [load_index] ends well exactly when the path names a file whose text is
    a JSON array with no row it stops at. *)
Theorem load_index_returns_iff p w :
  (∃ index w', load_index p w = (Ret index, w'))
  ↔ ∃ text rows,
      w_fs w p = RegularFile (Some text) ∧ json_loads text = Some (JArr rows)
      ∧ ∀ row, row ∈ rows → ¬ bad_row row.
Proof.
  split.
  - intros (index & w' & H).
    apply load_index_entries in H as (text & rows & ? & ? & ? & _). eauto.
  - intros (text & rows & Hfs & Hj & Hrows).
    rewrite load_index_run, Hfs, Hj. simpl.
    rewrite (build_index_ok rows ∅); [eauto|].
    intros r Hr Hf. apply (Hrows r Hr). by apply bad_row_action.
Qed.

(** X2.  A row whose [hostname] is false in a condition, a string or not, is
    passed over: the run on the array with the row is the run on the array
    without it. *)
Theorem load_index_skips_falsy_hostname p p0 w text text0 l1 row l2 :
  falsy_hostname row →
  w_fs w p = RegularFile (Some text) →
  json_loads text = Some (JArr (l1 ++ row :: l2)) →
  w_fs w p0 = RegularFile (Some text0) →
  json_loads text0 = Some (JArr (l1 ++ l2)) →
  load_index p w = load_index p0 w.
Proof.
  intros Hs%falsy_hostname_action Hfs Hj Hfs0 Hj0.
  rewrite !load_index_run, Hfs, Hj, Hfs0, Hj0. simpl.
  by rewrite (build_index_skip _ _ _ _ Hs).
Qed.

Lemma length_remove_dups_le (l : list pystr) :
  (length (remove_dups l) ≤ length l)%nat.
Proof.
  induction l as [|x l IH]; simpl; [done|].
  destruct (decide_rel elem_of x l); simpl; lia.
Qed.

Lemma length_omap_le {A B} (f : A → option B) (l : list A) :
  (length (omap f l) ≤ length l)%nat.
Proof.
  induction l as [|x l IH]; csimpl; [done|].
  destruct (f x); csimpl; lia.
Qed.

(** X3.  The index has as many entries as the rows have distinct keys, and never
    more than the array has elements. *)
Theorem load_index_size p w text rows index w1 :
  w_fs w p = RegularFile (Some text) →
  json_loads text = Some (JArr rows) →
  load_index p w = (Ret index, w1) →
  size (deref w1 index) = length (remove_dups (omap index_key rows))
  ∧ (size (deref w1 index) ≤ length rows)%nat.
Proof.
  intros Hfs Hj (text' & rows' & Hfs' & Hj' & _ & _ & _ & Hent)%load_index_entries.
  rewrite Hfs in Hfs'. simplify_eq.
  assert ((map_to_list (deref w1 index)).*1 ≡ₚ remove_dups (omap index_key rows))
    as Hp.
  { apply NoDup_Permutation.
    - apply NoDup_fst_map_to_list.
    - apply NoDup_remove_dups.
    - intros k. rewrite elem_of_remove_dups, list_elem_of_omap. split.
      + intros ((k' & rec) & -> & Hin%elem_of_map_to_list)%list_elem_of_fmap.
        simpl. apply Hent, last_stored_elem in Hin as [? ?]. by exists rec.
      + intros (row & Hrow & Hk).
        destruct (last_stored_exists rows k) as [rec Hrec]; [by exists row|].
        apply Hent in Hrec. apply list_elem_of_fmap.
        exists (k, rec). split; [done|]. by apply elem_of_map_to_list. }
  apply Permutation_length in Hp. rewrite length_fmap, length_map_to_list in Hp.
  split; [done|]. rewrite Hp.
  etrans; [apply length_remove_dups_le|]. apply length_omap_le.
Qed.

(** *** Rows that do not matter *)

Lemma build_index_override rows k m m' :
  (∀ k', k' ≠ k → m !! k' = m' !! k') →
  (∃ r, r ∈ rows ∧ action_of r = Insert k) →
  (build_index rows m).1 = Ret tt →
  build_index rows m = build_index rows m'.
Proof.
  revert m m'.
  induction rows as [|row rows IH]; intros m m' Hm (r & Hr & Ha) Hok; simpl in *.
  - by apply elem_of_nil in Hr.
  - destruct (action_of row) as [|k'|] eqn:E; [| |done].
    + apply IH; [done| |done].
      apply elem_of_cons in Hr as [->|Hr]; [congruence|eauto].
    + destruct (decide (k' = k)) as [->|Hne].
      * assert (<[k:=row]> m = <[k:=row]> m') as ->; [|done].
        apply map_eq. intros i. destruct (decide (i = k)) as [->|Hi].
        -- by rewrite !lookup_insert_eq.
        -- rewrite !lookup_insert_ne by done. by apply Hm.
      * apply IH; [| |done].
        -- intros i Hi. destruct (decide (i = k')) as [->|Hik].
           ++ by rewrite !lookup_insert_eq.
           ++ rewrite !lookup_insert_ne by done. by apply Hm.
        -- apply elem_of_cons in Hr as [->|Hr]; [congruence|eauto].
Qed.

Lemma build_index_drop l1 row l2 k m :
  action_of row = Insert k →
  (∃ r, r ∈ l2 ∧ action_of r = Insert k) →
  (build_index (l1 ++ row :: l2) m).1 = Ret tt →
  build_index (l1 ++ row :: l2) m = build_index (l1 ++ l2) m.
Proof.
  intros Hk Hl2. revert m. induction l1 as [|x l1 IH]; intros m Hok; simpl in *.
  - rewrite Hk in *. apply build_index_override with k; [|done|done].
    intros k' Hne. by rewrite lookup_insert_ne.
  - destruct (action_of x); [by apply IH..|done].
Qed.

Lemma build_index_drop_outcome l1 row l2 k m :
  action_of row = Insert k →
  (build_index (l1 ++ row :: l2) m).1 = (build_index (l1 ++ l2) m).1.
Proof.
  intros Hk. revert m. induction l1 as [|x l1 IH]; intros m; simpl.
  - rewrite Hk. apply build_index_outcome.
  - destruct (action_of x); [apply IH..|done].
Qed.

(** X4.  Last one wins, read on the whole run: a row that a later row of the
    same key overrides has no effect on how [load_index] ends, nor on the
    index it returns. *)
Theorem load_index_overridden_row p p0 w text text0 l1 row l2 k :
  index_key row = Some k →
  (∃ r, r ∈ l2 ∧ index_key r = Some k) →
  w_fs w p = RegularFile (Some text) →
  json_loads text = Some (JArr (l1 ++ row :: l2)) →
  w_fs w p0 = RegularFile (Some text0) →
  json_loads text0 = Some (JArr (l1 ++ l2)) →
  (load_index p w).1 = (load_index p0 w).1
  ∧ ∀ index w', load_index p w = (Ret index, w') →
                load_index p0 w = (Ret index, w').
Proof.
  intros Hk%action_of_index_key (r & Hr & Hrk%action_of_index_key)
    Hfs Hj Hfs0 Hj0.
  rewrite !load_index_run, Hfs, Hj, Hfs0, Hj0. simpl.
  pose proof (build_index_drop_outcome l1 row l2 k ∅ Hk) as Ho.
  split.
  - rewrite <- Ho. by destruct (build_index (l1 ++ row :: l2) ∅).1.
  - intros index w'. rewrite <- Ho.
    destruct (build_index (l1 ++ row :: l2) ∅).1 as [[]|e] eqn:E; [|done].
    rewrite (build_index_drop l1 row l2 k ∅) by eauto. done.
Qed.

Lemma build_index_distinct rows k rec :
  NoDup (omap index_key rows) →
  (build_index rows ∅).1 = Ret tt →
  (build_index rows ∅).2 !! k = Some rec ↔ rec ∈ rows ∧ index_key rec = Some k.
Proof.
  intros Hnd Hok. rewrite build_index_lookup by done. split.
  - intros [(l1 & l2 & -> & Hk%action_of_index_key & _)|[Hm _]];
      [|by rewrite lookup_empty in Hm].
    split; [|done]. apply elem_of_app. right. by left.
  - intros [(l1 & l2 & ->)%list_elem_of_split Hk]. left. exists l1, l2.
    split_and!; [done|by apply action_of_index_key|].
    intros r Hr Hrk%action_of_index_key.
    rewrite omap_app in Hnd. apply NoDup_app in Hnd as (_ & _ & Hnd).
    simpl in Hnd. rewrite Hk in Hnd. apply NoDup_cons in Hnd as [Hnot _].
    apply Hnot. apply list_elem_of_omap. by exists r.
Qed.

(** X5.  When no two rows have the same key, the order of the rows in the file
    does not matter: a file with the rows in another order gives the same
    end of [load_index] and the same index. *)
Theorem load_index_order_irrelevant p p0 w text text0 rows rows0 :
  rows ≡ₚ rows0 →
  NoDup (omap index_key rows) →
  w_fs w p = RegularFile (Some text) →
  json_loads text = Some (JArr rows) →
  w_fs w p0 = RegularFile (Some text0) →
  json_loads text0 = Some (JArr rows0) →
  (load_index p w).1 = (load_index p0 w).1
  ∧ ∀ index w', load_index p w = (Ret index, w') →
                load_index p0 w = (Ret index, w').
Proof.
  intros Hp Hnd Hfs Hj Hfs0 Hj0.
  rewrite !load_index_run, Hfs, Hj, Hfs0, Hj0. simpl.
  destruct (build_index_cases rows ∅) as [[Hok Hall]|[Hbad (r & Hr & Hf)]].
  - assert ((build_index rows0 ∅).1 = Ret tt) as Hok0.
    { apply build_index_ok. intros r Hr. apply Hall. by rewrite Hp. }
    assert ((build_index rows ∅).2 = (build_index rows0 ∅).2) as Heq.
    { apply map_eq. intros k. apply option_eq. intros rec.
      rewrite !build_index_distinct by (done || by rewrite <- Hp).
      by rewrite Hp. }
    rewrite Hok, Hok0, Heq. done.
  - rewrite Hbad, (build_index_fail rows0 ∅).
    + split; [done|]. intros ? ? [=].
    + exists r. split; [by rewrite <- Hp|done].
Qed.

(** *** Lookup in a loaded index *)

(** X6.  [load_index] and then [lookup]: a name gets the last row of the file
    whose [hostname], a string that is not empty, agrees with the name after
    lowercasing, and a [KeyError] with the name as it was given exactly when
    the file has no such row. *)
Theorem lookup_after_load_index p w text rows index w1 hostname :
  w_fs w p = RegularFile (Some text) →
  json_loads text = Some (JArr rows) →
  load_index p w = (Ret index, w1) →
  (∀ rec, lookup index hostname w1 = (Ret rec, w1)
          ↔ last_stored rows (str_lower hostname) rec)
  ∧ (lookup index hostname w1
     = (Raise (KeyError (u "Hostname not found: " ++ hostname)), w1)
     ↔ ∀ row, row ∈ rows → index_key row ≠ Some (str_lower hostname)).
Proof.
  intros Hfs Hj (text' & rows' & Hfs' & Hj' & _ & _ & _ & Hent)%load_index_entries.
  rewrite Hfs in Hfs'. simplify_eq.
  rewrite lookup_run. split.
  - intros rec. rewrite <- Hent.
    destruct (deref w1 index !! str_lower hostname) as [rec'|];
      split; intros [=]; by subst.
  - destruct (deref w1 index !! str_lower hostname) as [rec'|] eqn:E; split.
    + intros [=].
    + intros Hno. apply Hent, last_stored_elem in E as [Hin Hk].
      by destruct (Hno rec' Hin).
    + intros _ row Hrow Hk.
      destruct (last_stored_exists rows (str_lower hostname)) as [rec Hrec];
        [by exists row|].
      apply Hent in Hrec. congruence.
    + done.
Qed.

(** X7.  Every record of the index is found under the [hostname] it holds. *)
Theorem lookup_own_hostname p w index w1 k rec :
  load_index p w = (Ret index, w1) →
  deref w1 index !! k = Some rec →
  ∃ h, record_hostname rec = Some h ∧ lookup index h w1 = (Ret rec, w1).
Proof.
  intros Hload Hrec.
  pose proof Hload as (text & rows & _ & _ & _ & _ & _ & Hent)%load_index_entries.
  pose proof Hrec as [_ Hk]%Hent%last_stored_elem.
  unfold index_key in Hk.
  destruct (record_hostname rec) as [[|c h]|] eqn:Eh; try done.
  simplify_eq. exists (c :: h). split; [done|].
  rewrite lookup_run, Hrec. done.
Qed.

(** X8.  A second [load_index] of the same file builds another dictionary with
    the same entries, and leaves the first index as it was. *)
Theorem load_index_twice p w index w1 :
  load_index p w = (Ret index, w1) →
  ∃ index2 w2,
    load_index p w1 = (Ret index2, w2)
    ∧ index2 ≠ index
    ∧ deref w2 index2 = deref w1 index
    ∧ deref w2 index = deref w1 index.
Proof.
  intros (text & rows & Hfs & Hj & Hok & -> & ->)%load_index_ok.
  rewrite load_index_run. simpl. rewrite Hfs, Hj. simpl. rewrite Hok.
  eexists _, _. split; [done|]. rewrite length_app. simpl. split; [lia|].
  unfold deref, set_dict. simpl.
  rewrite list_lookup_insert_eq by (rewrite !length_app; simpl; lia).
  rewrite list_lookup_insert_ne by lia.
  rewrite (lookup_app_l (w_heap w ++ [(build_index rows ∅).2]) [∅])
    by (rewrite length_app; simpl; lia).
  rewrite lookup_app_r, Nat.sub_diag by done. done.
Qed.

(** *** The command line *)

(** When [load_index] raises, nothing was printed, the file system is as it
    was, and the exception is one the process exits on with status 1. *)
Lemma load_index_raise p w e w' :
  load_index p w = (Raise e, w') →
  w_stdout w' = w_stdout w ∧ w_fs w' = w_fs w
  ∧ exit_status (A:=unit) (Raise e) = 1%Z.
Proof.
  rewrite load_index_run.
  destruct (w_fs w p) as [| |[text|]]; try (by intros [= <- <-]).
  destruct (json_loads text) as [[| | | | |rows|]|]; try (by intros [= <- <-]).
  simpl. destruct (build_index_cases rows ∅) as [[-> _]|[-> _]]; [done|].
  by intros [= <- <-].
Qed.

Lemma main_raise_run args w e w' :
  load_index (arg_json args) w = (Raise e, w') → main args w = (Raise e, w').
Proof. intros H. unfold main, mbind at 1, M_bind at 1. by rewrite H. Qed.

(** The listing after a successful [load_index]: one line for each key, in
    the order of [sorted], up to the first line the standard output cannot
    encode. *)
Lemma listing_run p w index w1 :
  load_index p w = (Ret index, w1) →
  ∃ lines,
    list_hostnames index w1
    = (if forallb encodable lines then Ret tt else Raise UnicodeEncodeError,
       printed w1 (printable_prefix lines))
    ∧ Forall2 (λ k line, hostname_line (deref w1 index) k = Some line)
        (merge_sort str_le (map_to_list (deref w1 index)).*1) lines.
Proof.
  intros Hload.
  destruct (sorted_keys_spec (deref w1 index)) as (Hp & _ & _).
  destruct (lines_exist (deref w1 index)
              (merge_sort str_le (map_to_list (deref w1 index)).*1))
    as [lines Hlines].
  { intros k Hk. rewrite Hp in Hk.
    apply list_elem_of_fmap in Hk as ((k' & rec) & -> & Hin%elem_of_map_to_list).
    simpl. unfold hostname_line. rewrite Hin. simpl.
    by apply (load_index_entry_hostname _ _ _ _ _ _ Hload Hin). }
  exists lines. split; [|done].
  unfold list_hostnames, dict_sorted. unfold mbind at 1, M_bind at 1.
  by rewrite (listing_loop_run _ _ lines).
Qed.

Lemma lines_lower (idx : gmap pystr json) keys lines :
  (∀ k line, hostname_line idx k = Some line → str_lower line = k) →
  Forall2 (λ k line, hostname_line idx k = Some line) keys lines →
  map str_lower lines = keys.
Proof.
  intros H. induction 1 as [|k line ks ls Hk _ IH]; simpl; [done|].
  f_equal; [by apply H|done].
Qed.

(** X9.  When [load_index] raises, [main] ends with the same exception, nothing
    is printed, and the process exits with status 1. *)
Theorem main_propagates_load_failure args w e w' :
  load_index (arg_json args) w = (Raise e, w') →
  main args w = (Raise e, w')
  ∧ w_stdout w' = w_stdout w
  ∧ run_cli args w = (1%Z, w').
Proof.
  intros H. destruct (load_index_raise _ _ _ _ H) as (Hout & _ & Hx).
  pose proof (main_raise_run _ _ _ _ H) as Hm.
  split_and!; [done..|]. unfold run_cli. rewrite Hm. by rewrite Hx.
Qed.

(** X10.  The listing, lowercased line by line, is strictly ascending: it
    is in the order of the lowercased names and holds no two names that
    agree after lowercasing.  It has one line for each entry of the index,
    and its lines are the [hostname]s of the records of the index.  The
    program prints them up to the first one the standard output cannot
    encode: all of them and status 0 when there is none, and status 1
    otherwise. *)
Theorem listing_sorted_by_lowercase args w index w1 :
  host_given (arg_host args) = None →
  load_index (arg_json args) w = (Ret index, w1) →
  ∃ lines,
    ascending (map str_lower lines)
    ∧ length lines = size (deref w1 index)
    ∧ (∀ line, line ∈ lines
               ↔ ∃ k rec, deref w1 index !! k = Some rec
                          ∧ record_hostname rec = Some line)
    ∧ run_cli args w
      = (if forallb encodable lines then 0%Z else 1%Z,
         printed w1 (printable_prefix lines))
    ∧ (forallb encodable lines = true →
       run_cli args w = (0%Z, printed w1 lines)).
Proof.
  intros Hhost Hload.
  destruct (listing_run _ _ _ _ Hload) as (lines & Hrun & Hlines).
  destruct (sorted_keys_spec (deref w1 index)) as (Hp & Hasc & _).
  assert (run_cli args w
          = (if forallb encodable lines then 0%Z else 1%Z,
             printed w1 (printable_prefix lines))) as Hcli.
  { unfold run_cli. rewrite (main_run _ _ _ _ Hload), Hhost, Hrun.
    by destruct (forallb encodable lines). }
  exists lines. split_and!.
  - rewrite (lines_lower _ _ _ (λ k line, load_index_line_key _ _ _ _ k line Hload)
               Hlines).
    done.
  - rewrite <- (Forall2_length _ _ _ Hlines), Hp, length_fmap.
    apply length_map_to_list.
  - intros line. split.
    + intros (i & Hi)%list_elem_of_lookup.
      destruct (Forall2_lookup_r _ _ _ _ _ Hlines Hi) as (k & _ & Hk).
      unfold hostname_line in Hk.
      destruct (deref w1 index !! k) as [rec|] eqn:E; [|done]. by exists k, rec.
    + intros (k & rec & Hrec & Hline).
      assert (k ∈ merge_sort str_le (map_to_list (deref w1 index)).*1) as Hk.
      { rewrite Hp. apply list_elem_of_fmap. exists (k, rec).
        split; [done|]. by apply elem_of_map_to_list. }
      apply list_elem_of_lookup in Hk as (i & Hi).
      destruct (Forall2_lookup_l _ _ _ _ _ Hlines Hi) as (line' & Hl & Hk).
      unfold hostname_line in Hk. rewrite Hrec in Hk. simpl in Hk.
      rewrite Hline in Hk. simplify_eq. by eapply list_elem_of_lookup_2.
  - done.
  - intros Henc. by rewrite Hcli, Henc, printable_prefix_all.
Qed.

(** *** The text of a record *)

Lemma hex_digit_plain x : x < 16 → plain_char (hex_digit x).
Proof.
  intros H. unfold plain_char, hex_digit.
  destruct (x <? 10) eqn:E; [apply N.ltb_lt in E|apply N.ltb_ge in E]; lia.
Qed.

Lemma escape_u_plain n : Forall plain_char (escape_u n).
Proof.
  unfold escape_u.
  repeat (apply Forall_cons; split;
          [first [by apply hex_digit_plain, N.mod_upper_bound|right; lia]|]).
  apply Forall_nil_2.
Qed.

Lemma escape_cp_plain c : Forall plain_char (escape_cp c).
Proof.
  assert (∀ a b : N, plain_char a → plain_char b → Forall plain_char [a; b])
    as Hpair by (intros a b Ha Hb; by repeat apply Forall_cons_2).
  unfold escape_cp.
  destruct (c =? 34); [apply Hpair; right; lia|].
  destruct (c =? 92); [apply Hpair; right; lia|].
  destruct ((32 <=? c) && (c <=? 126)) eqn:E.
  { apply andb_true_iff in E as [H1%N.leb_le H2%N.leb_le].
    apply Forall_cons; split; [by right|apply Forall_nil_2]. }
  destruct (c =? 8); [apply Hpair; right; lia|].
  destruct (c =? 12); [apply Hpair; right; lia|].
  destruct (c =? 10); [apply Hpair; right; lia|].
  destruct (c =? 13); [apply Hpair; right; lia|].
  destruct (c =? 9); [apply Hpair; right; lia|].
  destruct (c <? 65536); [apply escape_u_plain|].
  apply Forall_app; split; apply escape_u_plain.
Qed.

Lemma encode_basestring_ascii_plain s :
  Forall plain_char (encode_basestring_ascii s).
Proof.
  unfold encode_basestring_ascii.
  apply Forall_cons; split; [right; lia|]. apply Forall_app; split.
  - induction s as [|c s IH]; [apply Forall_nil_2|].
    simpl. apply Forall_app; split; [apply escape_cp_plain|done].
  - apply Forall_cons; split; [right; lia|apply Forall_nil_2].
Qed.

Lemma int_repr_plain n : Forall plain_char (int_repr n).
Proof.
  assert (∀ d, Forall plain_char (uint_chars d)) as Hd.
  { induction d; simpl; [apply Forall_nil_2|..];
      (apply Forall_cons; split; [right; lia|done]). }
  unfold int_repr. destruct (Z.to_int n); [apply Hd|].
  apply Forall_cons; split; [right; lia|apply Hd].
Qed.

Lemma floatstr_plain f :
  (∀ f, Forall plain_char (float_repr f)) → Forall plain_char (floatstr f).
Proof.
  intros H. unfold floatstr.
  destruct (negb (PrimFloat.eqb f f));
    [apply (bool_decide_unpack (Forall plain_char (u "NaN"))); by vm_compute|].
  destruct (PrimFloat.eqb f infinity);
    [apply (bool_decide_unpack (Forall plain_char (u "Infinity")));
     by vm_compute|].
  destruct (PrimFloat.eqb f neg_infinity);
    [apply (bool_decide_unpack (Forall plain_char (u "-Infinity")));
     by vm_compute|].
  apply H.
Qed.

Lemma newline_indent_plain indent level :
  Forall plain_char (newline_indent indent level).
Proof.
  unfold newline_indent. apply Forall_cons; split; [by left|].
  apply Forall_replicate. right. lia.
Qed.

Lemma join_plain sep chunks :
  Forall plain_char sep → Forall (Forall plain_char) chunks →
  Forall plain_char (join sep chunks).
Proof.
  intros Hsep. induction 1 as [|c cs Hc Hcs IH]; [apply Forall_nil_2|].
  destruct cs as [|c' cs']; [done|].
  change (Forall plain_char (c ++ sep ++ join sep (c' :: cs'))).
  rewrite !Forall_app. done.
Qed.

(** The text of a value is printable ASCII and line feeds, when the [repr]
    of a float is. *)
Lemma iterencode_plain indent v :
  (∀ f, Forall plain_char (float_repr f)) →
  ∀ level, Forall plain_char (iterencode indent level v).
Proof.
  intros Hfl.
  assert (∀ level, Forall plain_char (44 :: newline_indent indent level))
    as Hsep.
  { intros level. apply Forall_cons; split; [right; lia|].
    apply newline_indent_plain. }
  induction v as [|b|n|f|str|items IH|fields IH] using json_ind'; intros level.
  - apply (bool_decide_unpack (Forall plain_char (u "null"))). by vm_compute.
  - destruct b.
    + apply (bool_decide_unpack (Forall plain_char (u "true"))). by vm_compute.
    + apply (bool_decide_unpack (Forall plain_char (u "false"))). by vm_compute.
  - apply int_repr_plain.
  - by apply floatstr_plain.
  - apply encode_basestring_ascii_plain.
  - destruct (decide (items = [])) as [->|Hne].
    { apply (bool_decide_unpack (Forall plain_char (u "[]"))). by vm_compute. }
    rewrite iterencode_arr by done.
    apply Forall_cons; split; [right; lia|]. rewrite !Forall_app.
    split_and!.
    + apply newline_indent_plain.
    + apply join_plain; [apply Hsep|]. apply Forall_fmap.
      eapply Forall_impl; [exact IH|]. intros x Hx. apply Hx.
    + apply newline_indent_plain.
    + apply Forall_cons; split; [right; lia|apply Forall_nil_2].
  - destruct (decide (fields = [])) as [->|Hne].
    { apply (bool_decide_unpack (Forall plain_char (u "{}"))). by vm_compute. }
    rewrite iterencode_obj by done.
    apply Forall_cons; split; [right; lia|]. rewrite !Forall_app.
    split_and!.
    + apply newline_indent_plain.
    + apply join_plain; [apply Hsep|]. apply Forall_fmap.
      eapply Forall_impl; [exact IH|]. intros kv Hkv.
      unfold compose, encode_item. apply Forall_app; split.
      * apply encode_basestring_ascii_plain.
      * simpl. apply Forall_cons; split; [right; lia|].
        apply Forall_cons; split; [right; lia|apply Hkv].
    + apply newline_indent_plain.
    + apply Forall_cons; split; [right; lia|apply Forall_nil_2].
Qed.

Lemma is_digit_plain c : is_digit c = true → plain_char c.
Proof.
  unfold is_digit. intros [H1 H2]%andb_true_iff.
  apply N.leb_le in H1, H2. right. lia.
Qed.

Lemma either_plain c a b :
  32 ≤ a ≤ 126 → 32 ≤ b ≤ 126 → (c =? a) || (c =? b) = true → plain_char c.
Proof.
  intros Ha Hb [H|H]%orb_true_iff; apply N.eqb_eq in H; right; lia.
Qed.

(** The groups of a number hold digits, signs, a dot and the letter of the
    exponent. *)
Lemma span_digits_plain s d r : span_digits s = (d, r) → Forall plain_char d.
Proof.
  revert d r. induction s as [|c s IH]; intros d r Hs; simpl in Hs.
  - simplify_eq. apply Forall_nil_2.
  - destruct (is_digit c) eqn:Ec; [|simplify_eq; apply Forall_nil_2].
    destruct (span_digits s) as [d' r'] eqn:E. simplify_eq.
    apply Forall_cons; split; [by apply is_digit_plain|by eapply IH].
Qed.

Lemma match_integer_plain s i r :
  match_integer s = Some (i, r) → Forall plain_char i.
Proof.
  assert (∀ sign s1, Forall plain_char sign →
            match s1 with
            | c :: r0 =>
                if c =? 48 then Some (sign ++ [48], r0)
                else if is_digit c then
                  let '(d, r') := span_digits r0 in Some (sign ++ c :: d, r')
                else None
            | [] => None
            end = Some (i, r) → Forall plain_char i) as Hdigits.
  { intros sign [|c r0] Hsign H; [done|].
    destruct (c =? 48).
    - simplify_eq. apply Forall_app; split; [done|].
      apply Forall_cons; split; [right; lia|apply Forall_nil_2].
    - destruct (is_digit c) eqn:Ec; [|done].
      destruct (span_digits r0) as [d r'] eqn:E. simplify_eq.
      apply Forall_app; split; [done|].
      apply Forall_cons; split;
        [by apply is_digit_plain|by eapply span_digits_plain]. }
  unfold match_integer. destruct s as [|c s]; [done|].
  destruct (c =? 45); intros H.
  - apply (Hdigits [45] s); [|exact H].
    apply Forall_cons; split; [right; lia|apply Forall_nil_2].
  - apply (Hdigits [] (c :: s)); [apply Forall_nil_2|exact H].
Qed.

Lemma match_frac_plain s f r : match_frac s = (f, r) → Forall plain_char f.
Proof.
  unfold match_frac. destruct s as [|c s]; [intros; simplify_eq; done|].
  destruct (c =? 46); [|intros; simplify_eq; done].
  destruct (span_digits s) as [d r'] eqn:E.
  apply span_digits_plain in E. destruct d as [|c' d]; intros; simplify_eq;
    [done|].
  apply Forall_cons; split; [right; lia|done].
Qed.

Lemma match_exp_plain s e r : match_exp s = (e, r) → Forall plain_char e.
Proof.
  unfold match_exp. destruct s as [|c s]; [intros; simplify_eq; done|].
  destruct ((c =? 101) || (c =? 69)) eqn:Ec; [|intros; simplify_eq; done].
  assert (plain_char c) as Hc by (by apply (either_plain c 101 69)).
  destruct s as [|c1 s].
  { simpl. intros. simplify_eq. done. }
  destruct ((c1 =? 45) || (c1 =? 43)) eqn:Ec1.
  - destruct (span_digits s) as [d r'] eqn:E.
    apply span_digits_plain in E. destruct d as [|c' d]; intros; simplify_eq;
      [done|].
    apply Forall_cons; split; [done|].
    apply Forall_cons; split; [by apply (either_plain c1 45 43)|done].
  - destruct (span_digits (c1 :: s)) as [d r'] eqn:E.
    apply span_digits_plain in E. destruct d as [|c' d]; intros; simplify_eq;
      [done|].
    apply Forall_cons; split; done.
Qed.

Lemma float_literal_plain t : float_literal t = true → Forall plain_char t.
Proof.
  intros (i & f & e & Hm & -> & _)%float_literal_number.
  unfold match_number in Hm.
  destruct (match_integer (i ++ f ++ e)) as [[i' r0]|] eqn:Ei; [|done].
  destruct (match_frac r0) as [f' r1] eqn:Ef.
  destruct (match_exp r1) as [e' r2] eqn:Ee. simplify_eq.
  rewrite !Forall_app. split_and!.
  - by eapply match_integer_plain.
  - by eapply match_frac_plain.
  - by eapply match_exp_plain.
Qed.

(** The text of a float that reads back is printable ASCII. *)
Lemma floatstr_reads_back_plain f :
  float_reads_back f → Forall plain_char (floatstr f).
Proof.
  intros Hf. unfold floatstr, float_reads_back, finite in *.
  destruct (PrimFloat.eqb f f); simpl negb; cbv iota;
    [|apply (bool_decide_unpack (Forall plain_char (u "NaN"))); by vm_compute].
  destruct (PrimFloat.eqb f infinity);
    [apply (bool_decide_unpack (Forall plain_char (u "Infinity")));
     by vm_compute|].
  destruct (PrimFloat.eqb f neg_infinity);
    [apply (bool_decide_unpack (Forall plain_char (u "-Infinity")));
     by vm_compute|].
  by apply float_literal_plain, Hf.
Qed.

(** The text of a value whose floats read back is printable ASCII and line
    feeds. *)
Lemma iterencode_reads_back_plain indent v :
  floats_read_back v → ∀ level, Forall plain_char (iterencode indent level v).
Proof.
  assert (∀ level, Forall plain_char (44 :: newline_indent indent level))
    as Hsep.
  { intros level. apply Forall_cons; split; [right; lia|].
    apply newline_indent_plain. }
  induction v as [|b|n|f|str|items IH|fields IH] using json_ind';
    intros Hfl level.
  - apply (bool_decide_unpack (Forall plain_char (u "null"))). by vm_compute.
  - destruct b.
    + apply (bool_decide_unpack (Forall plain_char (u "true"))). by vm_compute.
    + apply (bool_decide_unpack (Forall plain_char (u "false"))). by vm_compute.
  - apply int_repr_plain.
  - by apply floatstr_reads_back_plain.
  - apply encode_basestring_ascii_plain.
  - apply floats_read_back_arr in Hfl.
    destruct (decide (items = [])) as [->|Hne].
    { apply (bool_decide_unpack (Forall plain_char (u "[]"))). by vm_compute. }
    rewrite iterencode_arr by done.
    apply Forall_cons; split; [right; lia|]. rewrite !Forall_app.
    split_and!.
    + apply newline_indent_plain.
    + apply join_plain; [apply Hsep|]. apply Forall_fmap.
      rewrite Forall_forall in IH, Hfl. apply Forall_forall.
      intros x Hx. by apply IH, Hfl.
    + apply newline_indent_plain.
    + apply Forall_cons; split; [right; lia|apply Forall_nil_2].
  - apply floats_read_back_obj in Hfl.
    destruct (decide (fields = [])) as [->|Hne].
    { apply (bool_decide_unpack (Forall plain_char (u "{}"))). by vm_compute. }
    rewrite iterencode_obj by done.
    apply Forall_cons; split; [right; lia|]. rewrite !Forall_app.
    split_and!.
    + apply newline_indent_plain.
    + apply join_plain; [apply Hsep|]. apply Forall_fmap.
      rewrite Forall_forall in IH, Hfl. apply Forall_forall.
      intros kv Hkv.
      unfold compose, encode_item. apply Forall_app; split.
      * apply encode_basestring_ascii_plain.
      * simpl. apply Forall_cons; split; [right; lia|].
        apply Forall_cons; split; [right; lia|]. by apply IH, Hfl.
    + apply newline_indent_plain.
    + apply Forall_cons; split; [right; lia|apply Forall_nil_2].
Qed.

(** The text of a record goes to the standard output as it is. *)
Lemma print_json_dumps rec w :
  (∀ f, Forall plain_char (float_repr f)) →
  print (json_dumps 2 rec) w = (Ret tt, printed w [json_dumps 2 rec]).
Proof.
  intros Hfl. rewrite print_run, plain_encodable; [done|].
  by apply iterencode_plain.
Qed.

(** X11.  The exit status is 0 or 1, and it is 0 exactly when [load_index]
    ends well and either the name of [--host], given and not empty, is in
    the index after lowercasing, or no such name is given and the standard
    output can encode the [hostname] of every record of the index.  The
    [repr] of a float is taken to be printable ASCII. *)
Theorem main_exit_status args w :
  (∀ f, Forall plain_char (float_repr f)) →
  ((run_cli args w).1 = 0%Z ∨ (run_cli args w).1 = 1%Z)
  ∧ ((run_cli args w).1 = 0%Z
     ↔ ∃ index w1,
         load_index (arg_json args) w = (Ret index, w1)
         ∧ match host_given (arg_host args) with
           | Some host => is_Some (deref w1 index !! str_lower host)
           | None =>
               ∀ k rec h, deref w1 index !! k = Some rec →
                          record_hostname rec = Some h → encodable h = true
           end).
Proof.
  intros Hfl.
  destruct (load_index (arg_json args) w) as [[index|e] w1] eqn:Hload.
  - unfold run_cli. rewrite (main_run _ _ _ _ Hload).
    destruct (host_given (arg_host args)) as [host|] eqn:Hh.
    + destruct (deref w1 index !! str_lower host) as [rec|] eqn:E.
      * rewrite print_json_dumps by done.
        simpl. split; [by left|]. split; [|done]. intros _.
        exists index, w1. by rewrite E.
      * destruct (miss_run (str_repr (u "Hostname not found: " ++ host)) w1)
          as (Hx & _ & _).
        destruct ((print (str_repr (u "Hostname not found: " ++ host));;
                   raise (A:=unit) (SystemExit 1)) w1) as [o w2].
        simpl in *. rewrite Hx. split; [by right|]. split; [done|].
        intros (i & w' & [= <- <-] & [? H]). congruence.
    + destruct (listing_run _ _ _ _ Hload) as (lines & -> & Hlines).
      destruct (sorted_keys_spec (deref w1 index)) as (Hp & _ & _).
      destruct (forallb encodable lines) eqn:Henc; simpl.
      * split; [by left|]. split; [|done]. intros _. exists index, w1.
        split; [done|]. intros k rec h Hrec Hrh.
        assert (k ∈ merge_sort str_le (map_to_list (deref w1 index)).*1) as Hk.
        { rewrite Hp. apply list_elem_of_fmap. exists (k, rec).
          split; [done|]. by apply elem_of_map_to_list. }
        apply list_elem_of_lookup in Hk as (i & Hi).
        destruct (Forall2_lookup_l _ _ _ _ _ Hlines Hi) as (line & Hl & Hk).
        unfold hostname_line in Hk. rewrite Hrec in Hk. simpl in Hk.
        rewrite Hrh in Hk. simplify_eq.
        rewrite forallb_elem_of in Henc.
        apply (Henc line). by eapply list_elem_of_lookup_2.
      * split; [by right|]. split; [done|].
        intros (i & w' & [= <- <-] & Hall). exfalso.
        assert (forallb encodable lines = true) as Hyes; [|congruence].
        apply forallb_elem_of.
        intros line (j & Hj)%list_elem_of_lookup.
        destruct (Forall2_lookup_r _ _ _ _ _ Hlines Hj) as (k & _ & Hk).
        unfold hostname_line in Hk.
        destruct (deref w1 index !! k) as [rec|] eqn:E; [|done].
        by apply (Hall k rec).
  - destruct (load_index_raise _ _ _ _ Hload) as (_ & _ & Hx).
    unfold run_cli. rewrite (main_raise_run _ _ _ _ Hload). simpl.
    simpl in Hx. rewrite Hx. split; [by right|]. split; [done|].
    by intros (i & w' & [=] & _).
Qed.

(** C3, amended.  With a [--host] name that is not empty: when its
    lowercased form is not a key of the index, the program exits with
    status 1, and it prints a line that holds the name when the name has no
    backslash, no character that is not printable and not both kinds of
    quote, and the standard output can encode it; when the lowercased form
    is a key, the program prints the record as JSON indented by two spaces
    and exits with status 0.  The [repr] of a float is taken to be
    printable ASCII. *)
Theorem main_host args w host index w1 :
  arg_host args = Some host → host ≠ [] →
  load_index (arg_json args) w = (Ret index, w1) →
  (deref w1 index !! str_lower host = None →
   (run_cli args w).1 = 1%Z
   ∧ (repr_verbatim host → encodable host = true →
      ∃ line, run_cli args w = (1%Z, printed w1 [line])
              ∧ substring host line))
  ∧ (∀ rec, deref w1 index !! str_lower host = Some rec →
       (∀ f, Forall plain_char (float_repr f)) →
       run_cli args w = (0%Z, printed w1 [json_dumps 2 rec])).
Proof.
  intros Hhost Hne Hload. unfold run_cli.
  rewrite (main_run _ _ _ _ Hload), Hhost.
  destruct host as [|c host]; [done|]. simpl host_given. cbv iota beta.
  split.
  - intros ->. set (name := c :: host).
    destruct (miss_run (str_repr (u "Hostname not found: " ++ name)) w1)
      as (Hx & Hyes & _).
    split.
    + by destruct ((print (str_repr (u "Hostname not found: " ++ name));;
                    raise (A:=unit) (SystemExit 1)) w1) as [o w2].
    + intros Hv Henc.
      rewrite Hyes by by apply str_repr_encodable, encodable_message.
      eexists. split; [done|]. rewrite (str_repr_message name Hv).
      set (q := if bool_decide (39 ∈ name) then 34 else 39).
      exists (q :: u "Hostname not found: "), [q].
      by rewrite <- !app_assoc.
  - intros rec -> Hfl. by rewrite print_json_dumps.
Qed.

(** X12.  The text the program prints for a record it finds is printable
    ASCII and line feeds, whatever the strings of the record hold. *)
Theorem main_record_output_plain args w host index w1 rec :
  (∀ f, Forall plain_char (float_repr f)) →
  host_given (arg_host args) = Some host →
  load_index (arg_json args) w = (Ret index, w1) →
  deref w1 index !! str_lower host = Some rec →
  ∃ line, run_cli args w = (0%Z, printed w1 [line]) ∧ Forall plain_char line.
Proof.
  intros Hfl Hhost Hload Hrec. exists (json_dumps 2 rec). split.
  - unfold run_cli.
    by rewrite (main_run _ _ _ _ Hload), Hhost, Hrec, print_json_dumps.
  - by apply iterencode_plain.
Qed.

(** X13.  From the file to the standard output and back: the text the program
    prints for a name it finds reads back, with [json.loads], as a row of
    the array in the file. *)
Theorem main_record_output_reads_back args w text rows host index w1 rec :
  w_fs w (arg_json args) = RegularFile (Some text) →
  Forall unicode_scalar text →
  json_loads text = Some (JArr rows) →
  host_given (arg_host args) = Some host →
  load_index (arg_json args) w = (Ret index, w1) →
  deref w1 index !! str_lower host = Some rec →
  floats_read_back rec →
  ∃ line,
    run_cli args w = (0%Z, printed w1 [line])
    ∧ json_loads line = Some rec
    ∧ rec ∈ rows.
Proof.
  intros Hfs Htext Hj Hhost Hload Hrec Hfl.
  pose proof Hload
    as (text' & rows' & Hfs' & Hj' & _ & _ & _ & Hent)%load_index_entries.
  rewrite Hfs in Hfs'. simplify_eq.
  pose proof Hrec as [Hin _]%Hent%last_stored_elem.
  exists (json_dumps 2 rec). split_and!.
  - unfold run_cli.
    rewrite (main_run _ _ _ _ Hload), Hhost, Hrec, print_run.
    by rewrite plain_encodable by by apply iterencode_reads_back_plain.
  - apply json_loads_dumps; [|done].
    apply (json_loads_ok _ _ Htext), json_ok_arr in Hj.
    rewrite Forall_forall in Hj. by apply Hj.
  - done.
Qed.

(** *** The line of a name that is not found *)

(** X14.  For a name that is not found the program exits with status 1.
    When the standard output can encode the name, the line the program
    prints is the message between two quotes, never the message itself;
    for a name [repr] leaves as it is, the line is the message with the
    name, between double quotes when the name holds a single quote and
    between single quotes otherwise. *)
Theorem main_miss_line_quoted args w host index w1 :
  host_given (arg_host args) = Some host →
  load_index (arg_json args) w = (Ret index, w1) →
  deref w1 index !! str_lower host = None →
  let msg := u "Hostname not found: " ++ host in
  (run_cli args w).1 = 1%Z
  ∧ (encodable host = true →
     (∃ q body,
        run_cli args w = (1%Z, printed w1 [q :: body ++ [q]])
        ∧ (q = 39 ∨ q = 34)
        ∧ q :: body ++ [q] ≠ msg)
     ∧ (repr_verbatim host →
        let q := if bool_decide (39 ∈ host) then 34 else 39 in
        run_cli args w = (1%Z, printed w1 [q :: msg ++ [q]]))).
Proof.
  intros Hhost Hload Hmiss msg.
  destruct (miss_run (str_repr msg) w1) as (Hx & Hyes & _).
  assert (main args w
          = (print (str_repr msg);; raise (A:=unit) (SystemExit 1)) w1)
    as Hmain.
  { by rewrite (main_run _ _ _ _ Hload), Hhost, Hmiss. }
  split.
  { unfold run_cli. rewrite Hmain.
    by destruct ((print (str_repr msg);; raise (A:=unit) (SystemExit 1)) w1)
      as [o w2]. }
  intros Henc.
  assert (run_cli args w = (1%Z, printed w1 [str_repr msg])) as Hrun.
  { unfold run_cli.
    by rewrite Hmain, Hyes by by apply str_repr_encodable, encodable_message. }
  split.
  - exists (repr_quote msg), (msg ≫= repr_cp (repr_quote msg)).
    split; [done|]. unfold repr_quote.
    destruct (bool_decide (39 ∈ msg) && negb (bool_decide (34 ∈ msg)));
      (split; [auto|done]).
  - intros Hv. rewrite Hrun. unfold msg. by rewrite (str_repr_message host Hv).
Qed.

(** *** A file without hostnames *)

Lemma build_index_all_skipped rows m :
  Forall falsy_hostname rows → build_index rows m = (Ret tt, m).
Proof.
  induction 1 as [|row rows Hrow _ IH]; simpl; [done|].
  by rewrite (falsy_hostname_action _ Hrow).
Qed.

(** X15.  An array whose rows all have a [hostname] that is false in a
    condition, the empty array among them, gives an empty index: the
    listing prints nothing and the process exits with status 0, and a
    name given with [--host] is not found. *)
Theorem main_no_hostnames args w text rows :
  w_fs w (arg_json args) = RegularFile (Some text) →
  json_loads text = Some (JArr rows) →
  Forall falsy_hostname rows →
  let w1 := World (w_fs w) (w_stdout w) (w_heap w ++ [∅]) in
  load_index (arg_json args) w = (Ret (length (w_heap w)), w1)
  ∧ (host_given (arg_host args) = None → run_cli args w = (0%Z, w1))
  ∧ (∀ host, host_given (arg_host args) = Some host →
             (run_cli args w).1 = 1%Z).
Proof.
  intros Hfs Hj Hrows w1.
  assert (load_index (arg_json args) w = (Ret (length (w_heap w)), w1)) as Hload.
  { rewrite load_index_run, Hfs, Hj. simpl.
    rewrite (build_index_all_skipped rows ∅ Hrows). simpl.
    unfold set_dict, w1. simpl. do 2 f_equal.
    apply list_insert_id. by rewrite lookup_app_r, Nat.sub_diag. }
  split; [done|]. unfold run_cli. rewrite (main_run _ _ _ _ Hload).
  assert (deref w1 (length (w_heap w)) = ∅) as Hd by apply deref_new_dict.
  split.
  - intros ->. unfold list_hostnames, dict_sorted.
    unfold mbind at 1, M_bind at 1. rewrite Hd, map_to_list_empty. done.
  - intros host ->. rewrite Hd, lookup_empty.
    destruct (miss_run (str_repr (u "Hostname not found: " ++ host)) w1)
      as (Hx & _ & _).
    by destruct ((print (str_repr (u "Hostname not found: " ++ host));;
                  raise (A:=unit) (SystemExit 1)) w1) as [o w2].
Qed.

End server_lookup.

(** ** Worked examples *)

Lemma ex_load_index :
  load_index ex_parse_float ascii_lower (u "servers.json") (ex_world ex_text)
  = (Ret 0%nat, ex_loaded ex_text).
Proof.
  rewrite load_index_run. vm_compute. reflexivity.
Qed.

Lemma ex_load_index_dup :
  load_index ex_parse_float ascii_lower (u "servers.json") (ex_world ex_text_dup)
  = (Ret 0%nat, ex_loaded ex_text_dup).
Proof.
  rewrite load_index_run. vm_compute. reflexivity.
Qed.

(** C1, witness: the example of the specification. *)
Lemma load_index_last_wins_witness :
  ∃ w', load_index ex_parse_float ascii_lower (u "servers.json") (ex_world ex_text)
        = (Ret 0%nat, w')
        ∧ indexes ascii_lower [ex_beta; ex_alpha] (deref w' 0).
Proof.
  apply (load_index_last_wins ex_parse_float ascii_lower
           (u "servers.json") (ex_world ex_text) ex_text [ex_beta; ex_alpha]).
  - reflexivity.
  - vm_compute. reflexivity.
  - intros row Hrow. apply elem_of_cons in Hrow as [->|Hrow].
    + exists (u "beta"). split; [reflexivity|discriminate].
    + apply elem_of_cons in Hrow as [->|Hrow].
      * exists (u "Alpha"). split; [reflexivity|discriminate].
      * by apply elem_of_nil in Hrow.
Defined.

(** C1, counterexample: the one element of the array has a string
    [hostname], the empty string; [load_index] returns an empty index, so
    the lowercased hostname of the element has no entry. *)
Lemma load_index_empty_hostname_not_indexed :
  let text := uq "[{'hostname':''}]" in
  let rows := [JObj [(u "hostname", JStr [])]] in
  let w' := World (ex_fs (Some text)) [] [∅] in
  json_loads ex_parse_float text = Some (JArr rows)
  ∧ Forall (λ row, ∃ h, record_hostname row = Some h) rows
  ∧ load_index ex_parse_float ascii_lower (u "servers.json") (ex_world text)
    = (Ret 0%nat, w')
  ∧ ¬ indexes ascii_lower rows (deref w' 0).
Proof.
  split_and!.
  - vm_compute. reflexivity.
  - repeat constructor. by exists [].
  - rewrite load_index_run. vm_compute. reflexivity.
  - intros [Hperm _]. apply Permutation_length in Hperm.
    vm_compute in Hperm. discriminate.
Qed.

(** C2, witness: [Host1] and [HOST1] on an index with the key [host1]. *)
Lemma lookup_case_insensitive_witness :
  let w := World (ex_fs None) [] [{[u "host1" := JStr (u "the record")]}] in
  (∀ rec, lookup ascii_lower 0 (u "Host1") w = (Ret rec, w)
          ↔ lookup ascii_lower 0 (u "HOST1") w = (Ret rec, w))
  ∧ (∀ rec, lookup ascii_lower 0 (u "Host1") w = (Ret rec, w)
            ↔ deref w 0 !! ascii_lower (u "Host1") = Some rec)
  ∧ ((∃ rec, (lookup ascii_lower 0 (u "Host1") w).1 = Ret rec)
     ↔ ascii_lower (u "Host1") ∈ dom (deref w 0)).
Proof.
  intros w. apply (lookup_case_insensitive ascii_lower 0 (u "Host1") (u "HOST1") w).
  reflexivity.
Defined.

(** The [repr] of the floats of the examples is printable ASCII, and [repr]
    leaves the name [gamma] as it is. *)
Lemma ex_float_repr_plain f : Forall plain_char (ex_float_repr f).
Proof.
  apply (bool_decide_unpack (Forall plain_char (ex_float_repr f))).
  vm_compute. exact I.
Qed.

Lemma ex_gamma_verbatim : repr_verbatim ex_isprintable (u "gamma").
Proof.
  split.
  - apply Forall_forall. intros x Hx. vm_compute in Hx. set_unfold in Hx.
    destruct_or!; subst; (split_and!; [done|done|done|by intros ?]).
  - intros [Hx _]. vm_compute in Hx. set_unfold in Hx. by destruct_or!.
Qed.

(** C3, witness: [--host gamma] and [--host ALPHA] on the example of the
    specification, on a standard output in UTF-8. *)
Lemma main_host_witness :
  ((run_cli ex_float_repr ex_parse_float ascii_lower ex_isprintable
      ex_stdout_encodes
      (Args (u "servers.json") (Some (u "gamma"))) (ex_world ex_text)).1 = 1%Z
   ∧ ∃ line,
       run_cli ex_float_repr ex_parse_float ascii_lower ex_isprintable
         ex_stdout_encodes
         (Args (u "servers.json") (Some (u "gamma"))) (ex_world ex_text)
       = (1%Z, printed (ex_loaded ex_text) [line])
       ∧ substring (u "gamma") line)
  ∧ run_cli ex_float_repr ex_parse_float ascii_lower ex_isprintable
      ex_stdout_encodes
      (Args (u "servers.json") (Some (u "ALPHA"))) (ex_world ex_text)
    = (0%Z, printed (ex_loaded ex_text) [json_dumps ex_float_repr 2 ex_alpha]).
Proof.
  split.
  - destruct (proj1 (main_host ex_float_repr ex_parse_float ascii_lower
                       ex_isprintable ex_stdout_encodes
                       (Args (u "servers.json") (Some (u "gamma")))
                       (ex_world ex_text) (u "gamma") 0%nat (ex_loaded ex_text)
                       eq_refl ltac:(discriminate) ex_load_index))
      as [Hstatus Hline].
    + vm_compute. reflexivity.
    + split; [exact Hstatus|]. apply Hline.
      * apply ex_gamma_verbatim.
      * vm_compute. reflexivity.
  - apply (proj2 (main_host ex_float_repr ex_parse_float ascii_lower
                    ex_isprintable ex_stdout_encodes
                    (Args (u "servers.json") (Some (u "ALPHA")))
                    (ex_world ex_text) (u "ALPHA") 0%nat (ex_loaded ex_text)
                    eq_refl ltac:(discriminate) ex_load_index)).
    + vm_compute. reflexivity.
    + apply ex_float_repr_plain.
Defined.

(** The line of a name that is not in the example. *)
Lemma ex_miss_line host :
  host ≠ [] →
  deref (ex_loaded ex_text) 0 !! ascii_lower host = None →
  encodable ex_stdout_encodes host = true →
  run_cli ex_float_repr ex_parse_float ascii_lower ex_isprintable
    ex_stdout_encodes (Args (u "servers.json") (Some host)) (ex_world ex_text)
  = (1%Z, printed (ex_loaded ex_text)
            [str_repr ex_isprintable (u "Hostname not found: " ++ host)]).
Proof.
  intros Hne Hmiss Henc. unfold run_cli.
  rewrite (main_run ex_float_repr ex_parse_float ascii_lower ex_isprintable
             ex_stdout_encodes (Args (u "servers.json") (Some host)) _ _ _
             ex_load_index).
  destruct host as [|c host]; [done|]. simpl host_given. cbv iota beta.
  rewrite Hmiss.
  destruct (miss_run ex_stdout_encodes
              (str_repr ex_isprintable
                 (u "Hostname not found: " ++ c :: host))
              (ex_loaded ex_text)) as (_ & Hyes & _).
  rewrite Hyes; [done|].
  by apply str_repr_encodable, encodable_message.
Qed.

(** Where a string stands in another. *)
Lemma substring_at p s :
  substring p s →
  ∃ i, (i ≤ length s)%nat ∧ take (length p) (drop i s) = p.
Proof.
  intros (a & b & ->). exists (length a). split.
  - rewrite length_app. lia.
  - by rewrite drop_app_length, take_app_length.
Qed.

(** A string that stands nowhere in a line of fewer than 28 characters. *)
Ltac not_substring :=
  let i := fresh "i" in
  let Hi := fresh "Hi" in
  let H := fresh "H" in
  intros (i & Hi & H)%substring_at;
  do 28 (destruct i as [|i]; [vm_compute in H; discriminate|]);
  vm_compute in Hi; lia.

(** C3, counterexample.  On the example of the specification, with names
    whose lowercased form is not a key of the index: with the empty name the
    program lists the hostnames and exits with status 0; for the name
    [a\b], for the name of a double and a single quote and for the name of
    a tabulator the line the program prints does not hold the name; and on
    a standard output in ASCII the program prints nothing for the name
    [é]. *)
Lemma main_host_no_message_with_name :
  let run := run_cli ex_float_repr ex_parse_float ascii_lower
               ex_isprintable in
  let missing host :=
    deref (ex_loaded ex_text) 0 !! ascii_lower host = None in
  let line_without host :=
    ∃ line,
      run ex_stdout_encodes (Args (u "servers.json") (Some host))
        (ex_world ex_text)
      = (1%Z, printed (ex_loaded ex_text) [line])
      ∧ ¬ substring host line in
  (missing []
   ∧ run ex_stdout_encodes (Args (u "servers.json") (Some []))
       (ex_world ex_text)
     = (0%Z, printed (ex_loaded ex_text) [u "Alpha"; u "beta"]))
  ∧ (missing [97; 92; 98] ∧ line_without [97; 92; 98])
  ∧ (missing [34; 39] ∧ line_without [34; 39])
  ∧ (missing [9] ∧ line_without [9])
  ∧ (missing [233]
     ∧ run ex_stdout_ascii (Args (u "servers.json") (Some [233]))
         (ex_world ex_text)
       = (1%Z, ex_loaded ex_text)).
Proof.
  intros run missing line_without.
  assert (∀ host, host ≠ [] → missing host →
            encodable ex_stdout_encodes host = true →
            ¬ substring host
                (str_repr ex_isprintable (u "Hostname not found: " ++ host)) →
            line_without host) as Hline.
  { intros host Hne Hmiss Henc Hsub. eexists. split; [|exact Hsub].
    by apply ex_miss_line. }
  split_and!.
  - vm_compute. reflexivity.
  - unfold run, run_cli.
    rewrite (main_run ex_float_repr ex_parse_float ascii_lower ex_isprintable
               ex_stdout_encodes (Args (u "servers.json") (Some [])) _ _ _
               ex_load_index).
    vm_compute. reflexivity.
  - vm_compute. reflexivity.
  - apply Hline; [done|vm_compute; reflexivity|vm_compute; reflexivity|].
    not_substring.
  - vm_compute. reflexivity.
  - apply Hline; [done|vm_compute; reflexivity|vm_compute; reflexivity|].
    not_substring.
  - vm_compute. reflexivity.
  - apply Hline; [done|vm_compute; reflexivity|vm_compute; reflexivity|].
    not_substring.
  - vm_compute. reflexivity.
  - unfold run, run_cli.
    rewrite (main_run ex_float_repr ex_parse_float ascii_lower ex_isprintable
               ex_stdout_ascii (Args (u "servers.json") (Some [233])) _ _ _
               ex_load_index).
    vm_compute. reflexivity.
Qed.

(** The lines of the listing of the example. *)
Lemma ex_listing :
  run_cli ex_float_repr ex_parse_float ascii_lower ex_isprintable
    ex_stdout_encodes (Args (u "servers.json") None) (ex_world ex_text)
  = (0%Z, printed (ex_loaded ex_text) [u "Alpha"; u "beta"]).
Proof.
  unfold run_cli.
  rewrite (main_run ex_float_repr ex_parse_float ascii_lower ex_isprintable
             ex_stdout_encodes (Args (u "servers.json") None) _ _ _
             ex_load_index).
  vm_compute. reflexivity.
Qed.

(** C4, witness: the listing of the example, whose array has [beta] first,
    on a standard output in UTF-8: two lines, [Alpha] and [beta]. *)
Lemma main_lists_sorted_hostnames_witness :
  let run := run_cli ex_float_repr ex_parse_float ascii_lower ex_isprintable
               ex_stdout_encodes (Args (u "servers.json") None)
               (ex_world ex_text) in
  run = (0%Z, printed (ex_loaded ex_text) [u "Alpha"; u "beta"])
  ∧ ∃ out, w_stdout run.2 = w_stdout (ex_loaded ex_text) ++ out
           ∧ text_lines out = [u "Alpha"; u "beta"].
Proof.
  intros run.
  destruct (main_lists_sorted_hostnames ex_float_repr ex_parse_float
              ascii_lower ex_isprintable ex_stdout_encodes
              (Args (u "servers.json") None) (ex_world ex_text)
              0%nat (ex_loaded ex_text) eq_refl ex_load_index)
    as (keys & lines & Hp & Hasc & Huniq & Hlines & Hrun).
  assert ([u "alpha"; u "beta"] = keys) as <-.
  { apply Huniq.
    - vm_compute. first [reflexivity|apply perm_swap].
    - repeat constructor. }
  assert (lines = [u "Alpha"; u "beta"]) as ->.
  { apply Forall2_cons_inv_l in Hlines as (l1 & ls & H1 & Hls & ->).
    apply Forall2_cons_inv_l in Hls as (l2 & ls' & H2 & Hnil & ->).
    apply Forall2_nil_inv_l in Hnil as ->.
    vm_compute in H1. vm_compute in H2. by simplify_eq. }
  destruct Hrun as [Hrun Htext]; [vm_compute; reflexivity|].
  split; [exact Hrun|]. apply Htext.
  repeat (apply Forall_cons; split;
          [intros Hx; vm_compute in Hx; set_unfold in Hx; by destruct_or!|]).
  apply Forall_nil_2.
Defined.

(** C4, counterexample: a file whose second record has a lone surrogate
    for its [hostname], on a standard output in UTF-8.  [load_index]
    returns an index with both records; the listing prints the first
    hostname, stops at the second with a [UnicodeEncodeError], and the
    program exits with status 1.  And a file whose one record has a
    [hostname] with a line feed: the listing of the one entry is two
    lines. *)
Lemma main_lists_unprintable_hostname :
  let args := Args (u "servers.json") None in
  let run := run_cli ex_float_repr ex_parse_float ascii_lower ex_isprintable
               ex_stdout_encodes args in
  let w1 := World (ex_fs (Some ex_text_surrogate)) []
              [<[u "a" := JObj [(u "hostname", JStr (u "a"))]]>
                 (<[[55296] := JObj [(u "hostname", JStr [55296])]]> ∅)] in
  let w2 := World (ex_fs (Some ex_text_linefeed)) []
              [<[[97; 10; 98] := JObj [(u "hostname", JStr [97; 10; 98])]]> ∅] in
  (load_index ex_parse_float ascii_lower (u "servers.json")
     (ex_world ex_text_surrogate) = (Ret 0%nat, w1)
   ∧ run (ex_world ex_text_surrogate) = (1%Z, printed w1 [u "a"]))
  ∧ (load_index ex_parse_float ascii_lower (u "servers.json")
       (ex_world ex_text_linefeed) = (Ret 0%nat, w2)
     ∧ size (deref w2 0) = 1%nat
     ∧ run (ex_world ex_text_linefeed) = (0%Z, printed w2 [[97; 10; 98]])
     ∧ text_lines (w_stdout (printed w2 [[97; 10; 98]])) = [u "a"; u "b"]).
Proof.
  intros args run w1 w2.
  assert (load_index ex_parse_float ascii_lower (u "servers.json")
            (ex_world ex_text_surrogate) = (Ret 0%nat, w1)) as Hload1.
  { rewrite load_index_run. vm_compute. reflexivity. }
  assert (load_index ex_parse_float ascii_lower (u "servers.json")
            (ex_world ex_text_linefeed) = (Ret 0%nat, w2)) as Hload2.
  { rewrite load_index_run. vm_compute. reflexivity. }
  split_and!.
  - exact Hload1.
  - unfold run, run_cli.
    rewrite (main_run ex_float_repr ex_parse_float ascii_lower ex_isprintable
               ex_stdout_encodes args _ _ _ Hload1).
    vm_compute. reflexivity.
  - exact Hload2.
  - vm_compute. reflexivity.
  - unfold run, run_cli.
    rewrite (main_run ex_float_repr ex_parse_float ascii_lower ex_isprintable
               ex_stdout_encodes args _ _ _ Hload2).
    vm_compute. reflexivity.
  - vm_compute. reflexivity.
Qed.

(** C5, witness: the key [alpha] of the example. *)
Lemma load_index_key_invariant_witness :
  record_key ascii_lower ex_alpha = Some (u "alpha").
Proof.
  apply (load_index_key_invariant ex_parse_float ascii_lower
           (u "servers.json") (ex_world ex_text) 0%nat (ex_loaded ex_text)).
  - apply ex_load_index.
  - vm_compute. reflexivity.
Defined.

(** C6, witness: the record [{"os": "none"}] between other records. *)
Lemma load_index_skips_no_hostname_witness :
  let run := load_index ex_parse_float ascii_lower (u "servers.json") in
  (run (ex_world ex_text_dup)).1 = (run (ex_world ex_text_dup_less)).1
  ∧ w_heap (run (ex_world ex_text_dup)).2
    = w_heap (run (ex_world ex_text_dup_less)).2
  ∧ ∀ index w' k rec,
      run (ex_world ex_text_dup) = (Ret index, w') →
      deref w' index !! k = Some rec → ¬ no_hostname rec.
Proof.
  apply (load_index_skips_no_hostname ex_parse_float ascii_lower
           (u "servers.json") (u "servers.json")
           (ex_world ex_text_dup) (ex_world ex_text_dup_less)
           ex_text_dup ex_text_dup_less
           [ex_old; ex_beta] (JObj [(u "os", JStr (u "none"))]) [ex_alpha]).
  - eexists. split; [reflexivity|]. left. reflexivity.
  - reflexivity.
  - vm_compute. reflexivity.
  - reflexivity.
  - vm_compute. reflexivity.
  - reflexivity.
Defined.

(** C7, witness: a path that names nothing, a text that is not JSON and a
    text whose value is an object. *)
Lemma load_index_failures_witness :
  ((∃ msg, load_index ex_parse_float ascii_lower (u "nothing.json")
             (ex_world ex_text)
           = (Raise (FileNotFoundError msg), ex_world ex_text))
   ∧ (run_cli ex_float_repr ex_parse_float ascii_lower ex_isprintable
     ex_stdout_encodes
        (Args (u "nothing.json") None) (ex_world ex_text)).1 ≠ 0%Z)
  ∧ ((∃ e, load_index ex_parse_float ascii_lower (u "servers.json")
             (ex_world (uq "[{'hostname':"))
           = (Raise e, ex_world (uq "[{'hostname':"))
           ∧ is_ValueError e = true)
     ∧ (run_cli ex_float_repr ex_parse_float ascii_lower ex_isprintable
       ex_stdout_encodes
          (Args (u "servers.json") None)
          (ex_world (uq "[{'hostname':"))).1 ≠ 0%Z)
  ∧ ((∃ e, load_index ex_parse_float ascii_lower (u "servers.json")
             (ex_world (uq "{'hostname':'Alpha'}"))
           = (Raise e, ex_world (uq "{'hostname':'Alpha'}"))
           ∧ is_ValueError e = true)
     ∧ (run_cli ex_float_repr ex_parse_float ascii_lower ex_isprintable
       ex_stdout_encodes
          (Args (u "servers.json") None)
          (ex_world (uq "{'hostname':'Alpha'}"))).1 ≠ 0%Z).
Proof.
  split; [|split].
  - apply (proj1 (load_index_failures ex_float_repr ex_parse_float ascii_lower
             ex_isprintable
               ex_stdout_encodes (Args (u "nothing.json") None) (ex_world ex_text))).
    reflexivity.
  - apply (proj1 (proj2 (load_index_failures ex_float_repr ex_parse_float
             ascii_lower ex_isprintable
               ex_stdout_encodes (Args (u "servers.json") None)
             (ex_world (uq "[{'hostname':")))) (uq "[{'hostname':")).
    + reflexivity.
    + left. vm_compute. reflexivity.
  - apply (proj1 (proj2 (load_index_failures ex_float_repr ex_parse_float
             ascii_lower ex_isprintable
               ex_stdout_encodes (Args (u "servers.json") None)
             (ex_world (uq "{'hostname':'Alpha'}"))))
             (uq "{'hostname':'Alpha'}")).
    + reflexivity.
    + right. eexists. split; [vm_compute; reflexivity|]. discriminate.
Defined.

(** C9, witness: [main] on the example leaves the dictionaries as
    [load_index] left them. *)
Lemma index_is_not_mutated_witness :
  w_heap (main ex_float_repr ex_parse_float ascii_lower ex_isprintable
    ex_stdout_encodes
            (Args (u "servers.json") (Some (u "beta"))) (ex_world ex_text)).2
  = [ex_index].
Proof.
  apply (proj1 (proj1 (proj2 (proj2 (index_is_not_mutated ex_float_repr
           ex_parse_float ascii_lower ex_isprintable ex_stdout_encodes)))
           (Args (u "servers.json") (Some (u "beta"))) (ex_world ex_text)
           0%nat (ex_loaded ex_text) ex_load_index)).
Defined.

(** C10, witness: an array with a number in it, and an array with a record
    whose [hostname] is a number. *)
Lemma load_index_bad_row_witness :
  (load_index ex_parse_float ascii_lower (u "servers.json")
     (ex_world (uq "[{'hostname':'Alpha'}, 5]"))).1 = Raise AttributeError
  ∧ (load_index ex_parse_float ascii_lower (u "servers.json")
       (ex_world (uq "[{'hostname':5}]"))).1 = Raise AttributeError.
Proof.
  split.
  - apply (load_index_bad_row ex_parse_float ascii_lower (u "servers.json")
             (ex_world (uq "[{'hostname':'Alpha'}, 5]"))
             (uq "[{'hostname':'Alpha'}, 5]")
             [JObj [(u "hostname", JStr (u "Alpha"))]; JInt 5]).
    + reflexivity.
    + vm_compute. reflexivity.
    + exists (JInt 5). split; [|exact I]. right. left.
  - apply (load_index_bad_row ex_parse_float ascii_lower (u "servers.json")
             (ex_world (uq "[{'hostname':5}]"))
             (uq "[{'hostname':5}]")
             [JObj [(u "hostname", JInt 5)]]).
    + reflexivity.
    + vm_compute. reflexivity.
    + exists (JObj [(u "hostname", JInt 5)]). split; [left|reflexivity].
Defined.

(** C8, witness: the record of [--host ALPHA] in a file with a float, a
    nested array, an escaped string and an empty object. *)
Lemma lookup_record_roundtrip_witness :
  json_loads ex_parse_float (json_dumps ex_float_repr 2 ex_rich) = Some ex_rich.
Proof.
  apply (lookup_record_roundtrip ex_float_repr ex_parse_float ascii_lower
           (u "servers.json") (ex_world ex_rich_text) ex_rich_text 0%nat
           (World (ex_fs (Some ex_rich_text)) [] [{[u "alpha" := ex_rich]}])
           (u "ALPHA") ex_rich
           (World (ex_fs (Some ex_rich_text)) [] [{[u "alpha" := ex_rich]}])).
  - reflexivity.
  - apply (bool_decide_unpack (Forall unicode_scalar ex_rich_text)).
    vm_compute. exact I.
  - rewrite load_index_run. vm_compute. reflexivity.
  - rewrite lookup_run. vm_compute. reflexivity.
  - simpl. split_and!; try exact I.
    intros _. split; vm_compute; reflexivity.
Defined.

(** The text of that record. *)
Lemma ex_rich_dumps :
  json_dumps ex_float_repr 2 ex_rich
  = uq "{
  'hostname': 'Alpha',
  'load': 0.0,
  'tags': [
    'a\u00e9',
    null,
    true,
    -12
  ],
  'os': {}
}".
Proof. vm_compute. reflexivity. Qed.

(** ** Worked examples of the further properties *)

(** X2, witness.  The row [{"hostname": null}] between the two records of the
    example: the run is the run on the example itself. *)
Lemma load_index_skips_falsy_hostname_witness :
  load_index ex_parse_float ascii_lower (u "servers.json")
    (ex_world2 ex_text_null ex_text)
  = load_index ex_parse_float ascii_lower (u "fewer.json")
      (ex_world2 ex_text_null ex_text).
Proof.
  apply (load_index_skips_falsy_hostname ex_parse_float ascii_lower
           (u "servers.json") (u "fewer.json") (ex_world2 ex_text_null ex_text)
           ex_text_null ex_text
           [ex_beta] (JObj [(u "hostname", JNull)]) [ex_alpha]).
  - eexists. split; reflexivity.
  - reflexivity.
  - vm_compute. reflexivity.
  - reflexivity.
  - vm_compute. reflexivity.
Defined.

(** X3, witness.  Four rows, one without a hostname and two of the same host:
    two entries. *)
Lemma load_index_size_witness :
  size (deref (ex_loaded ex_text_dup) 0)
  = length (remove_dups (omap (index_key ascii_lower) ex_rows_dup))
  ∧ (size (deref (ex_loaded ex_text_dup) 0) ≤ length ex_rows_dup)%nat.
Proof.
  apply (load_index_size ex_parse_float ascii_lower (u "servers.json")
           (ex_world ex_text_dup) ex_text_dup ex_rows_dup 0%nat
           (ex_loaded ex_text_dup)).
  - reflexivity.
  - vm_compute. reflexivity.
  - apply ex_load_index_dup.
Defined.

(** X4, witness.  The record of [ALPHA] in front of the example has no
    effect. *)
Lemma load_index_overridden_row_witness :
  let w := ex_world2 ex_text_dup_less ex_text in
  (load_index ex_parse_float ascii_lower (u "servers.json") w).1
  = (load_index ex_parse_float ascii_lower (u "fewer.json") w).1
  ∧ ∀ index w',
      load_index ex_parse_float ascii_lower (u "servers.json") w
      = (Ret index, w') →
      load_index ex_parse_float ascii_lower (u "fewer.json") w
      = (Ret index, w').
Proof.
  intros w.
  apply (load_index_overridden_row ex_parse_float ascii_lower
           (u "servers.json") (u "fewer.json") w ex_text_dup_less ex_text
           [] ex_old [ex_beta; ex_alpha] (u "alpha")).
  - vm_compute. reflexivity.
  - exists ex_alpha. split; [right; left|vm_compute; reflexivity].
  - reflexivity.
  - vm_compute. reflexivity.
  - reflexivity.
  - vm_compute. reflexivity.
Defined.

(** X5, witness.  The example with its two records in the other order. *)
Lemma load_index_order_irrelevant_witness :
  let w := ex_world2 ex_text ex_text_swapped in
  (load_index ex_parse_float ascii_lower (u "servers.json") w).1
  = (load_index ex_parse_float ascii_lower (u "fewer.json") w).1
  ∧ ∀ index w',
      load_index ex_parse_float ascii_lower (u "servers.json") w
      = (Ret index, w') →
      load_index ex_parse_float ascii_lower (u "fewer.json") w
      = (Ret index, w').
Proof.
  intros w.
  apply (load_index_order_irrelevant ex_parse_float ascii_lower
           (u "servers.json") (u "fewer.json") w ex_text ex_text_swapped
           [ex_beta; ex_alpha] [ex_alpha; ex_beta]).
  - apply perm_swap.
  - apply (bool_decide_unpack
             (NoDup (omap (index_key ascii_lower) [ex_beta; ex_alpha]))).
    vm_compute. exact I.
  - reflexivity.
  - vm_compute. reflexivity.
  - reflexivity.
  - vm_compute. reflexivity.
Defined.

(** X6, witness.  [ALPHA] in the index of the example with a duplicate. *)
Lemma lookup_after_load_index_witness :
  (∀ rec, lookup ascii_lower 0 (u "ALPHA") (ex_loaded ex_text_dup)
          = (Ret rec, ex_loaded ex_text_dup)
          ↔ last_stored ascii_lower ex_rows_dup (ascii_lower (u "ALPHA")) rec)
  ∧ (lookup ascii_lower 0 (u "ALPHA") (ex_loaded ex_text_dup)
     = (Raise (KeyError (u "Hostname not found: " ++ u "ALPHA")),
        ex_loaded ex_text_dup)
     ↔ ∀ row, row ∈ ex_rows_dup →
              index_key ascii_lower row ≠ Some (ascii_lower (u "ALPHA"))).
Proof.
  apply (lookup_after_load_index ex_parse_float ascii_lower (u "servers.json")
           (ex_world ex_text_dup) ex_text_dup ex_rows_dup 0%nat
           (ex_loaded ex_text_dup) (u "ALPHA")).
  - reflexivity.
  - vm_compute. reflexivity.
  - apply ex_load_index_dup.
Defined.

(** X7, witness.  The record under [alpha] is found as [Alpha]. *)
Lemma lookup_own_hostname_witness :
  ∃ h, record_hostname ex_alpha = Some h
       ∧ lookup ascii_lower 0 h (ex_loaded ex_text)
         = (Ret ex_alpha, ex_loaded ex_text).
Proof.
  apply (lookup_own_hostname ex_parse_float ascii_lower (u "servers.json")
           (ex_world ex_text) 0%nat (ex_loaded ex_text) (u "alpha") ex_alpha).
  - apply ex_load_index.
  - vm_compute. reflexivity.
Defined.

(** X8, witness.  The example, loaded once more. *)
Lemma load_index_twice_witness :
  ∃ index2 w2,
    load_index ex_parse_float ascii_lower (u "servers.json") (ex_loaded ex_text)
    = (Ret index2, w2)
    ∧ index2 ≠ 0%nat
    ∧ deref w2 index2 = deref (ex_loaded ex_text) 0
    ∧ deref w2 0 = deref (ex_loaded ex_text) 0.
Proof.
  apply (load_index_twice ex_parse_float ascii_lower (u "servers.json")
           (ex_world ex_text) 0%nat (ex_loaded ex_text)).
  apply ex_load_index.
Defined.

(** X9, witness.  An array with a number after a record: the listing prints
    nothing, not even the hostname of the record in front. *)
Lemma main_propagates_load_failure_witness :
  let args := Args (u "servers.json") None in
  let w' := World (ex_fs (Some ex_text_bad)) []
              [{[u "alpha" := JObj [(u "hostname", JStr (u "Alpha"))]]}] in
  main ex_float_repr ex_parse_float ascii_lower ex_isprintable
    ex_stdout_encodes args
    (ex_world ex_text_bad) = (Raise AttributeError, w')
  ∧ w_stdout w' = w_stdout (ex_world ex_text_bad)
  ∧ run_cli ex_float_repr ex_parse_float ascii_lower ex_isprintable
    ex_stdout_encodes args
      (ex_world ex_text_bad) = (1%Z, w').
Proof.
  intros args w'.
  apply (main_propagates_load_failure ex_float_repr ex_parse_float ascii_lower
           ex_isprintable
             ex_stdout_encodes args (ex_world ex_text_bad) AttributeError w').
  rewrite load_index_run. vm_compute. reflexivity.
Defined.

(** X10, witness.  The listing of the example, asked for with an empty
    [--host]. *)
Lemma listing_sorted_by_lowercase_witness :
  let run := run_cli ex_float_repr ex_parse_float ascii_lower ex_isprintable
               ex_stdout_encodes (Args (u "servers.json") (Some []))
               (ex_world ex_text) in
  ∃ lines,
    ascending (map ascii_lower lines)
    ∧ length lines = size (deref (ex_loaded ex_text) 0)
    ∧ (∀ line, line ∈ lines
               ↔ ∃ k rec, deref (ex_loaded ex_text) 0 !! k = Some rec
                          ∧ record_hostname rec = Some line)
    ∧ run = (if forallb (encodable ex_stdout_encodes) lines then 0%Z else 1%Z,
             printed (ex_loaded ex_text)
               (printable_prefix ex_stdout_encodes lines))
    ∧ (forallb (encodable ex_stdout_encodes) lines = true →
       run = (0%Z, printed (ex_loaded ex_text) lines)).
Proof.
  intros run.
  apply (listing_sorted_by_lowercase ex_float_repr ex_parse_float ascii_lower
           ex_isprintable ex_stdout_encodes (Args (u "servers.json") (Some []))
           (ex_world ex_text) 0%nat (ex_loaded ex_text)).
  - reflexivity.
  - apply ex_load_index.
Defined.

(** X11, witness.  [--host ALPHA] on the example. *)
Lemma main_exit_status_witness :
  let run := run_cli ex_float_repr ex_parse_float ascii_lower ex_isprintable
               ex_stdout_encodes (Args (u "servers.json") (Some (u "ALPHA")))
               (ex_world ex_text) in
  (run.1 = 0%Z ∨ run.1 = 1%Z)
  ∧ (run.1 = 0%Z
     ↔ ∃ index w1,
         load_index ex_parse_float ascii_lower (u "servers.json")
           (ex_world ex_text) = (Ret index, w1)
         ∧ is_Some (deref w1 index !! ascii_lower (u "ALPHA"))).
Proof.
  intros run.
  apply (main_exit_status ex_float_repr ex_parse_float ascii_lower
           ex_isprintable ex_stdout_encodes
           (Args (u "servers.json") (Some (u "ALPHA"))) (ex_world ex_text)).
  apply ex_float_repr_plain.
Defined.

(** X12, witness.  The record with a string that is not ASCII. *)
Lemma main_record_output_plain_witness :
  ∃ line,
    run_cli ex_float_repr ex_parse_float ascii_lower ex_isprintable
      ex_stdout_encodes
      (Args (u "servers.json") (Some (u "ALPHA"))) (ex_world ex_rich_text)
    = (0%Z, printed (World (ex_fs (Some ex_rich_text)) []
                       [{[u "alpha" := ex_rich]}]) [line])
    ∧ Forall plain_char line.
Proof.
  apply (main_record_output_plain ex_float_repr ex_parse_float ascii_lower
           ex_isprintable
             ex_stdout_encodes (Args (u "servers.json") (Some (u "ALPHA")))
           (ex_world ex_rich_text) (u "ALPHA") 0%nat
           (World (ex_fs (Some ex_rich_text)) [] [{[u "alpha" := ex_rich]}])
           ex_rich).
  - intros f. apply (bool_decide_unpack (Forall plain_char (ex_float_repr f))).
    vm_compute. exact I.
  - reflexivity.
  - rewrite load_index_run. vm_compute. reflexivity.
  - vm_compute. reflexivity.
Defined.

(** X13, witness.  The same record, from the file to the standard output and
    back. *)
Lemma main_record_output_reads_back_witness :
  ∃ line,
    run_cli ex_float_repr ex_parse_float ascii_lower ex_isprintable
      ex_stdout_encodes
      (Args (u "servers.json") (Some (u "ALPHA"))) (ex_world ex_rich_text)
    = (0%Z, printed (World (ex_fs (Some ex_rich_text)) []
                       [{[u "alpha" := ex_rich]}]) [line])
    ∧ json_loads ex_parse_float line = Some ex_rich
    ∧ ex_rich ∈ [ex_rich].
Proof.
  apply (main_record_output_reads_back ex_float_repr ex_parse_float ascii_lower
           ex_isprintable
             ex_stdout_encodes (Args (u "servers.json") (Some (u "ALPHA")))
           (ex_world ex_rich_text) ex_rich_text [ex_rich] (u "ALPHA") 0%nat
           (World (ex_fs (Some ex_rich_text)) [] [{[u "alpha" := ex_rich]}])
           ex_rich).
  - reflexivity.
  - apply (bool_decide_unpack (Forall unicode_scalar ex_rich_text)).
    vm_compute. exact I.
  - vm_compute. reflexivity.
  - reflexivity.
  - rewrite load_index_run. vm_compute. reflexivity.
  - vm_compute. reflexivity.
  - simpl. split_and!; try exact I.
    intros _. split; vm_compute; reflexivity.
Defined.

(** X14, witness.  The name [it's], which is not in the example: the line
    is the message between double quotes. *)
Lemma main_miss_line_quoted_witness :
  let args := Args (u "servers.json") (Some (u "it's")) in
  let run := run_cli ex_float_repr ex_parse_float ascii_lower ex_isprintable
               ex_stdout_encodes args (ex_world ex_text) in
  run.1 = 1%Z
  ∧ (∃ q body,
       run = (1%Z, printed (ex_loaded ex_text) [q :: body ++ [q]])
       ∧ (q = 39 ∨ q = 34)
       ∧ q :: body ++ [q] ≠ u "Hostname not found: " ++ u "it's")
  ∧ run = (1%Z, printed (ex_loaded ex_text)
                  [34 :: (u "Hostname not found: " ++ u "it's") ++ [34]]).
Proof.
  intros args run.
  destruct (main_miss_line_quoted ex_float_repr ex_parse_float ascii_lower
              ex_isprintable ex_stdout_encodes args (ex_world ex_text)
              (u "it's") 0%nat (ex_loaded ex_text)) as [H0 H].
  - reflexivity.
  - apply ex_load_index.
  - vm_compute. reflexivity.
  - destruct H as [H1 H2]; [vm_compute; reflexivity|].
    split_and!; [exact H0|exact H1|]. apply H2. split.
    + apply Forall_forall. intros x Hx. vm_compute in Hx. set_unfold in Hx.
      destruct_or!; subst; (split_and!; [done|done|done|by intros ?]).
    + intros [_ Hx]. vm_compute in Hx. set_unfold in Hx. by destruct_or!.
Defined.

(** X15, witness.  A file with a record without hostname and a record whose
    hostname is 0. *)
Lemma main_no_hostnames_witness :
  let text := uq "[{'os':'none'},{'hostname':0}]" in
  let w1 := World (ex_fs (Some text)) [] [∅] in
  load_index ex_parse_float ascii_lower (u "servers.json") (ex_world text)
  = (Ret 0%nat, w1)
  ∧ run_cli ex_float_repr ex_parse_float ascii_lower ex_isprintable
    ex_stdout_encodes
      (Args (u "servers.json") None) (ex_world text) = (0%Z, w1).
Proof.
  intros text w1.
  destruct (main_no_hostnames ex_float_repr ex_parse_float ascii_lower
              ex_isprintable
                ex_stdout_encodes (Args (u "servers.json") None) (ex_world text) text
              [JObj [(u "os", JStr (u "none"))]; JObj [(u "hostname", JInt 0)]])
    as (H1 & H2 & _).
  - reflexivity.
  - vm_compute. reflexivity.
  - apply Forall_cons; split; [eexists; split; reflexivity|].
    apply Forall_cons; split; [eexists; split; reflexivity|]. apply Forall_nil_2.
  - split; [exact H1|]. apply H2. reflexivity.
Defined.
